(** * viddystudio: subtitle-driven segment extraction

    A shallow embedding of the two scripts of the repository,

      - [extract_segments_with_edl.py]  (module [EDL] below), and
      - [process_video.py]              (module [PV] below),

    together with the Python built-ins they rely on (module [Py]) and the
    regular-expression fragment they use (module [Re]).

    Modelling conventions.
      - A Python [str] is a [string]; every [ascii] stands for the code point
        of the same number, so the model covers text whose code points are
        below 256.  On that range [\d] is exactly [0-9] and [\s] is exactly
        the twelve characters listed in [is_space].
      - Python [int] is [Z]; Python [float] is an IEEE-754 binary64 value,
        [spec_float] with precision 53 and maximal exponent 1024.
      - Python [bytes] (the contents of a file, the diagnostic stream of a
        process) are told by what decoding them as UTF-8 gives: a text, or
        [UnicodeDecodeError].
      - Exceptions and [sys.exit] are results of an error monad over an
        explicit world (files written, lines printed, processes started). *)

From Stdlib Require Import ZArith List String Ascii Bool Lia.
From Stdlib Require Import DecimalString SpecFloat.
From Stdlib Require DecimalZ.
Import ListNotations.

Open Scope string_scope.
Open Scope list_scope.
Open Scope Z_scope.

Infix "+:+" := String.append (at level 60, right associativity).

(* ================================================================== *)
(** * Python built-ins *)
(* ================================================================== *)

Module Py.

(** Exceptions raised by the built-ins the scripts call. *)
Inductive exn : Type :=
| ValueError
| IndexError
| OverflowError
| FileNotFoundError
| UnicodeDecodeError.

Inductive result (A : Type) : Type :=
| Ok (a : A)
| Err (e : exn).
Arguments Ok {A} a.
Arguments Err {A} e.

Definition rbind {A B : Type} (r : result A) (k : A -> result B) : result B :=
  match r with
  | Ok a => k a
  | Err e => Err e
  end.

(** ** Bytes *)

(** The scripts do one thing with bytes: decode them as UTF-8, the
    diagnostic stream of a process with [decode], a file by reading it as
    text.  So a byte string is told by the text that decoding gives, or it
    is not well-formed UTF-8. *)
Inductive bytes : Type :=
| Utf8 (text : string)
| Malformed.

(** [b.decode('utf-8')], and the decoding of a file opened with
    [encoding='utf-8']. *)
Definition decode (b : bytes) : result string :=
  match b with
  | Utf8 text => Ok text
  | Malformed => Err UnicodeDecodeError
  end.

(** ** Characters *)

(** [\d], and the digits [int()] accepts, on code points below 256. *)
Definition is_digit (c : ascii) : bool :=
  let n := nat_of_ascii c in ((48 <=? n) && (n <=? 57))%nat.

Definition digit_val (c : ascii) : Z := Z.of_nat (nat_of_ascii c) - 48.

(** [\s] on code points below 256: TAB LF VT FF CR, FS GS RS US, SPACE, NEL
    and NBSP. *)
Definition is_space (c : ascii) : bool :=
  let n := nat_of_ascii c in
  (((9 <=? n) && (n <=? 13)) || ((28 <=? n) && (n <=? 32))
   || (n =? 133) || (n =? 160))%nat.

(** ** Strings *)

Fixpoint rev_onto (s acc : string) : string :=
  match s with
  | EmptyString => acc
  | String c s' => rev_onto s' (String c acc)
  end.

Definition rev (s : string) : string := rev_onto s "".

(** The blanks [int()] skips around a number, on code points below 256:
    TAB LF VT FF CR, SPACE, NEL and NBSP, and not FS GS RS US. *)
Definition is_int_space (c : ascii) : bool :=
  let n := nat_of_ascii c in
  (((9 <=? n) && (n <=? 13)) || (n =? 32) || (n =? 133) || (n =? 160))%nat.

(** [int()] skips these blanks on both sides of the number. *)
Fixpoint lstrip (s : string) : string :=
  match s with
  | EmptyString => ""
  | String c s' => if is_int_space c then lstrip s' else s
  end.

Definition strip (s : string) : string := rev (lstrip (rev (lstrip s))).

Fixpoint repeat_char (c : ascii) (n : nat) : string :=
  match n with
  | O => ""
  | S n' => String c (repeat_char c n')
  end.

(** [s.split(sep)] for a one-character separator. *)
Fixpoint split (sep : ascii) (s : string) : list string :=
  match s with
  | EmptyString => [""]
  | String c s' =>
      if Ascii.eqb c sep then "" :: split sep s'
      else match split sep s' with
           | h :: t => String c h :: t
           | [] => [String c ""]
           end
  end.

(** [s.replace(old, new)] for a one-character [old]. *)
Fixpoint replace (old : ascii) (new : string) (s : string) : string :=
  match s with
  | EmptyString => ""
  | String c s' =>
      if Ascii.eqb c old then new +:+ replace old new s'
      else String c (replace old new s')
  end.

(** ** Integers *)

(** [str(z)]. *)
Definition str (z : Z) : string := NilZero.string_of_int (Z.to_int z).

(** [format(z, '0<width>')] and [format(z, '0<width>d')]: sign-aware zero
    padding to a minimal width, never truncating. *)
Definition format_0 (width : nat) (z : Z) : string :=
  let sign := if z <? 0 then "-" else "" in
  let digits := str (Z.abs z) in
  sign +:+ repeat_char "0" (width - length sign - length digits) +:+ digits.

(** The digits of an [int()] argument after the first one: single
    underscores are allowed between digits only. *)
Fixpoint int_digits (acc : Z) (s : string) : option Z :=
  match s with
  | EmptyString => Some acc
  | String c s' =>
      if is_digit c then int_digits (10 * acc + digit_val c) s'
      else if Ascii.eqb c "_" then
        match s' with
        | String d s'' =>
            if is_digit d then int_digits (10 * acc + digit_val d) s''
            else None
        | EmptyString => None
        end
      else None
  end.

Definition int_unsigned (s : string) : option Z :=
  match s with
  | String c s' => if is_digit c then int_digits (digit_val c) s' else None
  | EmptyString => None
  end.

(** [int(s)] in base ten: blanks around ([is_int_space]), an optional sign,
    digits. *)
Definition int (s : string) : result Z :=
  let t := strip s in
  let r := match t with
           | String "+" u => int_unsigned u
           | String "-" u => option_map Z.opp (int_unsigned u)
           | _ => int_unsigned t
           end in
  match r with
  | Some z => Ok z
  | None => Err ValueError
  end.

(** ** Floats *)

Definition float : Type := spec_float.

(** Conversion of an [int] operand of a float operation: correctly rounded,
    [OverflowError] when the integer is beyond the largest float. *)
Definition float_of_int (z : Z) : result float :=
  match binary_normalize 53 1024 z 0 false with
  | S754_infinity _ => Err OverflowError
  | f => Ok f
  end.

Definition fdiv (x y : float) : float := SFdiv 53 1024 x y.
Definition fmul (x y : float) : float := SFmul 53 1024 x y.
Definition fadd (x y : float) : float := SFadd 53 1024 x y.

(** The literal [1000.0]. *)
Definition f1000 : float := binary_normalize 53 1024 1000 0 false.

(** [int(x)] of a float: truncation towards zero. *)
Definition int_of_float (x : float) : result Z :=
  match x with
  | S754_zero _ => Ok 0
  | S754_finite s m e =>
      let a := match e with
               | Zneg p => Z.shiftr (Zpos m) (Zpos p)
               | _ => Z.shiftl (Zpos m) e
               end in
      Ok (if s then - a else a)
  | S754_infinity _ => Err OverflowError
  | S754_nan => Err ValueError
  end.

(** [posixpath.join(a, b)] for a relative second component. *)
Definition path_join (a b : string) : string :=
  match rev a with
  | EmptyString => b
  | String "/" _ => a +:+ b
  | _ => a +:+ "/" +:+ b
  end.

End Py.

(* ================================================================== *)
(** * The regular-expression fragment *)
(* ================================================================== *)

Module Re.

(** Character classes of the patterns: [\d], [\s] and a literal. *)
Inductive cls : Type :=
| D
| W
| C (c : ascii).

(** A pattern is a sequence of capture groups and bare classes; the groups
    of the two scripts are neither nested nor repeated. *)
Inductive token : Type :=
| Grp (cs : list cls)
| Bare (k : cls).

Definition cls_match (k : cls) (c : ascii) : bool :=
  match k with
  | D => Py.is_digit c
  | W => Py.is_space c
  | C c' => Ascii.eqb c c'
  end.

(** Match a sequence of classes at the head of [s]: the matched text and
    the rest. *)
Fixpoint match_classes (cs : list cls) (s : string) : option (string * string) :=
  match cs with
  | [] => Some ("", s)
  | k :: cs' =>
      match s with
      | EmptyString => None
      | String c s' =>
          if cls_match k c then
            match match_classes cs' s' with
            | Some (m, r) => Some (String c m, r)
            | None => None
            end
          else None
      end
  end.

(** Match a pattern at the head of [s]: the captured groups and the rest. *)
Fixpoint match_tokens (ts : list token) (s : string) : option (list string * string) :=
  match ts with
  | [] => Some ([], s)
  | Grp cs :: ts' =>
      match match_classes cs s with
      | Some (m, r) =>
          match match_tokens ts' r with
          | Some (gs, r') => Some (m :: gs, r')
          | None => None
          end
      | None => None
      end
  | Bare k :: ts' =>
      match match_classes [k] s with
      | Some (_, r) => match_tokens ts' r
      | None => None
      end
  end.

(** [pattern.findall(s)] for a pattern that matches no empty text: scan from
    the left; after a match resume at its end, otherwise one character on. *)
Fixpoint findall_from (fuel : nat) (ts : list token) (s : string) : list (list string) :=
  match fuel with
  | O => []
  | S fuel' =>
      match match_tokens ts s with
      | Some (gs, r) => gs :: findall_from fuel' ts r
      | None =>
          match s with
          | EmptyString => []
          | String _ s' => findall_from fuel' ts s'
          end
      end
  end.

Definition findall (ts : list token) (s : string) : list (list string) :=
  findall_from (S (length s)) ts s.

(** The classes of a pattern, one per character of a match. *)
Fixpoint classes (ts : list token) : list cls :=
  match ts with
  | [] => []
  | Grp cs :: ts' => cs ++ classes ts'
  | Bare k :: ts' => k :: classes ts'
  end.

(** [m] is a text the classes match, character by character. *)
Fixpoint fits (cs : list cls) (m : string) : bool :=
  match cs, m with
  | [], EmptyString => true
  | k :: cs', String c m' => cls_match k c && fits cs' m'
  | _, _ => false
  end.

Fixpoint take (n : nat) (s : string) : string :=
  match n, s with
  | S n', String c s' => String c (take n' s')
  | _, _ => ""
  end.

Fixpoint drop (n : nat) (s : string) : string :=
  match n, s with
  | S n', String _ s' => drop n' s'
  | _, _ => s
  end.

(** The groups a pattern captures from a text it matches. *)
Fixpoint captures (ts : list token) (m : string) : list string :=
  match ts with
  | [] => []
  | Grp cs :: ts' => take (List.length cs) m :: captures ts' (drop (List.length cs) m)
  | Bare _ :: ts' => captures ts' (drop 1 m)
  end.

End Re.

(** [t[i]] on a tuple of captured groups. *)
Definition item (m : list string) (i : nat) : string := nth i m "".

Definition LF : ascii := ascii_of_nat 10.
Definition nl : string := String LF "".

(* ================================================================== *)
(** * The world the scripts run in *)
(* ================================================================== *)

Module Sys.

Import Py.

(** What [subprocess.run] hands back, as far as the scripts look at it:
    the exit status and the bytes of the diagnostic stream. *)
Record CompletedProcess : Type := {
  returncode : Z;
  stderr : bytes
}.

(** The files with their bytes, the directories made, the lines printed and
    the command lines started (oldest first).  Calls of the operating system
    are taken to succeed, except that a file opened for reading has to
    exist. *)
Record World : Type := {
  files : string -> option bytes;
  dirs : list string;
  stdout : list string;
  procs : list (list string)
}.

(** How a piece of a script ends: with a value, in [sys.exit(code)], or in
    an exception nobody catches. *)
Inductive outcome (A : Type) : Type :=
| Return (a : A)
| Exit (code : Z)
| Raise (e : exn).
Arguments Return {A} a.
Arguments Exit {A} code.
Arguments Raise {A} e.

Definition M (A : Type) : Type := World -> outcome A * World.

Definition ret {A : Type} (a : A) : M A := fun w => (Return a, w).

Definition bind {A B : Type} (c : M A) (k : A -> M B) : M B :=
  fun w =>
    match c w with
    | (Return a, w') => k a w'
    | (Exit code, w') => (Exit code, w')
    | (Raise e, w') => (Raise e, w')
    end.

Definition lift {A : Type} (r : result A) : M A :=
  fun w => match r with
           | Ok a => (Return a, w)
           | Err e => (Raise e, w)
           end.

Definition sys_exit {A : Type} (code : Z) : M A := fun w => (Exit code, w).

Definition print (line : string) : M unit :=
  fun w => (Return tt,
            {| files := files w; dirs := dirs w;
               stdout := stdout w ++ [line]; procs := procs w |}).

Definition isfile (path : string) : M bool :=
  fun w => (Return (match files w path with Some _ => true | None => false end), w).

Definition makedirs (path : string) : M unit :=
  fun w => (Return tt,
            {| files := files w; dirs := dirs w ++ [path];
               stdout := stdout w; procs := procs w |}).

(** [open(path, 'r', encoding='utf-8').read()]: [FileNotFoundError] without
    the file, [UnicodeDecodeError] on bytes that are not UTF-8. *)
Definition read_file (path : string) : M string :=
  fun w => match files w path with
           | Some content => lift (decode content) w
           | None => (Raise FileNotFoundError, w)
           end.

Definition set_file (path text : string) (w : World) : World :=
  {| files := fun p => if String.eqb p path then Some (Utf8 text) else files w p;
     dirs := dirs w; stdout := stdout w; procs := procs w |}.

(** [open(path, 'w')]: the file is created or emptied. *)
Definition open_w (path : string) : M unit :=
  fun w => (Return tt, set_file path "" w).

(** [f.write(text)] on the file opened at [path]. *)
Definition write (path text : string) : M unit :=
  fun w => (Return tt,
            set_file path
              (match files w path with Some (Utf8 old) => old | _ => "" end +:+ text) w).

(** The exit status the operating system sees. *)
Definition exit_status {A : Type} (o : outcome A) : Z :=
  match o with
  | Return _ => 0
  | Exit code => code
  | Raise _ => 1
  end.

Section Subprocess.

(** The external tool: what it answers to a command line.  Within one run
    the scripts never issue the same command line twice, so a function of
    the command line describes every behaviour the tool can show. *)
Variable tool : list string -> CompletedProcess.

(** [subprocess.run(cmd, stdout=PIPE, stderr=PIPE)] *)
Definition subprocess_run (cmd : list string) : M CompletedProcess :=
  fun w => (Return (tool cmd),
            {| files := files w; dirs := dirs w;
               stdout := stdout w; procs := procs w ++ [cmd] |}).

End Subprocess.

End Sys.

Notation "x <- c ;; k" := (Sys.bind c (fun x => k))
  (at level 61, c at next level, right associativity).
Notation "c ;;; k" := (Sys.bind c (fun _ => k))
  (at level 61, right associativity).
Notation "x <~ r ;; k" := (Py.rbind r (fun x => k))
  (at level 61, r at next level, right associativity).

(** The trim command both scripts build for one segment. *)
Definition trim_cmd (input_video start end_ segment_path : string) : list string :=
  ["ffmpeg"; "-y"; "-i"; input_video; "-ss"; start; "-to"; end_;
   "-c"; "copy"; segment_path].

(* ================================================================== *)
(** * extract_segments_with_edl.py *)
(* ================================================================== *)

Module EDL.

Import Re Py Sys.

(** [(\d{2}):(\d{2}):(\d{2}),(\d{3})\s-->\s(\d{2}):(\d{2}):(\d{2}),(\d{3})] *)
Definition pattern : list token :=
  [ Grp [D; D]; Bare (C ":"); Grp [D; D]; Bare (C ":"); Grp [D; D];
    Bare (C ","); Grp [D; D; D];
    Bare W; Bare (C "-"); Bare (C "-"); Bare (C ">"); Bare W;
    Grp [D; D]; Bare (C ":"); Grp [D; D]; Bare (C ":"); Grp [D; D];
    Bare (C ","); Grp [D; D; D] ].

(** Lines 15-29 of [parse_srt], on the text read from the file. *)
Definition parse_srt_content (content : string) : list (string * string) :=
  let matches := findall pattern content in
  let matches :=
    match matches with
    | m0 :: rest =>
        if forallb (fun part => String.eqb part "00") (firstn 2 m0)
        then rest else matches
    | [] => matches
    end in
  map (fun m =>
         (item m 0 +:+ ":" +:+ item m 1 +:+ ":" +:+ item m 2 +:+ "." +:+ item m 3,
          item m 4 +:+ ":" +:+ item m 5 +:+ ":" +:+ item m 6 +:+ "." +:+ item m 7))
      matches.

Definition parse_srt (srt_path : string) : M (list (string * string)) :=
  content <- read_file srt_path ;;
  ret (parse_srt_content content).

(** The dictionary [extract_segments] builds for a segment. *)
Record Segment : Type := {
  filename : string;
  start : string;
  end_ : string
}.

(** [format_time_for_edl]; the literal [30] enters the product as a float. *)
Definition f30 : float := binary_normalize 53 1024 30 0 false.

Definition format_time_for_edl (time_str : string) : result string :=
  let parts := split ":" time_str in
  hours <~ int (item parts 0) ;;
  p1 <~ match nth_error parts 1 with Some p => Ok p | None => Err IndexError end ;;
  minutes <~ int p1 ;;
  p2 <~ match nth_error parts 2 with Some p => Ok p | None => Err IndexError end ;;
  sm <~ match split "." p2 with
        | [seconds; millis] => Ok (seconds, millis)
        | _ => Err ValueError
        end ;;
  seconds <~ int (fst sm) ;;
  millis <~ int (snd sm) ;;
  fmillis <~ float_of_int millis ;;
  whole <~ float_of_int (hours * 3600 + minutes * 60 + seconds) ;;
  let total_seconds := fadd whole (fdiv fmillis f1000) in
  frames <~ int_of_float (fmul (fdiv fmillis f1000) f30) ;;
  Ok (format_0 2 hours +:+ ":" +:+ format_0 2 minutes +:+ ":" +:+
      format_0 2 seconds +:+ ":" +:+ format_0 2 frames).

Section Run.

Variable tool : list string -> CompletedProcess.

(** The loop of [extract_segments] from ordinal [idx] on, with the segments
    collected so far. *)
Fixpoint extract_loop (input_video segments_dir : string) (idx : Z)
    (time_ranges : list (string * string)) (segments : list Segment)
    : M (list Segment) :=
  match time_ranges with
  | [] => ret segments
  | (start, end_) :: rest =>
      let segment_filename := "segment_" +:+ format_0 3 idx +:+ ".mov" in
      let segment_path := path_join segments_dir segment_filename in
      print ("Extracting Segment " +:+ str idx +:+ ": " +:+ start +:+ " to " +:+ end_) ;;;
      result <- subprocess_run tool (trim_cmd input_video start end_ segment_path) ;;
      (if negb (returncode result =? 0) then
         diagnostic <- lift (decode (stderr result)) ;;
         print ("Error extracting segment " +:+ str idx +:+ ": " +:+ diagnostic) ;;;
         sys_exit 1
       else ret tt) ;;;
      extract_loop input_video segments_dir (idx + 1) rest
        (segments ++ [ {| filename := segment_filename; start := start; end_ := end_ |} ])
  end.

Definition extract_segments (input_video : string)
    (time_ranges : list (string * string)) (segments_dir : string)
    : M (list Segment) :=
  makedirs segments_dir ;;;
  extract_loop input_video segments_dir 1 time_ranges [].

(** The loop of [generate_edl] from ordinal [idx] on. *)
Fixpoint edl_loop (edl_path : string) (idx : Z) (segments : list Segment) : M unit :=
  match segments with
  | [] => ret tt
  | segment :: rest =>
      t1 <- lift (format_time_for_edl (start segment)) ;;
      t2 <- lift (format_time_for_edl (end_ segment)) ;;
      t3 <- lift (format_time_for_edl (start segment)) ;;
      t4 <- lift (format_time_for_edl (end_ segment)) ;;
      let event := format_0 3 idx +:+ "  AX       V     C        " +:+
                   t1 +:+ " " +:+ t2 +:+ " " +:+ t3 +:+ " " +:+ t4 +:+ nl in
      write edl_path event ;;;
      edl_loop edl_path (idx + 1) rest
  end.

Definition generate_edl (segments : list Segment) (edl_path original_video : string)
    : M unit :=
  open_w edl_path ;;;
  write edl_path ("TITLE: Extracted Segments EDL" +:+ nl) ;;;
  write edl_path ("FCM: NON-DROP FRAME" +:+ nl +:+ nl) ;;;
  edl_loop edl_path 1 segments ;;;
  print ("EDL file created at " +:+ edl_path).

Definition main : M unit :=
  let input_video := "IMG_0106.mov" in
  let srt_file := "90 days in Japan without a plan.srt" in
  let segments_dir := "segments" in
  let edl_file := "segments.edl" in
  let final_video := "final_video.mov" in
  video_there <- isfile input_video ;;
  (if negb video_there then
     print ("Input video file '" +:+ input_video +:+ "' not found.") ;;;
     sys_exit 1
   else ret tt) ;;;
  srt_there <- isfile srt_file ;;
  (if negb srt_there then
     print ("SRT file '" +:+ srt_file +:+ "' not found.") ;;;
     sys_exit 1
   else ret tt) ;;;
  print "Parsing SRT file..." ;;;
  time_ranges <- parse_srt srt_file ;;
  print ("Found " +:+ str (Z.of_nat (List.length time_ranges)) +:+ " segments to extract.") ;;;
  (match time_ranges with
   | [] => print "No valid time ranges found in the SRT file." ;;; sys_exit 1
   | _ :: _ => ret tt
   end) ;;;
  segments <- extract_segments input_video time_ranges segments_dir ;;
  print ("Extracted " +:+ str (Z.of_nat (List.length segments)) +:+ " segments successfully.") ;;;
  print ("All segments are saved in the '" +:+ segments_dir +:+ "' directory.") ;;;
  generate_edl segments edl_file input_video ;;;
  print "All tasks completed successfully!" ;;;
  print "You can now import both the extracted segments and the original video into your editing software." ;;;
  print "Use the EDL file to map the segments to their original positions if your software supports EDL imports.".

End Run.

End EDL.

(* ================================================================== *)
(** * process_video.py *)
(* ================================================================== *)

Module PV.

Import Re Py Sys.

(** [(\d{2}:\d{2}:\d{2}),(\d{3})\s-->\s(\d{2}:\d{2}:\d{2}),(\d{3})] *)
Definition pattern : list token :=
  [ Grp [D; D; C ":"; D; D; C ":"; D; D]; Bare (C ","); Grp [D; D; D];
    Bare W; Bare (C "-"); Bare (C "-"); Bare (C ">"); Bare W;
    Grp [D; D; C ":"; D; D; C ":"; D; D]; Bare (C ","); Grp [D; D; D] ].

(** Lines 14-28 of [parse_srt], on the text read from the file. *)
Definition parse_srt_content (content : string) : list (string * string) :=
  let matches := findall pattern content in
  let matches :=
    match matches with
    | m0 :: rest =>
        if String.eqb (item m0 0) "00" && String.eqb (item m0 1) "000"
        then rest else matches
    | [] => matches
    end in
  map (fun m => (item m 0 +:+ "." +:+ item m 1, item m 2 +:+ "." +:+ item m 3))
      matches.

Definition parse_srt (srt_path : string) : M (list (string * string)) :=
  content <- read_file srt_path ;;
  ret (parse_srt_content content).

Section Run.

Variable tool : list string -> CompletedProcess.

(** The loop of [extract_segments] from ordinal [idx] on, with the paths
    collected so far. *)
Fixpoint extract_loop (input_video segments_dir : string) (idx : Z)
    (time_ranges : list (string * string)) (segments : list string)
    : M (list string) :=
  match time_ranges with
  | [] => ret segments
  | (start, end_) :: rest =>
      let segment_filename := "segment_" +:+ format_0 3 idx +:+ ".mov" in
      let segment_path := path_join segments_dir segment_filename in
      print ("Extracting Segment " +:+ str idx +:+ ": " +:+ start +:+ " to " +:+ end_) ;;;
      result <- subprocess_run tool (trim_cmd input_video start end_ segment_path) ;;
      (if negb (returncode result =? 0) then
         diagnostic <- lift (decode (stderr result)) ;;
         print ("Error extracting segment " +:+ str idx +:+ ": " +:+ diagnostic) ;;;
         sys_exit 1
       else ret tt) ;;;
      extract_loop input_video segments_dir (idx + 1) rest (segments ++ [segment_path])
  end.

Definition extract_segments (input_video : string)
    (time_ranges : list (string * string)) (segments_dir : string)
    : M (list string) :=
  makedirs segments_dir ;;;
  extract_loop input_video segments_dir 1 time_ranges [].

(** The replacement text ['\''] of [create_concat_list]. *)
Definition escaped_quote : string := "'\''".

Fixpoint concat_loop (concat_list_path : string) (segments : list string) : M unit :=
  match segments with
  | [] => ret tt
  | segment :: rest =>
      let escaped_path := replace "'" escaped_quote segment in
      write concat_list_path ("file '" +:+ escaped_path +:+ "'" +:+ nl) ;;;
      concat_loop concat_list_path rest
  end.

Definition create_concat_list (segments : list string) (concat_list_path : string)
    : M unit :=
  open_w concat_list_path ;;;
  concat_loop concat_list_path segments ;;;
  print ("Created concatenation list at " +:+ concat_list_path).

Definition concatenate_segments (concat_list_path final_video : string) : M unit :=
  print "Concatenating segments into final video..." ;;;
  result <- subprocess_run tool
              ["ffmpeg"; "-y"; "-f"; "concat"; "-safe"; "0";
               "-i"; concat_list_path; "-c"; "copy"; final_video] ;;
  (if negb (returncode result =? 0) then
     diagnostic <- lift (decode (stderr result)) ;;
     print ("Error concatenating segments: " +:+ diagnostic) ;;;
     sys_exit 1
   else ret tt) ;;;
  print ("Final video created: " +:+ final_video).

Definition main : M unit :=
  let input_video := "IMG_0106.mov" in
  let srt_file := "90 days in Japan without a plan.srt" in
  let segments_dir := "segments" in
  let concat_list := "concat_list.txt" in
  let final_video := "final_video.mov" in
  video_there <- isfile input_video ;;
  (if negb video_there then
     print ("Input video file '" +:+ input_video +:+ "' not found.") ;;;
     sys_exit 1
   else ret tt) ;;;
  srt_there <- isfile srt_file ;;
  (if negb srt_there then
     print ("SRT file '" +:+ srt_file +:+ "' not found.") ;;;
     sys_exit 1
   else ret tt) ;;;
  print "Parsing SRT file..." ;;;
  time_ranges <- parse_srt srt_file ;;
  print ("Found " +:+ str (Z.of_nat (List.length time_ranges)) +:+ " segments to extract.") ;;;
  (match time_ranges with
   | [] => print "No valid time ranges found in the SRT file." ;;; sys_exit 1
   | _ :: _ => ret tt
   end) ;;;
  segments <- extract_segments input_video time_ranges segments_dir ;;
  print ("Extracted " +:+ str (Z.of_nat (List.length segments)) +:+ " segments.") ;;;
  create_concat_list segments concat_list ;;;
  concatenate_segments concat_list final_video ;;;
  print "All tasks completed successfully!".

End Run.

End PV.

(* ================================================================== *)
(** * Vocabulary of the specification *)
(* ================================================================== *)

Module Srt.

Import Py.

Fixpoint all_digits (s : string) : bool :=
  match s with
  | EmptyString => true
  | String c s' => is_digit c && all_digits s'
  end.

(** A field of exactly [n] decimal digits. *)
Definition digits (n : nat) (s : string) : bool :=
  (length s =? n)%nat && all_digits s.

(** Every field of [n] digits. *)
Definition digit_chars : list ascii :=
  ["0"; "1"; "2"; "3"; "4"; "5"; "6"; "7"; "8"; "9"]%char.

Fixpoint digit_strings (n : nat) : list string :=
  match n with
  | O => [""]
  | S n' => flat_map (fun c => map (String c) (digit_strings n')) digit_chars
  end.

(** The number a digit field denotes. *)
Fixpoint dec_from (acc : Z) (s : string) : Z :=
  match s with
  | EmptyString => acc
  | String c s' => dec_from (10 * acc + digit_val c) s'
  end.

Definition dec (s : string) : Z := dec_from 0 s.

(** What the formatter needs of a two-digit field: [int] reads its number,
    and padding that number to two digits writes the field again. *)
Definition field2_ok (s : string) : bool :=
  match int s with
  | Ok v => (v =? dec s) && (0 <=? v) && (v <? 100) && String.eqb (format_0 2 v) s
  | Err _ => false
  end.

(** What the formatter needs of a three-digit field: [int] reads its number
    [v], and the float product truncates to [v * 30 / 1000]. *)
Definition field3_ok (s : string) : bool :=
  match int s with
  | Ok v =>
      (v =? dec s) && (0 <=? v) && (v <? 1000) &&
      match float_of_int v with
      | Ok fm =>
          match int_of_float (fmul (fdiv fm f1000) EDL.f30) with
          | Ok f => f =? v * 30 / 1000
          | Err _ => false
          end
      | Err _ => false
      end
  | Err _ => false
  end.

(** What the formatter makes of a four-digit millisecond field: [int] reads
    its number [v], and the float product truncates to [v * 30 / 1000],
    except at 4100 and 8200, where it falls just short of the whole number
    and truncates to one less. *)
Definition field4_ok (s : string) : bool :=
  match int s with
  | Ok v =>
      (v =? dec s) && (0 <=? v) && (v <? 10000) &&
      match float_of_int v with
      | Ok fm =>
          match int_of_float (fmul (fdiv fm f1000) EDL.f30) with
          | Ok f =>
              f =? (if (v =? 4100) || (v =? 8200) then v * 30 / 1000 - 1
                    else v * 30 / 1000)
          | Err _ => false
          end
      | Err _ => false
      end
  | Err _ => false
  end.

(** The separator does not occur in the text. *)
Fixpoint nosep (sep : ascii) (s : string) : bool :=
  match s with
  | EmptyString => true
  | String c s' => negb (Ascii.eqb c sep) && nosep sep s'
  end.

(** A timestamp as it is written: hours, minutes, seconds, milliseconds. *)
Record Stamp : Type := {
  hh : string;
  mm : string;
  ss : string;
  ms : string
}.

Definition stamp_ok (t : Stamp) : bool :=
  digits 2 (hh t) && digits 2 (mm t) && digits 2 (ss t) && digits 3 (ms t).

(** [HH:MM:SS<sep>mmm]: the separator is a comma in a subtitle file and a
    dot in the time ranges the parser hands on. *)
Definition stamp_text (sep : string) (t : Stamp) : string :=
  hh t +:+ ":" +:+ mm t +:+ ":" +:+ ss t +:+ sep +:+ ms t.

(** Milliseconds since [00:00:00,000]. *)
Definition stamp_millis (t : Stamp) : Z :=
  ((dec (hh t) * 60 + dec (mm t)) * 60 + dec (ss t)) * 1000 + dec (ms t).

(** A timed entry, [start --> end], with the two blanks around the arrow. *)
Record Cue : Type := {
  cue_start : Stamp;
  sp1 : ascii;
  sp2 : ascii;
  cue_end : Stamp
}.

Definition cue_ok (c : Cue) : bool :=
  stamp_ok (cue_start c) && is_space (sp1 c) && is_space (sp2 c)
  && stamp_ok (cue_end c).

Definition cue_text (c : Cue) : string :=
  stamp_text "," (cue_start c) +:+ String (sp1 c) "-->" +:+
  String (sp2 c) (stamp_text "," (cue_end c)).

(** The time range a timed entry stands for. *)
Definition range_of (c : Cue) : string * string :=
  (stamp_text "." (cue_start c), stamp_text "." (cue_end c)).

(** The groups of the two patterns on a timestamp pair. *)
Definition groups8 (c : Cue) : list string :=
  [hh (cue_start c); mm (cue_start c); ss (cue_start c); ms (cue_start c);
   hh (cue_end c); mm (cue_end c); ss (cue_end c); ms (cue_end c)].

Definition groups4 (c : Cue) : list string :=
  [hh (cue_start c) +:+ ":" +:+ mm (cue_start c) +:+ ":" +:+ ss (cue_start c);
   ms (cue_start c);
   hh (cue_end c) +:+ ":" +:+ mm (cue_end c) +:+ ":" +:+ ss (cue_end c);
   ms (cue_end c)].

(** What the first script takes for a placeholder: an entry that starts in
    the first minute of the first hour. *)
Definition first_minute (c : Cue) : bool :=
  String.eqb (hh (cue_start c)) "00" && String.eqb (mm (cue_start c)) "00".

(** The same test on the text of a time: it begins [00:00:]. *)
Definition in_first_minute (t : string) : bool :=
  String.eqb (Re.take 6 t) "00:00:".

(** The placeholder of the specification, [00:00:00,000]. *)
Definition zero_start (c : Cue) : bool :=
  first_minute c && String.eqb (ss (cue_start c)) "00"
  && String.eqb (ms (cue_start c)) "000".

(** The entry occurs somewhere in the text. *)
Definition occurs (c : Cue) (content : string) : Prop :=
  exists pre post, content = pre +:+ cue_text c +:+ post.

(** The classes of a timestamp pair, one per character. *)
Definition cue_classes : list Re.cls :=
  let stamp := [Re.D; Re.D; Re.C ":"; Re.D; Re.D; Re.C ":"; Re.D; Re.D;
                Re.C ","; Re.D; Re.D; Re.D] in
  stamp ++ [Re.W; Re.C "-"; Re.C "-"; Re.C ">"; Re.W] ++ stamp.

(** A timestamp pair begins at some position of the text. *)
Fixpoint has_entry (s : string) : bool :=
  match s with
  | EmptyString => false
  | String _ s' =>
      Re.fits cue_classes (Re.take (List.length cue_classes) s) || has_entry s'
  end.

(** [s] agrees with the classes as far as it goes. *)
Fixpoint compat (cs : list Re.cls) (s : string) : bool :=
  match s, cs with
  | String c s', k :: cs' => Re.cls_match k c && compat cs' s'
  | _, _ => true
  end.

(** No character of [g] can begin a timestamp pair, whatever follows [g]. *)
Fixpoint quiet (g : string) : bool :=
  match g with
  | EmptyString => true
  | String _ g' => negb (compat cue_classes g) && quiet g'
  end.

(** Well-formed subtitle text: timed entries, each after some text that
    begins no entry, and a last stretch of such text. *)
Fixpoint render (entries : list (string * Cue)) (tail : string) : string :=
  match entries with
  | [] => tail
  | (gap, c) :: rest => gap +:+ cue_text c +:+ render rest tail
  end.

Definition well_formed (entries : list (string * Cue)) (tail : string) : bool :=
  forallb (fun e => quiet (fst e) && cue_ok (snd e)) entries && quiet tail.

(** The text the parser hands on for the timestamp [h:m:s,f]. *)
Definition timestamp (h m s f : Z) : string :=
  format_0 2 h +:+ ":" +:+ format_0 2 m +:+ ":" +:+ format_0 2 s +:+ "." +:+
  format_0 3 f.

(** [p] holds of the [n] integers from 0 on. *)
Fixpoint below (n : nat) (p : Z -> bool) : bool :=
  match n with
  | O => true
  | S k => p (Z.of_nat k) && below k p
  end.

(** Padding a number to [n] digits writes a field that denotes it. *)
Definition pad_ok (n : nat) (v : Z) : bool :=
  digits n (format_0 n v) && (dec (format_0 n v) =? v).

(** The time a range end denotes, read the way [format_time_for_edl] reads
    it: milliseconds since midnight. *)
Definition time_value (t : string) : option Z :=
  match split ":" t with
  | [h; m; rest] =>
      match split "." rest with
      | [s; f] =>
          match int h, int m, int s, int f with
          | Ok h', Ok m', Ok s', Ok f' => Some (((h' * 60 + m') * 60 + s') * 1000 + f')
          | _, _, _, _ => None
          end
      | _ => None
      end
  | _ => None
  end.

(** The invariant [start < end] of a time range. *)
Definition starts_before_end (r : string * string) : Prop :=
  match time_value (fst r), time_value (snd r) with
  | Some a, Some b => a < b
  | _, _ => False
  end.

(** The ordinal written with at least three digits, zeros in front. *)
Definition zero_pad3 (n : Z) : string :=
  let d := str n in
  repeat_char "0" (3 - length d) +:+ d.

(** The name of the segment with the given ordinal. *)
Definition segment_name (i : Z) : string := "segment_" +:+ zero_pad3 i +:+ ".mov".

(** The trim the scripts ask for, for the range with ordinal [idx]. *)
Definition trim_of (input_video segments_dir : string) (idx : Z)
    (r : string * string) : list string :=
  trim_cmd input_video (fst r) (snd r)
    (path_join segments_dir ("segment_" +:+ format_0 3 idx +:+ ".mov")).

Fixpoint trims (input_video segments_dir : string) (idx : Z)
    (ranges : list (string * string)) : list (list string) :=
  match ranges with
  | [] => []
  | r :: rest =>
      trim_of input_video segments_dir idx r ::
      trims input_video segments_dir (idx + 1) rest
  end.

(** The progress lines printed for ranges with ordinals from [idx] on. *)
Fixpoint trim_lines (idx : Z) (ranges : list (string * string)) : list string :=
  match ranges with
  | [] => []
  | r :: rest =>
      ("Extracting Segment " +:+ str idx +:+ ": " +:+ fst r +:+ " to " +:+ snd r)
      :: trim_lines (idx + 1) rest
  end.

(** The world after the trims of [ranges], ordinals from [idx] on. *)
Definition after_trims (input_video segments_dir : string) (idx : Z)
    (ranges : list (string * string)) (w : Sys.World) : Sys.World :=
  {| Sys.files := Sys.files w; Sys.dirs := Sys.dirs w;
     Sys.stdout := Sys.stdout w ++ trim_lines idx ranges;
     Sys.procs := Sys.procs w ++ trims input_video segments_dir idx ranges |}.

(** The world once the output directory is there. *)
Definition with_dir (segments_dir : string) (w : Sys.World) : Sys.World :=
  {| Sys.files := Sys.files w; Sys.dirs := Sys.dirs w ++ [segments_dir];
     Sys.stdout := Sys.stdout w; Sys.procs := Sys.procs w |}.

(** [w'] differs from [w] in the text of the file at [path] only. *)
Definition only_file_changed (path : string) (w w' : Sys.World) : Prop :=
  (forall p, p <> path -> Sys.files w' p = Sys.files w p) /\
  Sys.dirs w' = Sys.dirs w /\ Sys.stdout w' = Sys.stdout w /\
  Sys.procs w' = Sys.procs w.

(** What the branch for a failed command prints: the error line, when the
    diagnostic bytes decode; when they do not, nothing. *)
Definition error_lines (line : string -> string) (result : Sys.CompletedProcess)
    : list string :=
  match decode (Sys.stderr result) with
  | Ok diagnostic => [line diagnostic]
  | Err _ => []
  end.

(** How that branch ends: in [sys.exit(1)], or in the decoder's exception. *)
Definition failure_end {A : Type} (result : Sys.CompletedProcess) : Sys.outcome A :=
  match decode (Sys.stderr result) with
  | Ok _ => Sys.Exit 1
  | Err e => Sys.Raise e
  end.

(** The world after the trims of [pre] succeeded and the trim of [r], the
    next range, failed. *)
Definition after_failed (tool : list string -> Sys.CompletedProcess)
    (input_video segments_dir : string) (pre : list (string * string))
    (r : string * string) (w : Sys.World) : Sys.World :=
  let i := 1 + Z.of_nat (List.length pre) in
  {| Sys.files := Sys.files w; Sys.dirs := Sys.dirs w ++ [segments_dir];
     Sys.stdout :=
       ((Sys.stdout w ++ trim_lines 1 pre) ++
        ["Extracting Segment " +:+ str i +:+ ": " +:+ fst r +:+ " to " +:+ snd r]) ++
       error_lines
         (fun diagnostic => "Error extracting segment " +:+ str i +:+ ": " +:+ diagnostic)
         (tool (trim_of input_video segments_dir i r));
     Sys.procs := (Sys.procs w ++ trims input_video segments_dir 1 pre) ++
                  [trim_of input_video segments_dir i r] |}.

(** The world after one more line was printed. *)
Definition printed (lines : list string) (w : Sys.World) : Sys.World :=
  {| Sys.files := Sys.files w; Sys.dirs := Sys.dirs w;
     Sys.stdout := Sys.stdout w ++ lines; Sys.procs := Sys.procs w |}.

(** The world after one more process was started. *)
Definition started (cmd : list string) (w : Sys.World) : Sys.World :=
  {| Sys.files := Sys.files w; Sys.dirs := Sys.dirs w;
     Sys.stdout := Sys.stdout w; Sys.procs := Sys.procs w ++ [cmd] |}.

(** The command [concatenate_segments] builds. *)
Definition concat_cmd (concat_list_path final_video : string) : list string :=
  ["ffmpeg"; "-y"; "-f"; "concat"; "-safe"; "0"; "-i"; concat_list_path;
   "-c"; "copy"; final_video].

(** What [main] prints before it extracts. *)
Definition greeting (n : nat) : list string :=
  ["Parsing SRT file...";
   "Found " +:+ str (Z.of_nat n) +:+ " segments to extract."].

(** The file a trim command writes: its last word. *)
Definition output_of (cmd : list string) : string := nth 10 cmd "".

(** The tool reports success for each of the commands. *)
Definition all_succeed (tool : list string -> Sys.CompletedProcess)
    (cmds : list (list string)) : bool :=
  forallb (fun cmd => Sys.returncode (tool cmd) =? 0) cmds.

(** The segments of the first script for ranges with ordinals from [idx] on. *)
Fixpoint edl_segments (idx : Z) (ranges : list (string * string)) : list EDL.Segment :=
  match ranges with
  | [] => []
  | r :: rest =>
      {| EDL.filename := "segment_" +:+ format_0 3 idx +:+ ".mov";
         EDL.start := fst r; EDL.end_ := snd r |}
      :: edl_segments (idx + 1) rest
  end.

(** The segment paths of the second script, likewise. *)
Fixpoint pv_paths (segments_dir : string) (idx : Z) (ranges : list (string * string))
    : list string :=
  match ranges with
  | [] => []
  | _ :: rest =>
      path_join segments_dir ("segment_" +:+ format_0 3 idx +:+ ".mov")
      :: pv_paths segments_dir (idx + 1) rest
  end.

(** The text a time range end has when it comes from the parser:
    [HH:MM:SS.mmm]. *)
Definition time_classes : list Re.cls :=
  [Re.D; Re.D; Re.C ":"; Re.D; Re.D; Re.C ":"; Re.D; Re.D; Re.C "."; Re.D; Re.D; Re.D].

Definition is_time (t : string) : bool := Re.fits time_classes t.

Definition timed (segment : EDL.Segment) : bool :=
  is_time (EDL.start segment) && is_time (EDL.end_ segment).

(** Every end of every range is a time as the parser writes it. *)
Definition all_times (ranges : list (string * string)) : bool :=
  forallb (fun r => is_time (fst r) && is_time (snd r)) ranges.

(** An event of the edit decision list, field by field. *)
Record Event : Type := {
  record_number : string;
  reel : string;
  track : string;
  edit : string;
  source_in : string;
  source_out : string;
  record_in : string;
  record_out : string
}.

(** The fixed-column line of an event. *)
Definition event_line (e : Event) : string :=
  record_number e +:+ "  " +:+ reel e +:+ "       " +:+ track e +:+ "     " +:+
  edit e +:+ "        " +:+ source_in e +:+ " " +:+ source_out e +:+ " " +:+
  record_in e +:+ " " +:+ record_out e +:+ nl.

(** An event line without the line feed that ends it. *)
Definition event_body (e : Event) : string :=
  record_number e +:+ "  " +:+ reel e +:+ "       " +:+ track e +:+ "     " +:+
  edit e +:+ "        " +:+ source_in e +:+ " " +:+ source_out e +:+ " " +:+
  record_in e +:+ " " +:+ record_out e.

(** The timecode of a time range end, empty when the formatter raises. *)
Definition timecode (t : string) : string :=
  match EDL.format_time_for_edl t with
  | Ok tc => tc
  | Err _ => ""
  end.

(** The event of the segment with ordinal [idx]: the record side repeats the
    source side. *)
Definition event_of (idx : Z) (segment : EDL.Segment) : Event :=
  {| record_number := zero_pad3 idx; reel := "AX"; track := "V"; edit := "C";
     source_in := timecode (EDL.start segment);
     source_out := timecode (EDL.end_ segment);
     record_in := timecode (EDL.start segment);
     record_out := timecode (EDL.end_ segment) |}.

Fixpoint events (idx : Z) (segments : list EDL.Segment) : list Event :=
  match segments with
  | [] => []
  | segment :: rest => event_of idx segment :: events (idx + 1) rest
  end.

(** The texts one after the other. *)
Fixpoint join (texts : list string) : string :=
  match texts with
  | [] => ""
  | t :: rest => t +:+ join rest
  end.

(** The two header lines of the list and the empty line after them. *)
Definition edl_header : string :=
  "TITLE: Extracted Segments EDL" +:+ nl +:+ "FCM: NON-DROP FRAME" +:+ nl +:+ nl.

(** A path between single quotes, its own single quotes escaped. *)
Definition quoted (path : string) : string :=
  "'" +:+ replace "'" PV.escaped_quote path +:+ "'".

(** The manifest line of a path. *)
Definition manifest_line (path : string) : string :=
  "file " +:+ quoted path +:+ nl.

(** How a quoted manifest token is read back: between single quotes every
    character stands for itself; outside them a backslash protects the next
    character. *)
Fixpoint unquote (quoted : bool) (s : string) : string :=
  match s with
  | EmptyString => ""
  | String c s' =>
      if quoted then
        if Ascii.eqb c "'" then unquote false s' else String c (unquote true s')
      else if Ascii.eqb c "'" then unquote true s'
      else if Ascii.eqb c "\" then
        match s' with
        | String d s'' => String d (unquote false s'')
        | EmptyString => ""
        end
      else String c (unquote false s')
  end.

End Srt.

(* ================================================================== *)
(** * Sample inputs *)
(* ================================================================== *)

Module Sample.

Import Srt.

Definition stamp (h m s f : string) : Stamp :=
  {| hh := h; mm := m; ss := s; ms := f |}.

Definition cue (a b : Stamp) : Cue :=
  {| cue_start := a; sp1 := " "; sp2 := " "; cue_end := b |}.

(** The scenario of the specification: a placeholder and two entries. *)
Definition scenario : list (string * Cue) :=
  [ ("1" +:+ nl,
     cue (stamp "00" "00" "00" "000") (stamp "00" "00" "05" "000"));
    (nl +:+ "intro" +:+ nl +:+ nl +:+ "2" +:+ nl,
     cue (stamp "00" "00" "10" "000") (stamp "00" "00" "20" "000"));
    (nl +:+ "first take" +:+ nl +:+ nl +:+ "3" +:+ nl,
     cue (stamp "00" "01" "00" "000") (stamp "00" "01" "15" "500")) ].

Definition scenario_tail : string := nl +:+ "second take" +:+ nl.

(** Two entries, the first of which starts five seconds in. *)
Definition late_start : list (string * Cue) :=
  [ ("1" +:+ nl,
     cue (stamp "00" "00" "05" "000") (stamp "00" "00" "07" "000"));
    (nl +:+ "hello" +:+ nl +:+ nl +:+ "2" +:+ nl,
     cue (stamp "00" "00" "10" "000") (stamp "00" "00" "20" "000")) ].

(** Two entries, the first of which starts after the first minute. *)
Definition plain : list (string * Cue) :=
  [ ("1" +:+ nl,
     cue (stamp "00" "01" "00" "000") (stamp "00" "01" "15" "500"));
    (nl +:+ "hello" +:+ nl +:+ nl +:+ "2" +:+ nl,
     cue (stamp "00" "02" "10" "000") (stamp "00" "02" "20" "000")) ].

(** One entry, the placeholder alone. *)
Definition placeholder_only : list (string * Cue) :=
  [ ("1" +:+ nl,
     cue (stamp "00" "00" "00" "000") (stamp "00" "00" "05" "000")) ].

(** Text with times in it, none of them a timestamp pair. *)
Definition untimed : string :=
  "1" +:+ nl +:+ "00:00:10 -> 00:00:20" +:+ nl +:+ "hello" +:+ nl.

(** Both input files: the video, which is no text, and the subtitle file with
    the given text. *)
Definition world_with (content : string) : Sys.World :=
  {| Sys.files := fun p =>
       if String.eqb p "IMG_0106.mov" then Some Py.Malformed
       else if String.eqb p "90 days in Japan without a plan.srt"
       then Some (Py.Utf8 content)
       else None;
     Sys.dirs := []; Sys.stdout := []; Sys.procs := [] |}.

(** A tool that always succeeds, and one that fails on the second segment. *)
Definition obliging : list string -> Sys.CompletedProcess :=
  fun _ => {| Sys.returncode := 0; Sys.stderr := Py.Utf8 "" |}.

Definition failing_second : list string -> Sys.CompletedProcess :=
  fun cmd =>
    if String.eqb (nth 10 cmd "") "segments/segment_002.mov"
    then {| Sys.returncode := 1; Sys.stderr := Py.Utf8 "moov atom not found" |}
    else {| Sys.returncode := 0; Sys.stderr := Py.Utf8 "" |}.

Definition three_ranges : list (string * string) :=
  [("00:00:10.000", "00:00:20.000"); ("00:01:00.000", "00:01:15.500");
   ("00:02:00.000", "00:02:30.250")].

Definition empty_world : Sys.World :=
  {| Sys.files := fun _ => None; Sys.dirs := []; Sys.stdout := []; Sys.procs := [] |}.

Definition two_segments : list EDL.Segment :=
  [ {| EDL.filename := "segment_001.mov";
       EDL.start := "00:00:10.000"; EDL.end_ := "00:00:20.000" |};
    {| EDL.filename := "segment_002.mov";
       EDL.start := "00:01:00.000"; EDL.end_ := "00:01:15.500" |} ].

(** A path with a single quote in it, and a plain one. *)
Definition quoted_paths : list string :=
  ["segments/it's.mov"; "segments/segment_002.mov"].

Definition plain_paths : list string :=
  ["segments/segment_001.mov"; "segments/segment_002.mov"].

(** A tool that trims well and fails to concatenate. *)
Definition failing_concat : list string -> Sys.CompletedProcess :=
  fun cmd =>
    if String.eqb (nth 3 cmd "") "concat"
    then {| Sys.returncode := 1; Sys.stderr := Py.Utf8 "Invalid data found" |}
    else {| Sys.returncode := 0; Sys.stderr := Py.Utf8 "" |}.


(** A path with a line feed in it. *)
Definition broken_path : string := "seg" +:+ nl +:+ "ment.mov".

(** A world with neither input file. *)
Definition bare_world : Sys.World :=
  {| Sys.files := fun _ => None; Sys.dirs := []; Sys.stdout := []; Sys.procs := [] |}.

(** A world with the video and no subtitle file. *)
Definition video_only_world : Sys.World :=
  {| Sys.files := fun p => if String.eqb p "IMG_0106.mov" then Some Py.Malformed else None;
     Sys.dirs := []; Sys.stdout := []; Sys.procs := [] |}.

(** An entry that ends before it starts. *)
Definition backwards : string := "00:01:05,000 --> 00:01:02,000".

End Sample.

(* ================================================================== *)
(** * Strings *)
(* ================================================================== *)

Lemma sapp_assoc (a b c : string) : (a +:+ b) +:+ c = a +:+ b +:+ c.
Proof. induction a as [|x a IH]; simpl; [reflexivity | now rewrite IH]. Qed.

Lemma sapp_nil_r (a : string) : a +:+ "" = a.
Proof. induction a as [|x a IH]; simpl; [reflexivity | now rewrite IH]. Qed.

Lemma slength_app (a b : string) : length (a +:+ b) = (length a + length b)%nat.
Proof. induction a as [|x a IH]; simpl; [reflexivity | now rewrite IH]. Qed.

Lemma sapp_inv_len (a b c d : string) :
  length a = length c -> a +:+ b = c +:+ d -> a = c /\ b = d.
Proof.
  revert c; induction a as [|x a IH]; intros [|y c] Hl H; simpl in *;
    try discriminate; [now split|].
  injection H as -> H. injection Hl as Hl.
  destruct (IH c Hl H) as [-> ->]. now split.
Qed.

(* ================================================================== *)
(** * Digit fields *)
(* ================================================================== *)

Section DigitFields.

Import Py Srt.

Lemma is_digit_In (c : ascii) : is_digit c = true -> In c digit_chars.
Proof.
  destruct c as [[] [] [] [] [] [] [] []]; vm_compute; intros H;
    try discriminate; tauto.
Qed.

Lemma digits_In (n : nat) (s : string) :
  digits n s = true -> In s (digit_strings n).
Proof.
  unfold digits. revert s; induction n as [|n IH]; intros [|c s] H;
    apply andb_prop in H as [Hl Hd]; simpl in Hl; try discriminate.
  - now left.
  - simpl in Hd. apply andb_prop in Hd as [Hc Hd].
    cbn [digit_strings]. apply in_flat_map. exists c. split.
    + now apply is_digit_In.
    + apply in_map, IH. now rewrite Hl, Hd.
Qed.

(** A property checked on every field of [n] digits holds of each. *)
Lemma digits_all (n : nat) (p : string -> bool) :
  forallb p (digit_strings n) = true ->
  forall s, digits n s = true -> p s = true.
Proof.
  intros H s Hs. rewrite forallb_forall in H. now apply H, digits_In.
Qed.

End DigitFields.

(* ================================================================== *)
(** * Matching *)
(* ================================================================== *)

Section Matching.

Import Re.

Lemma match_classes_fits (cs : list cls) (m r : string) :
  fits cs m = true -> match_classes cs (m +:+ r) = Some (m, r).
Proof.
  revert m; induction cs as [|k cs IH]; intros [|c m] H; simpl in *;
    try discriminate; [reflexivity|].
  apply andb_prop in H as [Hk H]. now rewrite Hk, (IH m H).
Qed.

Lemma match_classes_inv (cs : list cls) (s m r : string) :
  match_classes cs s = Some (m, r) ->
  s = m +:+ r /\ fits cs m = true /\ length m = List.length cs.
Proof.
  revert s m; induction cs as [|k cs IH]; intros s m H; simpl in H.
  - injection H as <- <-. now repeat split.
  - destruct s as [|c s]; [discriminate|].
    destruct (cls_match k c) eqn:Hk; [|discriminate].
    destruct (match_classes cs s) as [[m' r']|] eqn:E; [|discriminate].
    injection H as <- <-. destruct (IH _ _ E) as (-> & Hf & Hl).
    simpl. now rewrite Hk, Hf, Hl.
Qed.

Lemma fits_app (cs1 cs2 : list cls) (m1 m2 : string) :
  fits cs1 m1 = true -> fits cs2 m2 = true -> fits (cs1 ++ cs2) (m1 +:+ m2) = true.
Proof.
  revert m1; induction cs1 as [|k cs IH]; intros [|c m1] H1 H2; simpl in *;
    try discriminate; [assumption|].
  apply andb_prop in H1 as [Hk H1]. now rewrite Hk, IH.
Qed.

Lemma fits_split (cs1 cs2 : list cls) (m : string) :
  fits (cs1 ++ cs2) m = true ->
  fits cs1 (take (List.length cs1) m) = true /\
  fits cs2 (drop (List.length cs1) m) = true /\
  m = take (List.length cs1) m +:+ drop (List.length cs1) m.
Proof.
  revert m; induction cs1 as [|k cs IH]; intros m H; simpl in *.
  - destruct m; now repeat split.
  - destruct m as [|c m]; [discriminate|].
    apply andb_prop in H as [Hk H]. destruct (IH m H) as (H1 & H2 & H3).
    rewrite Hk, H1. repeat split; [assumption|]. simpl. now rewrite <- H3.
Qed.

Lemma take_app_len (a b : string) : take (length a) (a +:+ b) = a.
Proof. induction a as [|x a IH]; simpl; [now destruct b | now rewrite IH]. Qed.

Lemma drop_app_len (a b : string) : drop (length a) (a +:+ b) = b.
Proof. induction a as [|x a IH]; simpl; [reflexivity | assumption]. Qed.

(** A text the pattern's classes fit is matched, with its groups. *)
Lemma match_tokens_fits (ts : list token) (m r : string) :
  fits (classes ts) m = true ->
  match_tokens ts (m +:+ r) = Some (captures ts m, r).
Proof.
  revert m; induction ts as [|[cs|k] ts IH]; intros m H; simpl in *.
  - destruct m; [reflexivity | discriminate].
  - destruct (fits_split _ _ _ H) as (H1 & H2 & H3).
    rewrite H3 at 1. rewrite sapp_assoc, (match_classes_fits _ _ _ H1).
    now rewrite (IH _ H2).
  - destruct m as [|c m]; [discriminate|].
    apply andb_prop in H as [Hk H]. simpl. rewrite Hk.
    now rewrite (IH _ H).
Qed.

(** Whatever the pattern matches is a text its classes fit. *)
Lemma match_tokens_inv (ts : list token) (s r : string) (gs : list string) :
  match_tokens ts s = Some (gs, r) ->
  exists m, s = m +:+ r /\ fits (classes ts) m = true /\ gs = captures ts m.
Proof.
  revert s gs; induction ts as [|[cs|k] ts IH]; intros s gs H; simpl in H.
  - injection H as <- <-. now exists "".
  - destruct (match_classes cs s) as [[m1 r1]|] eqn:E1; [|discriminate].
    destruct (match_tokens ts r1) as [[gs' r']|] eqn:E2; [|discriminate].
    injection H as <- <-.
    destruct (match_classes_inv _ _ _ _ E1) as (-> & Hf1 & Hl1).
    destruct (IH _ _ E2) as (m2 & -> & Hf2 & ->).
    exists (m1 +:+ m2). rewrite sapp_assoc. split; [reflexivity|]. split.
    + now apply fits_app.
    + simpl. now rewrite <- Hl1, take_app_len, drop_app_len.
  - destruct s as [|c s]; [discriminate|].
    destruct (cls_match k c) eqn:Hk; [|discriminate].
    destruct (IH _ _ H) as (m2 & -> & Hf2 & ->).
    exists (String c m2). simpl. now rewrite Hk, Hf2.
Qed.

Lemma fits_length (cs : list cls) (m : string) :
  fits cs m = true -> length m = List.length cs.
Proof.
  revert m; induction cs as [|k cs IH]; intros [|c m] H; simpl in *;
    try discriminate; [reflexivity|].
  apply andb_prop in H as [_ H]. now rewrite (IH m H).
Qed.

(** ** [findall] *)

Variable ts : list token.
Hypothesis nonempty : classes ts <> [].

Lemma match_shorter (s r : string) (gs : list string) :
  match_tokens ts s = Some (gs, r) -> (length r < length s)%nat.
Proof.
  intros H. destruct (match_tokens_inv _ _ _ _ H) as (m & -> & Hf & _).
  apply fits_length in Hf. rewrite slength_app.
  destruct (classes ts); [congruence|]. simpl in Hf. lia.
Qed.

Lemma findall_from_fuel (fuel1 fuel2 : nat) (s : string) :
  (length s < fuel1)%nat -> (length s < fuel2)%nat ->
  findall_from fuel1 ts s = findall_from fuel2 ts s.
Proof.
  revert fuel2 s.
  induction fuel1 as [|fuel1 IH]; intros [|fuel2] s H1 H2; try lia.
  cbn [findall_from].
  destruct (match_tokens ts s) as [[gs r]|] eqn:E.
  - pose proof (match_shorter _ _ _ E). f_equal. apply IH; lia.
  - destruct s as [|c s]; [reflexivity|]. simpl in H1, H2. apply IH; lia.
Qed.

Lemma findall_match (s r : string) (gs : list string) :
  match_tokens ts s = Some (gs, r) -> findall ts s = gs :: findall ts r.
Proof.
  intros E. unfold findall at 1. cbn [findall_from]. rewrite E. f_equal.
  pose proof (match_shorter _ _ _ E). apply findall_from_fuel; lia.
Qed.

Lemma findall_skip (c : ascii) (s : string) :
  match_tokens ts (String c s) = None -> findall ts (String c s) = findall ts s.
Proof.
  intros E. unfold findall at 1. cbn [findall_from]. rewrite E.
  apply findall_from_fuel; simpl; lia.
Qed.

Lemma findall_empty : findall ts "" = [].
Proof.
  unfold findall. cbn [findall_from length].
  destruct (match_tokens ts "") as [[gs r]|] eqn:E; [|reflexivity].
  apply match_shorter in E. simpl in E. lia.
Qed.

(** Every match found sits in the text. *)
Lemma findall_In (s : string) (gs : list string) :
  In gs (findall ts s) ->
  exists pre m post,
    s = pre +:+ m +:+ post /\ fits (classes ts) m = true /\ gs = captures ts m.
Proof.
  remember (length s) as n eqn:Hn. revert s Hn.
  induction n as [n IH] using lt_wf_ind. intros s Hn Hin.
  destruct (match_tokens ts s) as [[gs' r]|] eqn:E.
  - rewrite (findall_match _ _ _ E) in Hin. destruct Hin as [<-|Hin].
    + destruct (match_tokens_inv _ _ _ _ E) as (m & -> & Hf & Hg).
      now exists "", m, r.
    + pose proof (match_shorter _ _ _ E) as Hr.
      destruct (IH (length r) ltac:(lia) r eq_refl Hin) as (pre & m & post & -> & Hf & Hg).
      destruct (match_tokens_inv _ _ _ _ E) as (m0 & -> & _ & _).
      exists (m0 +:+ pre), m, post. now rewrite sapp_assoc.
  - destruct s as [|c s].
    + rewrite findall_empty in Hin. destruct Hin.
    + rewrite (findall_skip _ _ E) in Hin. simpl in Hn.
      destruct (IH (length s) ltac:(lia) s eq_refl Hin) as (pre & m & post & -> & Hf & Hg).
      now exists (String c pre), m, post.
Qed.

(** A text in which the pattern matches nowhere yields no match. *)
Lemma findall_none (s : string) :
  (forall pre m post, s = pre +:+ m +:+ post -> fits (classes ts) m = false) ->
  findall ts s = [].
Proof.
  intros H. destruct (findall ts s) as [|gs l] eqn:E; [reflexivity|].
  destruct (findall_In s gs) as (pre & m & post & Hs & Hf & _).
  { rewrite E. now left. }
  rewrite (H _ _ _ Hs) in Hf. discriminate.
Qed.

End Matching.

(* ================================================================== *)
(** * Timestamp pairs *)
(* ================================================================== *)

Section Cues.

Import Re Py Srt.

Lemma digits2_inv (s : string) :
  digits 2 s = true ->
  exists a b, s = String a (String b "") /\ is_digit a = true /\ is_digit b = true.
Proof.
  unfold digits. destruct s as [|a [|b [|c s]]]; simpl; try discriminate.
  intros H. exists a, b. rewrite andb_true_r in H.
  apply andb_prop in H as [Ha Hb]. now repeat split.
Qed.

Lemma digits3_inv (s : string) :
  digits 3 s = true ->
  exists a b c, s = String a (String b (String c "")) /\
                is_digit a = true /\ is_digit b = true /\ is_digit c = true.
Proof.
  unfold digits. destruct s as [|a [|b [|c [|d s]]]]; simpl; try discriminate.
  intros H. exists a, b, c. rewrite andb_true_r in H.
  apply andb_prop in H as [Ha H]. apply andb_prop in H as [Hb Hc].
  now repeat split.
Qed.

Lemma stamp_ok_inv (t : Stamp) :
  stamp_ok t = true ->
  digits 2 (hh t) = true /\ digits 2 (mm t) = true /\
  digits 2 (ss t) = true /\ digits 3 (ms t) = true.
Proof.
  unfold stamp_ok. intros H.
  apply andb_prop in H as [H H4]. apply andb_prop in H as [H H3].
  apply andb_prop in H as [H1 H2]. now repeat split.
Qed.

Lemma cue_ok_inv (c : Cue) :
  cue_ok c = true ->
  stamp_ok (cue_start c) = true /\ is_space (sp1 c) = true /\
  is_space (sp2 c) = true /\ stamp_ok (cue_end c) = true.
Proof.
  unfold cue_ok. intros H.
  apply andb_prop in H as [H H4]. apply andb_prop in H as [H H3].
  apply andb_prop in H as [H1 H2]. now repeat split.
Qed.

(** Take a well-formed entry apart, down to its characters. *)
Ltac crack_stamp t H :=
  let H1 := fresh "Hh" in let H2 := fresh "Hm" in
  let H3 := fresh "Hs" in let H4 := fresh "Hf" in
  destruct (stamp_ok_inv t H) as (H1 & H2 & H3 & H4);
  destruct t as [? ? ? ?]; cbn [hh mm ss ms] in H1, H2, H3, H4;
  apply digits2_inv in H1; destruct H1 as (? & ? & -> & ? & ?);
  apply digits2_inv in H2; destruct H2 as (? & ? & -> & ? & ?);
  apply digits2_inv in H3; destruct H3 as (? & ? & -> & ? & ?);
  apply digits3_inv in H4; destruct H4 as (? & ? & ? & -> & ? & ? & ?).

Ltac crack_cue c H :=
  let H1 := fresh "Hst" in let H2 := fresh "Hw1" in
  let H3 := fresh "Hw2" in let H4 := fresh "Hen" in
  destruct (cue_ok_inv c H) as (H1 & H2 & H3 & H4);
  destruct c as [st w1 w2 en]; cbn [cue_start sp1 sp2 cue_end] in H1, H2, H3, H4;
  crack_stamp st H1; crack_stamp en H4.

Lemma fits_cue (c : Cue) : cue_ok c = true -> fits cue_classes (cue_text c) = true.
Proof.
  intros H. crack_cue c H.
  cbn -[is_digit is_space].
  repeat match goal with E : _ = true |- _ => rewrite E; clear E end.
  reflexivity.
Qed.

Lemma fits_cons (k : cls) (cs : list cls) (m : string) :
  fits (k :: cs) m = true ->
  exists c m', m = String c m' /\ cls_match k c = true /\ fits cs m' = true.
Proof.
  destruct m as [|c m]; simpl; [discriminate|]. intros H.
  apply andb_prop in H as [Hk H]. now exists c, m.
Qed.

Lemma fits_nil (m : string) : fits [] m = true -> m = "".
Proof. destruct m; simpl; [reflexivity | discriminate]. Qed.

Lemma fits_cue_inv (m : string) :
  fits cue_classes m = true -> exists c, cue_ok c = true /\ m = cue_text c.
Proof.
  unfold cue_classes. cbn [app]. intros H.
  repeat match type of H with
         | fits (_ :: _) _ = true =>
             apply fits_cons in H; destruct H as (? & ? & -> & ? & H);
             cbn [cls_match] in *
         end.
  apply fits_nil in H; subst.
  repeat match goal with E : Ascii.eqb _ _ = true |- _ =>
           apply Ascii.eqb_eq in E; subst end.
  match goal with
  | |- exists _, _ /\ String ?a (String ?b (String _ (String ?c (String ?d (String _
         (String ?e (String ?f (String _ (String ?g (String ?h (String ?i
         (String ?w1 (String _ (String _ (String _ (String ?w2
         (String ?a' (String ?b' (String _ (String ?c' (String ?d' (String _
         (String ?e' (String ?f' (String _ (String ?g' (String ?h' (String ?i'
         EmptyString)))))))))))))))))))))))))))) = _ =>
      exists {| cue_start := {| hh := String a (String b ""); mm := String c (String d "");
                                ss := String e (String f "");
                                ms := String g (String h (String i "")) |};
                sp1 := w1; sp2 := w2;
                cue_end := {| hh := String a' (String b' ""); mm := String c' (String d' "");
                              ss := String e' (String f' "");
                              ms := String g' (String h' (String i' "")) |} |}
  end.
  split; [|reflexivity].
  unfold cue_ok, stamp_ok, digits. cbn -[is_digit is_space].
  repeat match goal with E : _ = true |- _ => rewrite E; clear E end.
  reflexivity.
Qed.

Lemma captures_edl (c : Cue) :
  cue_ok c = true -> captures EDL.pattern (cue_text c) = groups8 c.
Proof. intros H. crack_cue c H. reflexivity. Qed.

Lemma captures_pv (c : Cue) :
  cue_ok c = true -> captures PV.pattern (cue_text c) = groups4 c.
Proof. intros H. crack_cue c H. reflexivity. Qed.

Lemma compat_of_fits (cs : list cls) (m g rest r : string) :
  fits cs m = true -> g +:+ rest = m +:+ r -> compat cs g = true.
Proof.
  revert m g; induction cs as [|k cs IH]; intros m g Hf E.
  - now destruct g.
  - destruct g as [|c g]; [reflexivity|].
    apply fits_cons in Hf as (c' & m' & -> & Hk & Hf).
    simpl in E. injection E as -> E. simpl. rewrite Hk. simpl. eauto.
Qed.

Variable ts : list token.
Hypothesis ts_classes : classes ts = cue_classes.

Lemma ts_nonempty : classes ts <> [].
Proof. rewrite ts_classes. discriminate. Qed.

Lemma match_cue (c : Cue) (r : string) :
  cue_ok c = true ->
  match_tokens ts (cue_text c +:+ r) = Some (captures ts (cue_text c), r).
Proof.
  intros H. apply match_tokens_fits. rewrite ts_classes. now apply fits_cue.
Qed.

Lemma findall_quiet (g rest : string) :
  quiet g = true -> findall ts (g +:+ rest) = findall ts rest.
Proof.
  induction g as [|c g IH]; intros H; [reflexivity|].
  cbn [quiet] in H. apply andb_prop in H as [Hc Hq].
  change (String c g +:+ rest) with (String c (g +:+ rest)).
  rewrite (findall_skip ts ts_nonempty); [now apply IH|].
  destruct (match_tokens ts (String c (g +:+ rest))) as [[gs r]|] eqn:E;
    [|reflexivity].
  apply match_tokens_inv in E as (m & E & Hf & _). rewrite ts_classes in Hf.
  change (String c (g +:+ rest)) with (String c g +:+ rest) in E.
  rewrite (compat_of_fits _ _ _ _ _ Hf E) in Hc. discriminate.
Qed.

(** On well-formed text the matches are the timed entries, in order. *)
Lemma findall_render (entries : list (string * Cue)) (tail : string) :
  well_formed entries tail = true ->
  findall ts (render entries tail) =
  map (fun e => captures ts (cue_text (snd e))) entries.
Proof.
  unfold well_formed. intros H. apply andb_prop in H as [He Ht].
  induction entries as [|[g c] es IH]; cbn [render map].
  - rewrite <- (sapp_nil_r tail), (findall_quiet _ _ Ht).
    apply (findall_empty ts ts_nonempty).
  - cbn [forallb fst snd] in He. apply andb_prop in He as [Hgc He].
    apply andb_prop in Hgc as [Hg Hc].
    rewrite (findall_quiet _ _ Hg).
    rewrite (findall_match ts ts_nonempty _ _ _ (match_cue c _ Hc)).
    now rewrite (IH He).
Qed.

(** Every match is a timed entry that occurs in the text. *)
Lemma findall_occurs (content : string) (gs : list string) :
  In gs (findall ts content) ->
  exists c, cue_ok c = true /\ occurs c content /\ gs = captures ts (cue_text c).
Proof.
  intros H. apply (findall_In ts ts_nonempty) in H as (pre & m & post & -> & Hf & ->).
  rewrite ts_classes in Hf. apply fits_cue_inv in Hf as (c & Hc & ->).
  exists c. repeat split; [assumption|]. now exists pre, post.
Qed.

(** Text without a timed entry has no match. *)
Lemma findall_no_cue (content : string) :
  (forall c, cue_ok c = true -> ~ occurs c content) -> findall ts content = [].
Proof.
  intros H. apply (findall_none ts ts_nonempty). intros pre m post ->.
  destruct (fits (classes ts) m) eqn:Hf; [|reflexivity].
  rewrite ts_classes in Hf. apply fits_cue_inv in Hf as (c & Hc & ->).
  exfalso. apply (H c Hc). now exists pre, post.
Qed.

End Cues.

(* ================================================================== *)
(** * Floats *)
(* ================================================================== *)

Section Floats.

Import Py.

Lemma digits2_size (m : positive) : digits2_pos m = Pos.size m.
Proof. induction m; simpl; congruence. Qed.

Lemma digits2_iter_xO (m k : positive) :
  digits2_pos (Pos.iter xO m k) = (digits2_pos m + k)%positive.
Proof.
  induction k using Pos.peano_ind.
  - simpl. lia.
  - rewrite Pos.iter_succ. simpl. rewrite IHk. lia.
Qed.

Lemma size_bound (m : positive) (k : Z) :
  0 <= k -> Zpos m < 2 ^ k -> Zpos (Pos.size m) <= k.
Proof.
  intros Hk H.
  destruct (Z_le_gt_dec (Zpos (Pos.size m)) k) as [|Hgt]; [assumption|exfalso].
  pose proof (Pos.size_le m) as Hs.
  assert (Hp : 2 ^ (k + 1) <= 2 ^ Zpos (Pos.size m)) by (apply Z.pow_le_mono_r; lia).
  rewrite Z.pow_add_r in Hp by lia.
  assert (Hq : Zpos (2 ^ Pos.size m) <= Zpos m~0) by (apply Pos2Z.pos_le_pos; exact Hs).
  rewrite Pos2Z.inj_pow in Hq. lia.
Qed.

(** A mantissa that has its 53 digits already is left as it is. *)
Lemma round_aux_exact (m : positive) (e : Z) :
  Zpos (digits2_pos m) = 53 -> -1074 <= e <= 971 ->
  binary_round_aux 53 1024 false (Zpos m) e loc_Exact = S754_finite false m e.
Proof.
  intros Hd He.
  assert (Hs : shr_fexp 53 1024 (Zpos m) e loc_Exact =
               ({| shr_m := Zpos m; shr_r := false; shr_s := false |}, e)).
  { unfold shr_fexp, shr, fexp, emin. cbn [Zdigits2 shr_record_of_loc].
    rewrite Hd.
    destruct (Z.max (53 + e - 53) (3 - 1024 - 53) - e) eqn:E; try reflexivity; lia. }
  unfold binary_round_aux. rewrite Hs.
  cbn [shr_m loc_of_shr_record round_nearest_even]. rewrite Hs. cbn [shr_m].
  destruct (Z.leb_spec e (1024 - 53)); [reflexivity | lia].
Qed.

(** Integers below [2^53] convert without overflow. *)
Lemma float_of_int_small (z : Z) :
  0 <= z < 2 ^ 53 -> exists f, float_of_int z = Ok f.
Proof.
  intros [H0 H]. unfold float_of_int.
  destruct z as [|m|m]; [now eexists | | lia].
  pose proof (size_bound m 53 ltac:(lia) H) as Hd.
  rewrite <- digits2_size in Hd.
  unfold binary_normalize, binary_round, shl_align, fexp, emin.
  destruct (Z.max (Zpos (digits2_pos m) + 0 - 53) (3 - 1024 - 53) - 0) as [|p|p] eqn:E;
    try lia.
  - rewrite round_aux_exact; [eauto | lia | lia].
  - rewrite round_aux_exact; [eauto | rewrite digits2_iter_xO; lia | lia].
Qed.

End Floats.

(* ================================================================== *)
(** * Fields and timestamps *)
(* ================================================================== *)

Section Fields.

Import Py Srt.

Lemma field2_all : forall s, digits 2 s = true -> field2_ok s = true.
Proof. apply digits_all. vm_compute. reflexivity. Qed.

Lemma field3_all : forall s, digits 3 s = true -> field3_ok s = true.
Proof. apply digits_all. vm_compute. reflexivity. Qed.

Lemma field2 (s : string) :
  digits 2 s = true ->
  int s = Ok (dec s) /\ 0 <= dec s < 100 /\ format_0 2 (dec s) = s.
Proof.
  intros H. apply field2_all in H. unfold field2_ok in H.
  destruct (int s) as [v|]; [|discriminate].
  repeat (apply andb_prop in H as [H ?]).
  apply Z.eqb_eq in H as <-.
  repeat split; try lia. now apply String.eqb_eq.
Qed.

Lemma field3 (s : string) :
  digits 3 s = true ->
  int s = Ok (dec s) /\ 0 <= dec s < 1000 /\
  exists fm, float_of_int (dec s) = Ok fm /\
             int_of_float (fmul (fdiv fm f1000) EDL.f30) = Ok (dec s * 30 / 1000).
Proof.
  intros H. apply field3_all in H. unfold field3_ok in H.
  destruct (int s) as [v|]; [|discriminate].
  repeat (apply andb_prop in H as [H ?]).
  apply Z.eqb_eq in H as <-.
  repeat split; try lia.
  destruct (float_of_int v) as [fm|]; [|discriminate].
  exists fm. split; [reflexivity|].
  destruct (int_of_float _) as [f|]; [|discriminate].
  f_equal. now apply Z.eqb_eq.
Qed.

Lemma digits_all_digits (n : nat) (s : string) :
  digits n s = true -> all_digits s = true.
Proof. unfold digits. intros H. now apply andb_prop in H. Qed.

Lemma nosep_digits (sep : ascii) (s : string) :
  is_digit sep = false -> all_digits s = true -> nosep sep s = true.
Proof.
  intros Hsep. induction s as [|c s IH]; simpl; [reflexivity|]. intros H.
  apply andb_prop in H as [Hc H]. rewrite (IH H), andb_true_r.
  destruct (Ascii.eqb_spec c sep) as [->|]; [congruence | reflexivity].
Qed.

Lemma nosep_app (sep : ascii) (a b : string) :
  nosep sep a = true -> nosep sep b = true -> nosep sep (a +:+ b) = true.
Proof.
  induction a as [|c a IH]; simpl; [trivial|]. intros H Hb.
  apply andb_prop in H as [Hc H]. now rewrite Hc, IH.
Qed.

Lemma split_nosep (sep : ascii) (s : string) :
  nosep sep s = true -> split sep s = [s].
Proof.
  induction s as [|c s IH]; simpl; [reflexivity|]. intros H.
  apply andb_prop in H as [Hc H]. apply negb_true_iff in Hc.
  now rewrite Hc, (IH H).
Qed.

Lemma split_app (sep : ascii) (a b : string) :
  nosep sep a = true -> split sep (a +:+ String sep b) = a :: split sep b.
Proof.
  induction a as [|c a IH]; simpl.
  - intros _. now rewrite Ascii.eqb_refl.
  - intros H. apply andb_prop in H as [Hc H]. apply negb_true_iff in Hc.
    now rewrite Hc, (IH H).
Qed.

(** The text of a timestamp falls apart into its four fields. *)
Lemma split_stamp (t : Stamp) :
  stamp_ok t = true ->
  split ":" (stamp_text "." t) = [hh t; mm t; ss t +:+ "." +:+ ms t] /\
  split "." (ss t +:+ "." +:+ ms t) = [ss t; ms t].
Proof.
  intros H. apply stamp_ok_inv in H as (Hh & Hm & Hs & Hf).
  apply digits_all_digits in Hh, Hm, Hs, Hf.
  unfold stamp_text. cbn [append].
  split.
  - rewrite !split_app by (apply nosep_digits; [reflexivity | assumption]).
    rewrite split_nosep; [reflexivity|].
    apply nosep_app; [now apply nosep_digits|].
    cbn [append nosep]. now rewrite nosep_digits.
  - rewrite split_app by (apply nosep_digits; [reflexivity | assumption]).
    rewrite split_nosep; [reflexivity|]. now apply nosep_digits.
Qed.

Lemma time_value_stamp (t : Stamp) :
  stamp_ok t = true -> time_value (stamp_text "." t) = Some (stamp_millis t).
Proof.
  intros H. destruct (split_stamp t H) as [E1 E2].
  apply stamp_ok_inv in H as (Hh & Hm & Hs & Hf).
  destruct (field2 _ Hh) as (Ih & _ & _). destruct (field2 _ Hm) as (Im & _ & _).
  destruct (field2 _ Hs) as (Is & _ & _). destruct (field3 _ Hf) as (If & _ & _).
  unfold time_value. now rewrite E1, E2, Ih, Im, Is, If.
Qed.

(** The formatter on a timestamp the parser hands on. *)
Lemma format_time_stamp (t : Stamp) :
  stamp_ok t = true ->
  EDL.format_time_for_edl (stamp_text "." t) =
  Ok (hh t +:+ ":" +:+ mm t +:+ ":" +:+ ss t +:+ ":" +:+
      format_0 2 (dec (ms t) * 30 / 1000)).
Proof.
  intros H. destruct (split_stamp t H) as [E1 E2].
  apply stamp_ok_inv in H as (Hh & Hm & Hs & Hf).
  destruct (field2 _ Hh) as (Ih & Bh & Fh). destruct (field2 _ Hm) as (Im & Bm & Fm).
  destruct (field2 _ Hs) as (Is & Bs & Fs).
  destruct (field3 _ Hf) as (If & Bf & fm & Cf & Tf).
  destruct (float_of_int_small (dec (hh t) * 3600 + dec (mm t) * 60 + dec (ss t)))
    as [whole Hw]; [lia|].
  unfold EDL.format_time_for_edl. rewrite E1.
  cbn [item nth nth_error rbind]. rewrite Ih. cbn [rbind]. rewrite Im. cbn [rbind].
  rewrite E2. cbn [rbind fst snd]. rewrite Is. cbn [rbind]. rewrite If. cbn [rbind].
  rewrite Cf. cbn [rbind]. rewrite Hw. cbn [rbind]. rewrite Tf. cbn [rbind].
  now rewrite Fh, Fm, Fs.
Qed.

End Fields.

(* ================================================================== *)
(** * The timing parser *)
(* ================================================================== *)

Section Parser.

Import Re Py Srt.

Lemma edl_classes : classes EDL.pattern = cue_classes.
Proof. reflexivity. Qed.

Lemma pv_classes : classes PV.pattern = cue_classes.
Proof. reflexivity. Qed.

Lemma well_formed_cues (entries : list (string * Cue)) (tail : string) :
  well_formed entries tail = true ->
  forall e, In e entries -> cue_ok (snd e) = true.
Proof.
  unfold well_formed. intros H e He. apply andb_prop in H as [H _].
  rewrite forallb_forall in H. apply H in He. now apply andb_prop in He.
Qed.

Lemma well_formed_tl (e : string * Cue) (entries : list (string * Cue)) (tail : string) :
  well_formed (e :: entries) tail = true -> well_formed entries tail = true.
Proof.
  unfold well_formed. cbn [forallb]. intros H.
  apply andb_prop in H as [H Ht]. apply andb_prop in H as [_ H].
  now rewrite H, Ht.
Qed.

(** The range the first script builds from the eight groups of an entry. *)
Lemma edl_range_groups (c : Cue) :
  (item (groups8 c) 0 +:+ ":" +:+ item (groups8 c) 1 +:+ ":" +:+
   item (groups8 c) 2 +:+ "." +:+ item (groups8 c) 3,
   item (groups8 c) 4 +:+ ":" +:+ item (groups8 c) 5 +:+ ":" +:+
   item (groups8 c) 6 +:+ "." +:+ item (groups8 c) 7) = range_of c.
Proof. reflexivity. Qed.

(** The range the second script builds from the four groups of an entry. *)
Lemma pv_range_groups (c : Cue) :
  (item (groups4 c) 0 +:+ "." +:+ item (groups4 c) 1,
   item (groups4 c) 2 +:+ "." +:+ item (groups4 c) 3) = range_of c.
Proof.
  unfold range_of, stamp_text, groups4, item. cbn [nth].
  now rewrite !sapp_assoc.
Qed.

(** The first script on well-formed text. *)
Lemma edl_parse_render (entries : list (string * Cue)) (tail : string) :
  well_formed entries tail = true ->
  EDL.parse_srt_content (render entries tail) =
  map (fun e => range_of (snd e))
      match entries with
      | e :: rest => if first_minute (snd e) then rest else entries
      | [] => []
      end.
Proof.
  intros H. unfold EDL.parse_srt_content.
  rewrite (findall_render _ edl_classes _ _ H).
  assert (Hall : forall es : list (string * Cue),
            (forall e, In e es -> cue_ok (snd e) = true) ->
            map (fun m =>
                   (item m 0 +:+ ":" +:+ item m 1 +:+ ":" +:+ item m 2 +:+ "." +:+ item m 3,
                    item m 4 +:+ ":" +:+ item m 5 +:+ ":" +:+ item m 6 +:+ "." +:+ item m 7))
                (map (fun e => captures EDL.pattern (cue_text (snd e))) es) =
            map (fun e => range_of (snd e)) es).
  { intros es Hes. rewrite map_map. apply map_ext_in. intros e He.
    rewrite (captures_edl _ (Hes e He)). apply edl_range_groups. }
  pose proof (well_formed_cues _ _ H) as Hok.
  destruct entries as [|e es]; [reflexivity|].
  cbn [map]. rewrite (captures_edl _ (Hok e (or_introl eq_refl))).
  replace (forallb (fun part => String.eqb part "00") (firstn 2 (groups8 (snd e))))
    with (first_minute (snd e))
    by (unfold first_minute, groups8; cbn [firstn forallb]; now rewrite andb_true_r).
  rewrite <- (captures_edl _ (Hok e (or_introl eq_refl))).
  destruct (first_minute (snd e)).
  - apply Hall. intros e' He'. apply Hok. now right.
  - apply (Hall (e :: es)). exact Hok.
Qed.

(** The first group of the second pattern has eight characters. *)
Lemma pv_first_group (c : Cue) :
  cue_ok c = true -> String.eqb (item (groups4 c) 0) "00" = false.
Proof.
  intros H. apply String.eqb_neq. intros E.
  apply (f_equal length) in E. unfold groups4, item in E. cbn [nth] in E.
  apply cue_ok_inv in H as (H & _). apply stamp_ok_inv in H as (H & _).
  apply digits2_inv in H as (a & b & Hab & _). rewrite Hab in E.
  simpl in E. discriminate.
Qed.

(** The second script on well-formed text. *)
Lemma pv_parse_render (entries : list (string * Cue)) (tail : string) :
  well_formed entries tail = true ->
  PV.parse_srt_content (render entries tail) = map (fun e => range_of (snd e)) entries.
Proof.
  intros H. unfold PV.parse_srt_content.
  rewrite (findall_render _ pv_classes _ _ H).
  pose proof (well_formed_cues _ _ H) as Hok.
  assert (Hall : map (fun m => (item m 0 +:+ "." +:+ item m 1, item m 2 +:+ "." +:+ item m 3))
                   (map (fun e => captures PV.pattern (cue_text (snd e))) entries) =
                 map (fun e => range_of (snd e)) entries).
  { rewrite map_map. apply map_ext_in. intros e He.
    rewrite (captures_pv _ (Hok e He)). apply pv_range_groups. }
  destruct entries as [|e es]; [reflexivity|].
  cbn [map] in *. rewrite (captures_pv _ (Hok e (or_introl eq_refl))) in *.
  rewrite (pv_first_group _ (Hok e (or_introl eq_refl))). cbn [andb].
  exact Hall.
Qed.

(** Whatever either script returns is the range of an entry of the text. *)
Lemma edl_parse_In (content : string) (r : string * string) :
  In r (EDL.parse_srt_content content) ->
  exists c, cue_ok c = true /\ occurs c content /\ r = range_of c.
Proof.
  unfold EDL.parse_srt_content. intros H. apply in_map_iff in H as (m & <- & Hm).
  assert (Hin : In m (findall EDL.pattern content)).
  { destruct (findall EDL.pattern content) as [|m0 rest]; [assumption|].
    destruct (forallb _ _); [now right | assumption]. }
  apply (findall_occurs _ edl_classes) in Hin as (c & Hc & Ho & ->).
  exists c. repeat split; try assumption.
  rewrite (captures_edl _ Hc). apply edl_range_groups.
Qed.

Lemma pv_parse_In (content : string) (r : string * string) :
  In r (PV.parse_srt_content content) ->
  exists c, cue_ok c = true /\ occurs c content /\ r = range_of c.
Proof.
  unfold PV.parse_srt_content. intros H. apply in_map_iff in H as (m & <- & Hm).
  assert (Hin : In m (findall PV.pattern content)).
  { destruct (findall PV.pattern content) as [|m0 rest]; [assumption|].
    destruct (_ && _); [now right | assumption]. }
  apply (findall_occurs _ pv_classes) in Hin as (c & Hc & Ho & ->).
  exists c. repeat split; try assumption.
  rewrite (captures_pv _ Hc). apply pv_range_groups.
Qed.

Lemma range_starts_before_end (c : Cue) :
  cue_ok c = true ->
  (starts_before_end (range_of c) <->
   stamp_millis (cue_start c) < stamp_millis (cue_end c)).
Proof.
  intros H. apply cue_ok_inv in H as (Hs & _ & _ & He).
  unfold starts_before_end, range_of. cbn [fst snd].
  rewrite (time_value_stamp _ Hs), (time_value_stamp _ He). reflexivity.
Qed.

End Parser.

(* ================================================================== *)
(** * The parser: what is dropped, what is kept *)
(* ================================================================== *)

Section ParserClaims.

Import Py Srt Sample.

(** C1, as stated, fails on the first script: a start other than
    [00:00:00,000] makes it drop an entry too.  The first entry of
    [late_start] starts at [00:00:05,000] and is dropped. *)
Lemma placeholder_rule_counterexample :
  well_formed late_start nl = true /\
  List.length late_start = 2%nat /\
  zero_start (cue (stamp "00" "00" "05" "000") (stamp "00" "00" "07" "000")) = false /\
  EDL.parse_srt_content (render late_start nl) = [("00:00:10.000", "00:00:20.000")].
Proof. vm_compute. repeat split. Qed.

(** C1, amended.  On well-formed text the first script drops the first
    entry exactly when it starts in the first minute (hours [00] and minutes
    [00], which covers [00:00:00,000]) and returns the ranges of the other
    entries in order; otherwise it returns the ranges of all entries.  In
    the second script nothing but a first entry at [00:00:00,000] can be
    dropped: with any other first start it returns the ranges of all
    entries, and in every case the ranges of all entries or of all but the
    first. *)
Theorem edl_drops_first_minute_entry
    (g : string) (c : Cue) (es : list (string * Cue)) (tail : string) :
  well_formed ((g, c) :: es) tail = true ->
  let content := render ((g, c) :: es) tail in
  let ranges := map (fun e => range_of (snd e)) in
  EDL.parse_srt_content content =
    (if first_minute c then ranges es else ranges ((g, c) :: es)) /\
  (zero_start c = true ->
   first_minute c = true /\ EDL.parse_srt_content content = ranges es /\
   List.length (EDL.parse_srt_content content) = List.length es) /\
  (zero_start c = false -> PV.parse_srt_content content = ranges ((g, c) :: es)) /\
  (PV.parse_srt_content content = ranges ((g, c) :: es) \/
   PV.parse_srt_content content = ranges es).
Proof.
  intros H content ranges. subst content ranges.
  assert (He : EDL.parse_srt_content (render ((g, c) :: es) tail) =
               (if first_minute c then map (fun e => range_of (snd e)) es
                else map (fun e => range_of (snd e)) ((g, c) :: es))).
  { rewrite (edl_parse_render _ _ H). cbn [snd]. now destruct (first_minute c). }
  split; [exact He|]. split; [|split].
  - unfold zero_start. intros Hz. apply andb_prop in Hz as [Hz _].
    apply andb_prop in Hz as [Hz _]. rewrite He, Hz.
    split; [reflexivity|]. split; [reflexivity | apply length_map].
  - intros _. apply (pv_parse_render _ _ H).
  - left. apply (pv_parse_render _ _ H).
Qed.

Lemma edl_drops_first_minute_entry_witness :
  well_formed scenario scenario_tail = true /\
  EDL.parse_srt_content (render scenario scenario_tail) =
    [("00:00:10.000", "00:00:20.000"); ("00:01:00.000", "00:01:15.500")].
Proof.
  assert (Hwf : well_formed scenario scenario_tail = true)
    by (vm_compute; reflexivity).
  split; [exact Hwf|].
  pose proof (edl_drops_first_minute_entry _ _ _ scenario_tail Hwf) as H.
  apply proj1 in H. vm_compute in H. vm_compute. exact H.
Defined.

(** C2, as stated, fails on the first script: [late_start] has two entries
    and its first start is not [00:00:00,000], yet one range comes back. *)
Lemma all_entries_kept_counterexample :
  well_formed late_start nl = true /\
  List.length late_start = 2%nat /\
  zero_start (cue (stamp "00" "00" "05" "000") (stamp "00" "00" "07" "000")) = false /\
  List.length (EDL.parse_srt_content (render late_start nl)) = 1%nat.
Proof. vm_compute. repeat split. Qed.

(** C2, amended.  On well-formed text with N >= 1 entries whose first entry
    does not start at [00:00:00,000], the second script returns exactly N
    ranges, those of the entries, in the order of the text; so does the
    first script when the first entry does not start in the first minute
    (hours and minutes not both [00]). *)
Theorem parse_keeps_entries_in_order
    (g : string) (c : Cue) (es : list (string * Cue)) (tail : string) :
  well_formed ((g, c) :: es) tail = true ->
  zero_start c = false ->
  let content := render ((g, c) :: es) tail in
  PV.parse_srt_content content = map (fun e => range_of (snd e)) ((g, c) :: es) /\
  List.length (PV.parse_srt_content content) = S (List.length es) /\
  (first_minute c = false ->
   EDL.parse_srt_content content = map (fun e => range_of (snd e)) ((g, c) :: es) /\
   List.length (EDL.parse_srt_content content) = S (List.length es)).
Proof.
  intros H _ content. subst content.
  rewrite (pv_parse_render _ _ H).
  split; [reflexivity|]. split; [cbn [map List.length]; now rewrite length_map|].
  intros Hf.
  assert (He : EDL.parse_srt_content (render ((g, c) :: es) tail) =
               map (fun e => range_of (snd e)) ((g, c) :: es)).
  { rewrite (edl_parse_render _ _ H). cbn [snd]. now rewrite Hf. }
  rewrite He. split; [reflexivity|]. cbn [map List.length]. now rewrite length_map.
Qed.

Lemma parse_keeps_entries_in_order_witness :
  well_formed late_start nl = true /\
  zero_start (cue (stamp "00" "00" "05" "000") (stamp "00" "00" "07" "000")) = false /\
  PV.parse_srt_content (render late_start nl) =
    [("00:00:05.000", "00:00:07.000"); ("00:00:10.000", "00:00:20.000")] /\
  well_formed plain nl = true /\
  first_minute (cue (stamp "00" "01" "00" "000") (stamp "00" "01" "15" "500")) = false /\
  EDL.parse_srt_content (render plain nl) =
    [("00:01:00.000", "00:01:15.500"); ("00:02:10.000", "00:02:20.000")].
Proof.
  assert (Hl : well_formed late_start nl = true) by (vm_compute; reflexivity).
  assert (Hp : well_formed plain nl = true) by (vm_compute; reflexivity).
  split; [exact Hl|]. split; [vm_compute; reflexivity|]. split.
  - pose proof (parse_keeps_entries_in_order _ _ _ nl Hl) as H.
    specialize (H ltac:(vm_compute; reflexivity)).
    destruct H as (H & _). vm_compute in H. vm_compute. exact H.
  - split; [exact Hp|]. split; [vm_compute; reflexivity|].
    pose proof (parse_keeps_entries_in_order _ _ _ nl Hp) as H.
    specialize (H ltac:(vm_compute; reflexivity)).
    destruct H as (_ & _ & H). specialize (H ltac:(vm_compute; reflexivity)).
    destruct H as [H _]. vm_compute in H. vm_compute. exact H.
Defined.

(** C4, as stated, fails: the entry of [backwards] ends three seconds before
    it starts, and both scripts hand it on. *)
Lemma start_before_end_counterexample :
  In ("00:01:05.000", "00:01:02.000") (EDL.parse_srt_content backwards) /\
  In ("00:01:05.000", "00:01:02.000") (PV.parse_srt_content backwards) /\
  ~ starts_before_end ("00:01:05.000", "00:01:02.000").
Proof.
  vm_compute. repeat split; try (now left). discriminate.
Qed.

(** C4, amended.  Every range either script produces is the range of a
    timestamp pair of the text, with the fields as written there, and has
    [start < end] exactly when that pair has; the parser checks no order. *)
Theorem range_ordered_as_written (content : string) (r : string * string) :
  In r (EDL.parse_srt_content content) \/ In r (PV.parse_srt_content content) ->
  exists c,
    cue_ok c = true /\ occurs c content /\ r = range_of c /\
    (starts_before_end r <->
     stamp_millis (cue_start c) < stamp_millis (cue_end c)).
Proof.
  intros [H|H]; [apply edl_parse_In in H | apply pv_parse_In in H];
    destruct H as (c & Hc & Ho & ->); exists c; repeat split; try assumption;
    now apply range_starts_before_end.
Qed.

Lemma range_ordered_as_written_witness :
  exists c,
    cue_ok c = true /\ occurs c (render scenario scenario_tail) /\
    ("00:01:00.000", "00:01:15.500") = range_of c /\
    (starts_before_end ("00:01:00.000", "00:01:15.500") <->
     stamp_millis (cue_start c) < stamp_millis (cue_end c)).
Proof.
  apply (range_ordered_as_written (render scenario scenario_tail)).
  left. vm_compute. right. left. reflexivity.
Defined.

End ParserClaims.

(* ================================================================== *)
(** * Text without a timed entry *)
(* ================================================================== *)

Section EmptyResult.

Import Py Srt Sys.

Variable tool : list string -> CompletedProcess.

(** The world [main] leaves behind when it gives up after parsing. *)
Lemma edl_main_empty (w : World) (video : bytes) (content : string) :
  files w "IMG_0106.mov" = Some video ->
  files w "90 days in Japan without a plan.srt" = Some (Utf8 content) ->
  EDL.parse_srt_content content = [] ->
  EDL.main tool w =
  (Exit 1,
   {| files := files w; dirs := dirs w;
      stdout := stdout w ++ ["Parsing SRT file..."; "Found 0 segments to extract.";
                             "No valid time ranges found in the SRT file."];
      procs := procs w |}).
Proof.
  intros Hv Hs Hp.
  unfold EDL.main, EDL.parse_srt, bind, isfile, read_file, lift, decode, print, ret, sys_exit.
  cbn [files dirs stdout procs]. rewrite Hv. cbn [negb]. rewrite Hs. cbn [negb].
  cbn [files dirs stdout procs]. rewrite Hs. cbn [files dirs stdout procs].
  rewrite Hp. cbn [files dirs stdout procs List.length].
  rewrite <- !app_assoc. reflexivity.
Qed.

Lemma pv_main_empty (w : World) (video : bytes) (content : string) :
  files w "IMG_0106.mov" = Some video ->
  files w "90 days in Japan without a plan.srt" = Some (Utf8 content) ->
  PV.parse_srt_content content = [] ->
  PV.main tool w =
  (Exit 1,
   {| files := files w; dirs := dirs w;
      stdout := stdout w ++ ["Parsing SRT file..."; "Found 0 segments to extract.";
                             "No valid time ranges found in the SRT file."];
      procs := procs w |}).
Proof.
  intros Hv Hs Hp.
  unfold PV.main, PV.parse_srt, bind, isfile, read_file, lift, decode, print, ret, sys_exit.
  cbn [files dirs stdout procs]. rewrite Hv. cbn [negb]. rewrite Hs. cbn [negb].
  cbn [files dirs stdout procs]. rewrite Hs. cbn [files dirs stdout procs].
  rewrite Hp. cbn [files dirs stdout procs List.length].
  rewrite <- !app_assoc. reflexivity.
Qed.

Lemma has_entry_occurs (content : string) :
  has_entry content = false -> forall c, cue_ok c = true -> ~ occurs c content.
Proof.
  intros H c Hc (pre & post & ->). revert H.
  induction pre as [|x pre IH]; cbn [append].
  - pose proof (fits_cue c Hc) as Hf. pose proof (fits_length _ _ Hf) as Hl.
    destruct (cue_text c) as [|y m] eqn:E; [discriminate Hf|].
    cbn [append has_entry]. rewrite <- Hl.
    change (String y (m +:+ post)) with (String y m +:+ post).
    rewrite take_app_len, Hf. discriminate.
  - cbn [has_entry]. intros H. apply orb_false_elim in H as [_ H]. now apply IH.
Qed.

(** C8.  When no timestamp pair occurs in the text of the subtitle file,
    [parse_srt] returns the empty list in either script, and [main] prints
    its complaint and exits with status 1: no process is started and no
    directory made. *)
Theorem no_entry_is_fatal (w : World) (video : bytes) (content : string) :
  (forall c, cue_ok c = true -> ~ occurs c content) ->
  files w "IMG_0106.mov" = Some video ->
  files w "90 days in Japan without a plan.srt" = Some (Utf8 content) ->
  let gave_up :=
    {| files := files w; dirs := dirs w;
       stdout := stdout w ++ ["Parsing SRT file..."; "Found 0 segments to extract.";
                              "No valid time ranges found in the SRT file."];
       procs := procs w |} in
  EDL.parse_srt "90 days in Japan without a plan.srt" w = (Return [], w) /\
  PV.parse_srt "90 days in Japan without a plan.srt" w = (Return [], w) /\
  EDL.main tool w = (Exit 1, gave_up) /\
  PV.main tool w = (Exit 1, gave_up) /\
  exit_status (fst (EDL.main tool w)) <> 0 /\
  exit_status (fst (PV.main tool w)) <> 0.
Proof.
  intros Hno Hv Hs gave_up.
  assert (He : EDL.parse_srt_content content = []).
  { unfold EDL.parse_srt_content. now rewrite (findall_no_cue _ edl_classes _ Hno). }
  assert (Hp : PV.parse_srt_content content = []).
  { unfold PV.parse_srt_content. now rewrite (findall_no_cue _ pv_classes _ Hno). }
  rewrite (edl_main_empty w video content Hv Hs He).
  rewrite (pv_main_empty w video content Hv Hs Hp).
  unfold EDL.parse_srt, PV.parse_srt, bind, read_file, lift, decode, ret.
  rewrite Hs, He, Hp.
  repeat split; discriminate.
Qed.

End EmptyResult.

Lemma no_entry_is_fatal_witness :
  Sys.exit_status (fst (EDL.main (fun _ => {| Sys.returncode := 0; Sys.stderr := Py.Utf8 "" |})
                          (Sample.world_with Sample.untimed))) <> 0 /\
  Sys.procs (snd (PV.main (fun _ => {| Sys.returncode := 0; Sys.stderr := Py.Utf8 "" |})
                    (Sample.world_with Sample.untimed))) = [].
Proof.
  pose proof (no_entry_is_fatal (fun _ => {| Sys.returncode := 0; Sys.stderr := Py.Utf8 "" |})
                (Sample.world_with Sample.untimed) Py.Malformed Sample.untimed
                (has_entry_occurs Sample.untimed ltac:(vm_compute; reflexivity))
                ltac:(vm_compute; reflexivity) ltac:(vm_compute; reflexivity))
    as (_ & _ & _ & Hp & He & _).
  split; [exact He|]. rewrite Hp. reflexivity.
Defined.

(* ================================================================== *)
(** * The timecode formatter *)
(* ================================================================== *)

Section Formatter.

Import Py Srt.

Lemma below_spec (n : nat) (p : Z -> bool) :
  below n p = true -> forall z, 0 <= z < Z.of_nat n -> p z = true.
Proof.
  induction n as [|n IH]; intros H z Hz; [lia|].
  cbn [below] in H. apply andb_prop in H as [H0 H].
  destruct (Z.eq_dec z (Z.of_nat n)) as [->|Hne]; [assumption|].
  apply IH; [assumption | lia].
Qed.

Lemma pad2 (v : Z) :
  0 <= v < 100 -> digits 2 (format_0 2 v) = true /\ dec (format_0 2 v) = v.
Proof.
  intros H. assert (Hp : pad_ok 2 v = true).
  { apply (below_spec 100); [vm_compute; reflexivity | exact H]. }
  unfold pad_ok in Hp. apply andb_prop in Hp as [Hd He].
  split; [assumption | now apply Z.eqb_eq].
Qed.

Lemma pad3 (v : Z) :
  0 <= v < 1000 -> digits 3 (format_0 3 v) = true /\ dec (format_0 3 v) = v.
Proof.
  intros H. assert (Hp : pad_ok 3 v = true).
  { apply (below_spec 1000); [vm_compute; reflexivity | exact H]. }
  unfold pad_ok in Hp. apply andb_prop in Hp as [Hd He].
  split; [assumption | now apply Z.eqb_eq].
Qed.

Lemma frames_range (v : Z) : 0 <= v < 1000 -> 0 <= v * 30 / 1000 <= 29.
Proof.
  intros H. split.
  - apply Z.div_pos; lia.
  - assert (v * 30 / 1000 < 30) by (apply Z.div_lt_upper_bound; lia). lia.
Qed.

(** C3.  For hours, minutes and seconds below 100 and milliseconds below
    1000, [format_time_for_edl] turns [HH:MM:SS.mmm] into [HH:MM:SS:FF] with
    FF the integer part of [mmm / 1000 * 30], written with two digits.  The
    result is a function of the time string alone. *)
Theorem format_time_for_edl_frames (h m s f : Z) :
  0 <= h < 100 -> 0 <= m < 100 -> 0 <= s < 100 -> 0 <= f < 1000 ->
  EDL.format_time_for_edl (timestamp h m s f) =
  Ok (format_0 2 h +:+ ":" +:+ format_0 2 m +:+ ":" +:+ format_0 2 s +:+ ":" +:+
      format_0 2 (f * 30 / 1000)).
Proof.
  intros Hh Hm Hs Hf.
  destruct (pad2 h Hh) as [Dh Eh]. destruct (pad2 m Hm) as [Dm Em].
  destruct (pad2 s Hs) as [Ds Es]. destruct (pad3 f Hf) as [Df Ef].
  pose (t := {| hh := format_0 2 h; mm := format_0 2 m;
                ss := format_0 2 s; ms := format_0 3 f |}).
  assert (Ht : stamp_ok t = true).
  { unfold stamp_ok, t. cbn [hh mm ss ms]. now rewrite Dh, Dm, Ds, Df. }
  change (timestamp h m s f) with (stamp_text "." t).
  rewrite (format_time_stamp t Ht). unfold t. cbn [hh mm ss ms].
  now rewrite Ef.
Qed.

Lemma format_time_for_edl_frames_witness :
  EDL.format_time_for_edl "00:01:02.500" = Ok "00:01:02:15".
Proof.
  exact (format_time_for_edl_frames 0 1 2 500
           ltac:(lia) ltac:(lia) ltac:(lia) ltac:(lia)).
Defined.

(** C10.  A timestamp with three millisecond digits denotes a millisecond
    count between 0 and 999; [format_time_for_edl] then writes a frame field
    FF with 0 <= FF <= 29, two digits, after the hours, minutes and seconds
    fields of the input, which it copies unchanged. *)
Theorem frame_field_below_rate (t : Stamp) :
  stamp_ok t = true ->
  0 <= dec (ms t) <= 999 /\
  exists ff,
    0 <= ff <= 29 /\
    digits 2 (format_0 2 ff) = true /\
    EDL.format_time_for_edl (stamp_text "." t) =
    Ok (hh t +:+ ":" +:+ mm t +:+ ":" +:+ ss t +:+ ":" +:+ format_0 2 ff).
Proof.
  intros H. pose proof (format_time_stamp t H) as Hfmt.
  apply stamp_ok_inv in H as (_ & _ & _ & Hf).
  destruct (field3 _ Hf) as (_ & Hb & _).
  split; [lia|]. exists (dec (ms t) * 30 / 1000).
  pose proof (frames_range _ Hb) as Hr.
  repeat split; try lia; [|exact Hfmt].
  apply pad2. lia.
Qed.

Lemma frame_field_below_rate_witness :
  exists ff,
    0 <= ff <= 29 /\
    digits 2 (format_0 2 ff) = true /\
    EDL.format_time_for_edl "23:59:59.999" = Ok ("23:59:59:" +:+ format_0 2 ff).
Proof.
  exact (proj2 (frame_field_below_rate (Sample.stamp "23" "59" "59" "999")
                  ltac:(vm_compute; reflexivity))).
Defined.

End Formatter.

(* ================================================================== *)
(** * The segment extractor *)
(* ================================================================== *)

Section Extractor.

Import Py Srt Sys.

Variable tool : list string -> CompletedProcess.
Variables input_video segments_dir : string.

Lemma after_trims_nil (idx : Z) (w : World) : after_trims input_video segments_dir idx [] w = w.
Proof. destruct w. unfold after_trims. cbn. now rewrite !app_nil_r. Qed.

Lemma after_trims_cons (idx : Z) (a b : string)
    (rest : list (string * string)) (w : World) :
  after_trims input_video segments_dir (idx + 1) rest
    {| files := files w; dirs := dirs w;
       stdout := stdout w ++ ["Extracting Segment " +:+ str idx +:+ ": " +:+
                              a +:+ " to " +:+ b];
       procs := procs w ++ [trim_of input_video segments_dir idx (a, b)] |}
  = after_trims input_video segments_dir idx ((a, b) :: rest) w.
Proof.
  unfold after_trims. cbn [files dirs stdout procs trim_lines trims].
  now rewrite <- !app_assoc.
Qed.

(** While the trims succeed the loop of the first script goes on. *)
Lemma edl_loop_succeeding (pre rest : list (string * string)) :
  forall (idx : Z) (acc : list EDL.Segment) (w : World),
    all_succeed tool (trims input_video segments_dir idx pre) = true ->
    EDL.extract_loop tool input_video segments_dir idx (pre ++ rest) acc w =
    EDL.extract_loop tool input_video segments_dir (idx + Z.of_nat (List.length pre))
      rest (acc ++ edl_segments idx pre) (after_trims input_video segments_dir idx pre w).
Proof.
  induction pre as [|[a b] pre IH]; intros idx acc w H.
  - cbn [List.length app edl_segments Z.of_nat].
    now rewrite Z.add_0_r, app_nil_r, after_trims_nil.
  - cbn [all_succeed trims forallb] in H. apply andb_prop in H as [Hr H].
    cbn [app EDL.extract_loop]. unfold bind at 1. unfold print at 1.
    unfold bind at 1. unfold subprocess_run at 1.
    unfold bind at 1.
    change (trim_cmd input_video a b
              (path_join segments_dir ("segment_" +:+ format_0 3 idx +:+ ".mov")))
      with (trim_of input_video segments_dir idx (a, b)).
    rewrite Hr. cbn [negb]. unfold ret at 1. cbn [files dirs stdout procs].
    rewrite (IH (idx + 1) _ _ H).
    rewrite (after_trims_cons idx a b pre w).
    cbn [edl_segments List.length fst snd]. rewrite <- app_assoc. cbn [app].
    f_equal. lia.
Qed.

Lemma pv_loop_succeeding (pre rest : list (string * string)) :
  forall (idx : Z) (acc : list string) (w : World),
    all_succeed tool (trims input_video segments_dir idx pre) = true ->
    PV.extract_loop tool input_video segments_dir idx (pre ++ rest) acc w =
    PV.extract_loop tool input_video segments_dir (idx + Z.of_nat (List.length pre))
      rest (acc ++ pv_paths segments_dir idx pre) (after_trims input_video segments_dir idx pre w).
Proof.
  induction pre as [|[a b] pre IH]; intros idx acc w H.
  - cbn [List.length app pv_paths Z.of_nat].
    now rewrite Z.add_0_r, app_nil_r, after_trims_nil.
  - cbn [all_succeed trims forallb] in H. apply andb_prop in H as [Hr H].
    cbn [app PV.extract_loop]. unfold bind at 1. unfold print at 1.
    unfold bind at 1. unfold subprocess_run at 1.
    unfold bind at 1.
    change (trim_cmd input_video a b
              (path_join segments_dir ("segment_" +:+ format_0 3 idx +:+ ".mov")))
      with (trim_of input_video segments_dir idx (a, b)).
    rewrite Hr. cbn [negb]. unfold ret at 1. cbn [files dirs stdout procs].
    rewrite (IH (idx + 1) _ _ H).
    rewrite (after_trims_cons idx a b pre w).
    cbn [pv_paths List.length fst snd]. rewrite <- app_assoc. cbn [app].
    f_equal. lia.
Qed.

Lemma format_0_zero_pad3 (i : Z) : 0 <= i -> format_0 3 i = zero_pad3 i.
Proof.
  intros H. unfold format_0, zero_pad3.
  destruct (Z.ltb_spec i 0) as [|_]; [lia|]. now rewrite Z.abs_eq.
Qed.

Lemma edl_segments_length (idx : Z) (ranges : list (string * string)) :
  List.length (edl_segments idx ranges) = List.length ranges.
Proof.
  revert idx; induction ranges as [|r rs IH]; intros idx; cbn; [reflexivity|].
  now rewrite IH.
Qed.

Lemma pv_paths_length (idx : Z) (ranges : list (string * string)) :
  List.length (pv_paths segments_dir idx ranges) = List.length ranges.
Proof.
  revert idx; induction ranges as [|r rs IH]; intros idx; cbn [pv_paths List.length];
    [reflexivity|].
  now rewrite IH.
Qed.

Lemma edl_segments_nth (ranges : list (string * string)) :
  forall (idx : Z) (i : nat) (r : string * string),
    0 <= idx ->
    nth_error ranges i = Some r ->
    nth_error (edl_segments idx ranges) i =
    Some {| EDL.filename := segment_name (idx + Z.of_nat i);
            EDL.start := fst r; EDL.end_ := snd r |}.
Proof.
  induction ranges as [|r0 rs IH]; intros idx [|i] r Hidx H; cbn in H;
    try discriminate.
  - injection H as ->. cbn [edl_segments nth_error Z.of_nat].
    unfold segment_name. now rewrite Z.add_0_r, format_0_zero_pad3.
  - cbn [edl_segments nth_error]. rewrite (IH (idx + 1) i r) by (assumption || lia).
    do 3 f_equal. lia.
Qed.

Lemma pv_paths_nth (ranges : list (string * string)) :
  forall (idx : Z) (i : nat) (r : string * string),
    0 <= idx ->
    nth_error ranges i = Some r ->
    nth_error (pv_paths segments_dir idx ranges) i =
    Some (path_join segments_dir (segment_name (idx + Z.of_nat i))).
Proof.
  induction ranges as [|r0 rs IH]; intros idx [|i] r Hidx H; cbn in H;
    try discriminate.
  - cbn [pv_paths nth_error Z.of_nat].
    unfold segment_name. now rewrite Z.add_0_r, format_0_zero_pad3.
  - cbn [pv_paths nth_error]. rewrite (IH (idx + 1) i r) by (assumption || lia).
    do 3 f_equal. lia.
Qed.

(** C5.  When the tool succeeds on every trim, [extract_segments] returns
    one segment per time range, in the order of the ranges; the segment of
    the i-th range (counting from 1) is named [segment_] + the ordinal with
    at least three digits, zeros in front + [.mov], however many ranges
    there are.  The first script records the name with the range, the second
    the name joined to the output directory. *)
Theorem one_segment_per_range (ranges : list (string * string)) (w : World) :
  all_succeed tool (trims input_video segments_dir 1 ranges) = true ->
  let done := after_trims input_video segments_dir 1 ranges (with_dir segments_dir w) in
  exists segments paths,
    EDL.extract_segments tool input_video ranges segments_dir w = (Return segments, done) /\
    PV.extract_segments tool input_video ranges segments_dir w = (Return paths, done) /\
    List.length segments = List.length ranges /\
    List.length paths = List.length ranges /\
    (forall i r, nth_error ranges i = Some r ->
       nth_error segments i =
         Some {| EDL.filename := segment_name (Z.of_nat i + 1);
                 EDL.start := fst r; EDL.end_ := snd r |} /\
       nth_error paths i =
         Some (path_join segments_dir (segment_name (Z.of_nat i + 1)))) /\
    segment_name 7 = "segment_007.mov" /\
    segment_name 120 = "segment_120.mov".
Proof.
  intros H done. exists (edl_segments 1 ranges), (pv_paths segments_dir 1 ranges).
  pose proof (edl_loop_succeeding ranges [] 1 [] (with_dir segments_dir w) H) as He.
  pose proof (pv_loop_succeeding ranges [] 1 [] (with_dir segments_dir w) H) as Hp.
  rewrite app_nil_r in He, Hp. cbn [app EDL.extract_loop PV.extract_loop] in He, Hp.
  repeat split.
  - unfold EDL.extract_segments, bind at 1, makedirs. exact He.
  - unfold PV.extract_segments, bind at 1, makedirs. exact Hp.
  - apply edl_segments_length.
  - apply pv_paths_length.
  - rewrite (edl_segments_nth ranges 1 i r) by (assumption || lia).
    do 3 f_equal. lia.
  - rewrite (pv_paths_nth ranges 1 i r) by (assumption || lia).
    do 3 f_equal. lia.
Qed.

(** The run up to a failing trim: the trims before it succeed, the failing
    one is started, and the branch for a failed command ends the call. *)
Lemma edl_extract_fail (pre : list (string * string)) (r : string * string)
    (post : list (string * string)) (w : World) :
  all_succeed tool (trims input_video segments_dir 1 pre) = true ->
  returncode (tool (trim_of input_video segments_dir (1 + Z.of_nat (List.length pre)) r)) <> 0 ->
  EDL.extract_segments tool input_video (pre ++ r :: post) segments_dir w =
  (failure_end (tool (trim_of input_video segments_dir (1 + Z.of_nat (List.length pre)) r)),
   after_failed tool input_video segments_dir pre r w).
Proof.
  intros H Hr. apply Z.eqb_neq in Hr. destruct r as [a b].
  unfold EDL.extract_segments, bind at 1, makedirs.
  rewrite (edl_loop_succeeding pre ((a, b) :: post) 1 [] _ H).
  cbn [EDL.extract_loop]. unfold bind at 1. unfold print at 1.
  unfold bind at 1. unfold subprocess_run at 1. unfold bind at 1.
  change (trim_cmd input_video a b
            (path_join segments_dir
               ("segment_" +:+ format_0 3 (1 + Z.of_nat (List.length pre)) +:+ ".mov")))
    with (trim_of input_video segments_dir (1 + Z.of_nat (List.length pre)) (a, b)).
  rewrite Hr. cbn [negb]. unfold bind at 1. unfold lift at 1.
  unfold failure_end, after_failed, error_lines.
  destruct (decode (stderr (tool (trim_of input_video segments_dir
                                    (1 + Z.of_nat (List.length pre)) (a, b)))))
    as [diagnostic|e].
  - unfold bind at 1. unfold print at 1. unfold sys_exit. reflexivity.
  - cbn [files dirs stdout procs fst snd]. now rewrite app_nil_r.
Qed.

Lemma pv_extract_fail (pre : list (string * string)) (r : string * string)
    (post : list (string * string)) (w : World) :
  all_succeed tool (trims input_video segments_dir 1 pre) = true ->
  returncode (tool (trim_of input_video segments_dir (1 + Z.of_nat (List.length pre)) r)) <> 0 ->
  PV.extract_segments tool input_video (pre ++ r :: post) segments_dir w =
  (failure_end (tool (trim_of input_video segments_dir (1 + Z.of_nat (List.length pre)) r)),
   after_failed tool input_video segments_dir pre r w).
Proof.
  intros H Hr. apply Z.eqb_neq in Hr. destruct r as [a b].
  unfold PV.extract_segments, bind at 1, makedirs.
  rewrite (pv_loop_succeeding pre ((a, b) :: post) 1 [] _ H).
  cbn [PV.extract_loop]. unfold bind at 1. unfold print at 1.
  unfold bind at 1. unfold subprocess_run at 1. unfold bind at 1.
  change (trim_cmd input_video a b
            (path_join segments_dir
               ("segment_" +:+ format_0 3 (1 + Z.of_nat (List.length pre)) +:+ ".mov")))
    with (trim_of input_video segments_dir (1 + Z.of_nat (List.length pre)) (a, b)).
  rewrite Hr. cbn [negb]. unfold bind at 1. unfold lift at 1.
  unfold failure_end, after_failed, error_lines.
  destruct (decode (stderr (tool (trim_of input_video segments_dir
                                    (1 + Z.of_nat (List.length pre)) (a, b)))))
    as [diagnostic|e].
  - unfold bind at 1. unfold print at 1. unfold sys_exit. reflexivity.
  - cbn [files dirs stdout procs fst snd]. now rewrite app_nil_r.
Qed.


End Extractor.

Lemma one_segment_per_range_witness :
  Srt.all_succeed Sample.obliging (Srt.trims "IMG_0106.mov" "segments" 1 Sample.three_ranges) = true /\
  exists segments paths,
    fst (EDL.extract_segments Sample.obliging "IMG_0106.mov" Sample.three_ranges
           "segments" Sample.empty_world) = Sys.Return segments /\
    fst (PV.extract_segments Sample.obliging "IMG_0106.mov" Sample.three_ranges
           "segments" Sample.empty_world) = Sys.Return paths /\
    List.length segments = 3%nat /\
    paths = ["segments/segment_001.mov"; "segments/segment_002.mov";
             "segments/segment_003.mov"].
Proof.
  assert (H : Srt.all_succeed Sample.obliging
                (Srt.trims "IMG_0106.mov" "segments" 1 Sample.three_ranges) = true)
    by (vm_compute; reflexivity).
  split; [exact H|].
  destruct (one_segment_per_range Sample.obliging "IMG_0106.mov" "segments"
              Sample.three_ranges Sample.empty_world H)
    as (segments & paths & He & Hp & Hl & _).
  exists segments, paths. rewrite He, Hp. repeat split; [exact Hl|].
  vm_compute in Hp. now injection Hp.
Defined.



(* ================================================================== *)
(** * Files written: the edit decision list and the manifest *)
(* ================================================================== *)

Section Writers.

Import Py Srt Sys.

Lemma only_file_changed_refl (path : string) (w : World) : only_file_changed path w w.
Proof. unfold only_file_changed. auto. Qed.

Lemma only_file_changed_set (path text : string) (w w' : World) :
  only_file_changed path w w' -> only_file_changed path w (set_file path text w').
Proof.
  intros (Hf & Hd & Ho & Hp). repeat split; cbn; try assumption.
  intros p Hne. rewrite (proj2 (String.eqb_neq p path) Hne). now apply Hf.
Qed.

Lemma set_file_same (path text : string) (w : World) :
  files (set_file path text w) path = Some (Utf8 text).
Proof. cbn. now rewrite String.eqb_refl. Qed.

Lemma is_time_stamp (t : string) :
  is_time t = true -> exists st, stamp_ok st = true /\ t = stamp_text "." st.
Proof.
  unfold is_time, time_classes. intros H.
  repeat match type of H with
         | Re.fits (_ :: _) _ = true =>
             apply fits_cons in H; destruct H as (? & ? & -> & ? & H);
             cbn [Re.cls_match] in *
         end.
  apply fits_nil in H; subst.
  repeat match goal with E : Ascii.eqb _ _ = true |- _ =>
           apply Ascii.eqb_eq in E; subst end.
  match goal with
  | |- exists _, _ /\ String ?a (String ?b (String _ (String ?c (String ?d (String _
         (String ?e (String ?f (String _ (String ?g (String ?h (String ?i
         EmptyString))))))))))) = _ =>
      exists {| hh := String a (String b ""); mm := String c (String d "");
                ss := String e (String f "");
                ms := String g (String h (String i "")) |}
  end.
  split; [|reflexivity].
  unfold stamp_ok, digits. cbn -[is_digit].
  repeat match goal with E : _ = true |- _ => rewrite E; clear E end.
  reflexivity.
Qed.

(** On a parser's time the formatter returns, and [timecode] is its value. *)
Lemma timecode_ok (t : string) :
  is_time t = true -> EDL.format_time_for_edl t = Ok (timecode t).
Proof.
  intros H. apply is_time_stamp in H as (st & Hst & ->).
  unfold timecode. now rewrite (format_time_stamp st Hst).
Qed.

(** The loop of [generate_edl] appends the event lines to the file. *)
Lemma edl_loop_appends (edl_path : string) (segments : list EDL.Segment) :
  forall (idx : Z) (w : World) (old : string),
    0 <= idx ->
    forallb timed segments = true ->
    files w edl_path = Some (Utf8 old) ->
    exists w',
      EDL.edl_loop edl_path idx segments w = (Return tt, w') /\
      files w' edl_path =
        Some (Utf8 (old +:+ join (map event_line (events idx segments)))) /\
      only_file_changed edl_path w w'.
Proof.
  induction segments as [|seg rest IH]; intros idx w old Hidx Ht Hold.
  - exists w. cbn. rewrite sapp_nil_r. repeat split; assumption.
  - cbn [forallb] in Ht. apply andb_prop in Ht as [Hseg Ht].
    unfold timed in Hseg. apply andb_prop in Hseg as [Hs He].
    pose (text := old +:+ format_0 3 idx +:+ "  AX       V     C        " +:+
                  timecode (EDL.start seg) +:+ " " +:+ timecode (EDL.end_ seg) +:+ " " +:+
                  timecode (EDL.start seg) +:+ " " +:+ timecode (EDL.end_ seg) +:+ nl).
    destruct (IH (idx + 1) (set_file edl_path text w) text ltac:(lia) Ht
                (set_file_same _ _ _)) as (w' & Hrun & Hfile & Hsame).
    exists w'. split; [|split].
    + cbn [EDL.edl_loop]. unfold bind, lift, write.
      rewrite (timecode_ok _ Hs), (timecode_ok _ He), Hold. exact Hrun.
    + rewrite Hfile. do 2 f_equal. cbn [events map join]. subst text.
      unfold event_line, event_of.
      cbn [record_number reel track edit source_in source_out record_in record_out].
      rewrite (format_0_zero_pad3 idx Hidx), !sapp_assoc. reflexivity.
    + destruct Hsame as (Hf & Hd & Ho & Hp). repeat split; try assumption.
      intros p Hne. rewrite (Hf p Hne). cbn.
      apply String.eqb_neq in Hne. now rewrite Hne.
Qed.

Lemma events_length (idx : Z) (segments : list EDL.Segment) :
  List.length (events idx segments) = List.length segments.
Proof.
  revert idx; induction segments as [|s rest IH]; intros idx; cbn [events List.length];
    [reflexivity | now rewrite IH].
Qed.

Lemma events_nth (segments : list EDL.Segment) :
  forall (idx : Z) (i : nat) (segment : EDL.Segment),
    nth_error segments i = Some segment ->
    nth_error (events idx segments) i = Some (event_of (idx + Z.of_nat i) segment).
Proof.
  induction segments as [|s rest IH]; intros idx [|i] segment H; cbn in H;
    try discriminate.
  - injection H as ->. cbn [events nth_error Z.of_nat]. now rewrite Z.add_0_r.
  - cbn [events nth_error]. rewrite (IH (idx + 1) i segment H).
    do 2 f_equal. lia.
Qed.

Lemma forallb_nth_error {A : Type} (p : A -> bool) (l : list A) (i : nat) (x : A) :
  forallb p l = true -> nth_error l i = Some x -> p x = true.
Proof.
  intros H Hn. rewrite forallb_forall in H. apply H. eapply nth_error_In, Hn.
Qed.

(** C7.  For segments whose start and end are times as the parser writes
    them, [generate_edl] writes the title line, the frame-mode line and an
    empty line, and then one event line per segment, in the order of the
    segments: the record number is the ordinal with three digits, the reel
    is [AX], the track [V], the edit [C]; source-in and record-in are the
    timecode [format_time_for_edl] gives for the segment's start, source-out
    and record-out the one it gives for the segment's end. *)
Theorem generate_edl_writes_events
    (segments : list EDL.Segment) (edl_path original_video : string) (w : World) :
  forallb timed segments = true ->
  exists w',
    EDL.generate_edl segments edl_path original_video w = (Return tt, w') /\
    files w' edl_path =
      Some (Utf8 (edl_header +:+ join (map event_line (events 1 segments)))) /\
    List.length (events 1 segments) = List.length segments /\
    (forall i segment, nth_error segments i = Some segment ->
       exists tc_in tc_out,
         EDL.format_time_for_edl (EDL.start segment) = Ok tc_in /\
         EDL.format_time_for_edl (EDL.end_ segment) = Ok tc_out /\
         nth_error (events 1 segments) i =
           Some {| record_number := zero_pad3 (Z.of_nat i + 1);
                   reel := "AX"; track := "V"; edit := "C";
                   source_in := tc_in; source_out := tc_out;
                   record_in := tc_in; record_out := tc_out |}) /\
    (forall p, p <> edl_path -> files w' p = files w p) /\
    procs w' = procs w /\
    stdout w' = stdout w ++ ["EDL file created at " +:+ edl_path].
Proof.
  intros Ht.
  pose (w2 := set_file edl_path edl_header
                (set_file edl_path ("TITLE: Extracted Segments EDL" +:+ nl)
                   (set_file edl_path "" w))).
  destruct (edl_loop_appends edl_path segments 1 w2 edl_header ltac:(lia) Ht
              (set_file_same _ _ _)) as (w3 & Hrun & Hfile & Hsame).
  destruct Hsame as (Hf & Hd & Ho & Hp).
  exists {| files := files w3; dirs := dirs w3;
            stdout := stdout w3 ++ ["EDL file created at " +:+ edl_path];
            procs := procs w3 |}.
  split; [|split; [|split; [|split; [|split; [|split]]]]].
  - unfold EDL.generate_edl, bind at 1, open_w at 1.
    unfold bind at 1, write at 1. rewrite set_file_same.
    unfold bind at 1, write at 1. rewrite set_file_same.
    unfold bind at 1.
    change (set_file edl_path _ (set_file edl_path _ (set_file edl_path "" w))) with w2.
    rewrite Hrun. reflexivity.
  - exact Hfile.
  - apply events_length.
  - intros i segment Hn.
    pose proof (forallb_nth_error _ _ _ _ Ht Hn) as Hseg.
    unfold timed in Hseg. apply andb_prop in Hseg as [Hs He].
    exists (timecode (EDL.start segment)), (timecode (EDL.end_ segment)).
    split; [now apply timecode_ok|]. split; [now apply timecode_ok|].
    rewrite (events_nth _ 1 i segment Hn). unfold event_of.
    now replace (1 + Z.of_nat i) with (Z.of_nat i + 1) by lia.
  - intros p Hne. cbn [files]. rewrite (Hf p Hne). unfold w2. cbn.
    now rewrite (proj2 (String.eqb_neq p edl_path) Hne).
  - cbn [procs]. now rewrite Hp.
  - cbn [stdout]. now rewrite Ho.
Qed.

(** Reading a quoted path back gives the path. *)
Lemma unquote_escaped (path rest : string) :
  unquote true (replace "'" PV.escaped_quote path +:+ String "'" rest) =
  path +:+ unquote false rest.
Proof.
  induction path as [|c path IH]; [reflexivity|].
  cbn [replace]. destruct (Ascii.eqb_spec c "'") as [->|Hne].
  - unfold PV.escaped_quote in *. cbn -[replace]. now rewrite IH.
  - cbn [append unquote]. apply Ascii.eqb_neq in Hne. now rewrite Hne, IH.
Qed.

Lemma unquote_quoted (path : string) : unquote false (quoted path) = path.
Proof.
  unfold quoted. cbn [append unquote Ascii.eqb Bool.eqb andb].
  rewrite unquote_escaped. cbn [unquote]. apply sapp_nil_r.
Qed.

(** The loop of [create_concat_list] appends the manifest lines. *)
Lemma concat_loop_appends (concat_list_path : string) (segments : list string) :
  forall (w : World) (old : string),
    files w concat_list_path = Some (Utf8 old) ->
    exists w',
      PV.concat_loop concat_list_path segments w = (Return tt, w') /\
      files w' concat_list_path =
        Some (Utf8 (old +:+ join (map manifest_line segments))) /\
      only_file_changed concat_list_path w w'.
Proof.
  induction segments as [|seg rest IH]; intros w old Hold.
  - exists w. cbn. rewrite sapp_nil_r. repeat split; assumption.
  - pose (text := old +:+ "file '" +:+ replace "'" PV.escaped_quote seg +:+ "'" +:+ nl).
    destruct (IH (set_file concat_list_path text w) text (set_file_same _ _ _))
      as (w' & Hrun & Hfile & Hsame).
    exists w'. split; [|split].
    + cbn [PV.concat_loop]. unfold bind, write. rewrite Hold. exact Hrun.
    + rewrite Hfile. do 2 f_equal. cbn [map join]. subst text.
      unfold manifest_line, quoted. rewrite !sapp_assoc. reflexivity.
    + destruct Hsame as (Hf & Hd & Ho & Hp). repeat split; try assumption.
      intros p Hne. rewrite (Hf p Hne). cbn.
      now rewrite (proj2 (String.eqb_neq p concat_list_path) Hne).
Qed.

Lemma nosep_replace (sep old : ascii) (new s : string) :
  nosep sep new = true -> nosep sep s = true -> nosep sep (replace old new s) = true.
Proof.
  intros Hn. induction s as [|c s IH]; cbn [nosep replace]; [reflexivity|]. intros H.
  apply andb_prop in H as [Hc H]. destruct (Ascii.eqb c old).
  - apply nosep_app; [assumption | now apply IH].
  - cbn [nosep]. now rewrite Hc, IH.
Qed.

Lemma nosep_quoted (path : string) :
  nosep LF path = true -> nosep LF ("file " +:+ quoted path) = true.
Proof.
  intros H. apply nosep_app; [reflexivity|]. unfold quoted.
  apply nosep_app; [reflexivity|]. apply nosep_app; [|reflexivity].
  now apply nosep_replace.
Qed.

(** Cut at its line feeds, a text made of lines is those lines, with
    nothing after the last line feed. *)
Lemma split_lines (lines : list string) :
  forallb (nosep LF) lines = true ->
  split LF (join (map (fun line => line +:+ nl) lines)) = lines ++ [""].
Proof.
  induction lines as [|line rest IH]; cbn [forallb map join app]; [reflexivity|].
  intros H. apply andb_prop in H as [Hl H].
  rewrite sapp_assoc. unfold nl at 1. cbn [append].
  rewrite (split_app LF line _ Hl). now rewrite (IH H).
Qed.

Lemma manifest_lines (segments : list string) :
  map manifest_line segments =
  map (fun line => line +:+ nl) (map (fun path => "file " +:+ quoted path) segments).
Proof.
  rewrite map_map. apply map_ext. intros path. unfold manifest_line.
  now rewrite !sapp_assoc.
Qed.

Lemma manifest_split (segments : list string) :
  forallb (nosep LF) segments = true ->
  split LF (join (map manifest_line segments)) =
  map (fun path => "file " +:+ quoted path) segments ++ [""].
Proof.
  intros H. rewrite manifest_lines. apply split_lines.
  rewrite forallb_forall in *. intros line Hin.
  apply in_map_iff in Hin as (path & <- & Hin). apply nosep_quoted. now apply H.
Qed.

(** C9.  For segment paths without a line feed, [create_concat_list] writes
    one manifest line per path, in the order of the paths and nothing else:
    cut at its line feeds the file is, for each path in turn, the word
    [file], a blank and the path between single quotes with each single
    quote of its own replaced by the four characters quote, backslash,
    quote, quote; nothing follows the last line feed.  Read back as a quoted
    token, what stands between the blank and the line feed is the path. *)
Theorem create_concat_list_quotes_paths
    (segments : list string) (concat_list_path : string) (w : World) :
  forallb (nosep LF) segments = true ->
  exists w',
    PV.create_concat_list segments concat_list_path w = (Return tt, w') /\
    files w' concat_list_path = Some (Utf8 (join (map manifest_line segments))) /\
    split LF (join (map manifest_line segments)) =
      map (fun path => "file " +:+ quoted path) segments ++ [""] /\
    List.length (map (fun path => "file " +:+ quoted path) segments)
    = List.length segments /\
    Forall (fun path =>
              manifest_line path = "file " +:+ quoted path +:+ nl /\
              quoted path = "'" +:+ replace "'" "'\''" path +:+ "'" /\
              unquote false (quoted path) = path)
           segments /\
    (forall p, p <> concat_list_path -> files w' p = files w p) /\
    procs w' = procs w /\
    stdout w' = stdout w ++ ["Created concatenation list at " +:+ concat_list_path].
Proof.
  intros Hlf.
  destruct (concat_loop_appends concat_list_path segments
              (set_file concat_list_path "" w) "" (set_file_same _ _ _))
    as (w2 & Hrun & Hfile & Hf & Hd & Ho & Hp).
  exists {| files := files w2; dirs := dirs w2;
            stdout := stdout w2 ++ ["Created concatenation list at " +:+ concat_list_path];
            procs := procs w2 |}.
  split; [|split; [|split; [|split; [|split; [|split; [|split]]]]]].
  - unfold PV.create_concat_list, bind at 1, open_w at 1.
    unfold bind at 1. rewrite Hrun. reflexivity.
  - exact Hfile.
  - now apply manifest_split.
  - apply length_map.
  - apply Forall_forall. intros path _.
    split; [reflexivity|]. split; [reflexivity | apply unquote_quoted].
  - intros p Hne. cbn [files]. rewrite (Hf p Hne). cbn.
    now rewrite (proj2 (String.eqb_neq p concat_list_path) Hne).
  - cbn [procs]. now rewrite Hp.
  - cbn [stdout]. now rewrite Ho.
Qed.

End Writers.

Lemma generate_edl_writes_events_witness :
  forallb Srt.timed Sample.two_segments = true /\
  exists w',
    EDL.generate_edl Sample.two_segments "segments.edl" "IMG_0106.mov" Sample.empty_world
      = (Sys.Return tt, w') /\
    Sys.files w' "segments.edl" =
      Some (Py.Utf8
              ("TITLE: Extracted Segments EDL" +:+ nl +:+
               "FCM: NON-DROP FRAME" +:+ nl +:+ nl +:+
               "001  AX       V     C        00:00:10:00 00:00:20:00 00:00:10:00 00:00:20:00"
               +:+ nl +:+
               "002  AX       V     C        00:01:00:00 00:01:15:15 00:01:00:00 00:01:15:15"
               +:+ nl)).
Proof.
  assert (H : forallb Srt.timed Sample.two_segments = true) by (vm_compute; reflexivity).
  split; [exact H|].
  destruct (generate_edl_writes_events Sample.two_segments "segments.edl" "IMG_0106.mov"
              Sample.empty_world H) as (w' & Hrun & Hfile & _).
  exists w'. split; [exact Hrun|]. rewrite Hfile. vm_compute. reflexivity.
Defined.

Lemma create_concat_list_quotes_paths_witness :
  forallb (Srt.nosep LF) Sample.quoted_paths = true /\
  exists w',
    PV.create_concat_list Sample.quoted_paths "concat_list.txt" Sample.empty_world
      = (Sys.Return tt, w') /\
    Py.split LF (Srt.join (map Srt.manifest_line Sample.quoted_paths)) =
      map (fun path => "file " +:+ Srt.quoted path) Sample.quoted_paths ++ [""].
Proof.
  assert (H : forallb (Srt.nosep LF) Sample.quoted_paths = true)
    by (vm_compute; reflexivity).
  split; [exact H|].
  destruct (create_concat_list_quotes_paths Sample.quoted_paths "concat_list.txt"
              Sample.empty_world H) as (w' & Hrun & _ & Hlines & _).
  exists w'. split; [exact Hrun | exact Hlines].
Defined.

(** A path with a line feed in it takes two lines of the manifest. *)
Lemma line_feed_in_path_counterexample :
  fst (PV.create_concat_list [Sample.broken_path] "concat_list.txt" Sample.empty_world)
  = Sys.Return tt /\
  Sys.files (snd (PV.create_concat_list [Sample.broken_path] "concat_list.txt"
                    Sample.empty_world)) "concat_list.txt"
  = Some (Py.Utf8 ("file 'seg" +:+ nl +:+ "ment.mov'" +:+ nl)) /\
  Py.split LF ("file 'seg" +:+ nl +:+ "ment.mov'" +:+ nl)
  = ["file 'seg"; "ment.mov'"; ""] /\
  List.length [Sample.broken_path] = 1%nat.
Proof. vm_compute. repeat split. Qed.

(* ================================================================== *)
(** * The two parsers side by side *)
(* ================================================================== *)

Section TwoPatterns.

Import Re.

Variables ts1 ts2 : list token.
Hypothesis same_classes : classes ts1 = classes ts2.
Hypothesis nonempty1 : classes ts1 <> [].

Lemma nonempty2 : classes ts2 <> [].
Proof. now rewrite <- same_classes. Qed.

Lemma match_tokens_same (s r : string) (gs : list string) :
  match_tokens ts1 s = Some (gs, r) ->
  exists m, s = m +:+ r /\ fits (classes ts1) m = true /\
            gs = captures ts1 m /\
            match_tokens ts2 s = Some (captures ts2 m, r).
Proof.
  intros H. apply match_tokens_inv in H as (m & -> & Hf & ->).
  exists m. repeat split; try assumption.
  apply match_tokens_fits. now rewrite <- same_classes.
Qed.

Lemma match_tokens_none (s : string) :
  match_tokens ts1 s = None -> match_tokens ts2 s = None.
Proof.
  intros H. destruct (match_tokens ts2 s) as [[gs r]|] eqn:E; [|reflexivity].
  apply match_tokens_inv in E as (m & -> & Hf & _).
  rewrite <- same_classes in Hf.
  rewrite (match_tokens_fits ts1 m r Hf) in H. discriminate.
Qed.

(** Patterns with the same classes find the same texts. *)
Lemma findall_same_texts (s : string) :
  exists ms,
    Forall (fun m => fits (classes ts1) m = true) ms /\
    findall ts1 s = map (captures ts1) ms /\
    findall ts2 s = map (captures ts2) ms.
Proof.
  remember (length s) as n eqn:Hn. revert s Hn.
  induction n as [n IH] using lt_wf_ind. intros s Hn.
  destruct (match_tokens ts1 s) as [[gs r]|] eqn:E.
  - destruct (match_tokens_same _ _ _ E) as (m & Hs & Hf & Hg & E2).
    pose proof (match_shorter ts1 nonempty1 _ _ _ E) as Hr.
    destruct (IH (length r) ltac:(lia) r eq_refl) as (ms & Hall & H1 & H2).
    exists (m :: ms). split; [now constructor|].
    rewrite (findall_match ts1 nonempty1 _ _ _ E).
    rewrite (findall_match ts2 nonempty2 _ _ _ E2).
    cbn [map]. now rewrite H1, H2, Hg.
  - destruct s as [|c s].
    + exists []. rewrite (findall_empty ts1 nonempty1), (findall_empty ts2 nonempty2).
      now repeat split.
    + simpl in Hn.
      destruct (IH (length s) ltac:(lia) s eq_refl) as (ms & Hall & H1 & H2).
      exists ms. split; [assumption|].
      rewrite (findall_skip ts1 nonempty1 _ _ E).
      rewrite (findall_skip ts2 nonempty2 _ _ (match_tokens_none _ E)).
      now split.
Qed.

(** Every match takes its characters: the matches fit into the text. *)
Lemma findall_length (s : string) :
  (List.length (findall ts1 s) * List.length (classes ts1) <= length s)%nat.
Proof.
  remember (length s) as n eqn:Hn. revert s Hn.
  induction n as [n IH] using lt_wf_ind. intros s Hn.
  destruct (match_tokens ts1 s) as [[gs r]|] eqn:E.
  - rewrite (findall_match ts1 nonempty1 _ _ _ E).
    pose proof (match_shorter ts1 nonempty1 _ _ _ E) as Hr.
    pose proof (IH (length r) ltac:(lia) r eq_refl) as Hrest.
    apply match_tokens_inv in E as (m & -> & Hf & _).
    apply fits_length in Hf. rewrite slength_app in Hn. cbn [List.length]. lia.
  - destruct s as [|c s].
    + rewrite (findall_empty ts1 nonempty1). cbn. lia.
    + rewrite (findall_skip ts1 nonempty1 _ _ E). simpl in Hn.
      pose proof (IH (length s) ltac:(lia) s eq_refl). lia.
Qed.

End TwoPatterns.

Section ParserFacts.

Import Re Py Srt.

(** Both scripts read the same entries off any text. *)
Lemma parse_both (content : string) :
  exists cs,
    Forall (fun c => cue_ok c = true) cs /\
    PV.parse_srt_content content = map range_of cs /\
    EDL.parse_srt_content content =
      map range_of match cs with
                   | c :: rest => if first_minute c then rest else cs
                   | [] => []
                   end.
Proof.
  destruct (findall_same_texts EDL.pattern PV.pattern eq_refl ltac:(discriminate) content)
    as (ms & Hall & He & Hp).
  assert (Hcs : exists cs, Forall (fun c => cue_ok c = true) cs /\
                           map (captures EDL.pattern) ms = map groups8 cs /\
                           map (captures PV.pattern) ms = map groups4 cs).
  { clear He Hp. induction Hall as [|m ms Hm _ IH].
    - now exists [].
    - destruct IH as (cs & Hok & H8 & H4).
      apply fits_cue_inv in Hm as (c & Hc & ->).
      exists (c :: cs). split; [now constructor|]. cbn [map].
      split; (f_equal; [|assumption]); [apply captures_edl | apply captures_pv];
        exact Hc. }
  destruct Hcs as (cs & Hok & H8 & H4). rewrite H8 in He. rewrite H4 in Hp.
  exists cs. split; [assumption|]. split.
  - unfold PV.parse_srt_content. rewrite Hp.
    assert (Hmap : map (fun m => (item m 0 +:+ "." +:+ item m 1,
                                  item m 2 +:+ "." +:+ item m 3)) (map groups4 cs)
                   = map range_of cs).
    { rewrite map_map. apply map_ext. intros c. apply pv_range_groups. }
    destruct cs as [|c rest]; [reflexivity|].
    cbn [map] in *. rewrite (pv_first_group c (Forall_inv Hok)). cbn [andb].
    exact Hmap.
  - unfold EDL.parse_srt_content. rewrite He.
    assert (Hmap : forall l : list Cue,
               map (fun m =>
                      (item m 0 +:+ ":" +:+ item m 1 +:+ ":" +:+ item m 2 +:+ "." +:+ item m 3,
                       item m 4 +:+ ":" +:+ item m 5 +:+ ":" +:+ item m 6 +:+ "." +:+ item m 7))
                   (map groups8 l) = map range_of l).
    { intros l. rewrite map_map. apply map_ext. intros c. apply edl_range_groups. }
    destruct cs as [|c rest]; [reflexivity|].
    cbn [map].
    replace (forallb (fun part => String.eqb part "00") (firstn 2 (groups8 c)))
      with (first_minute c)
      by (unfold first_minute, groups8; cbn [firstn forallb]; now rewrite andb_true_r).
    destruct (first_minute c); [apply Hmap | apply (Hmap (c :: rest))].
Qed.

(** The start of a range shows whether its entry starts in the first minute. *)
Lemma range_in_first_minute (c : Cue) :
  cue_ok c = true -> in_first_minute (fst (range_of c)) = first_minute c.
Proof.
  intros H. apply cue_ok_inv in H as (H & _). apply stamp_ok_inv in H as (Hh & Hm & _).
  apply digits2_inv in Hh as (a & b & Eh & _). apply digits2_inv in Hm as (x & y & Em & _).
  unfold range_of, stamp_text, first_minute, in_first_minute. cbn [fst].
  destruct (cue_start c) as [h m s f]. cbn [hh mm ss ms] in *. subst h m.
  cbn [append take String.eqb]. rewrite !Ascii.eqb_refl.
  now destruct (Ascii.eqb a "0"), (Ascii.eqb b "0"), (Ascii.eqb x "0"), (Ascii.eqb y "0").
Qed.

End ParserFacts.

(* ================================================================== *)
(** * More on the parser and the formatter *)
(* ================================================================== *)

Section ParserExtras.

Import Re Py Srt.

(** X1.  On any text the first script returns what the second returns,
    less the first range when that range starts with [00:00:]. *)
Theorem edl_is_pv_less_first_minute (content : string) :
  EDL.parse_srt_content content =
  match PV.parse_srt_content content with
  | r :: rest => if in_first_minute (fst r) then rest else r :: rest
  | [] => []
  end.
Proof.
  destruct (parse_both content) as (cs & Hok & -> & ->).
  destruct cs as [|c rest]; [reflexivity|]. cbn [map].
  rewrite (range_in_first_minute c (Forall_inv Hok)).
  now destruct (first_minute c).
Qed.

(** X2.  On well-formed text the second script returns the range of every
    entry, in the order of the text, whatever the start of the first entry:
    its placeholder test compares the eight characters [HH:MM:SS] with [00]
    and never holds. *)
Theorem pv_keeps_every_entry (entries : list (string * Cue)) (tail : string) :
  well_formed entries tail = true ->
  PV.parse_srt_content (render entries tail) = map (fun e => range_of (snd e)) entries /\
  List.length (PV.parse_srt_content (render entries tail)) = List.length entries.
Proof.
  intros H. rewrite (pv_parse_render _ _ H). split; [reflexivity | apply length_map].
Qed.

Lemma is_time_stamp_text (t : Stamp) :
  stamp_ok t = true -> is_time (stamp_text "." t) = true.
Proof.
  intros H. destruct (stamp_ok_inv t H) as (Hh & Hm & Hs & Hf).
  destruct t as [h m s f]. cbn [hh mm ss ms] in *.
  apply digits2_inv in Hh as (? & ? & -> & ? & ?).
  apply digits2_inv in Hm as (? & ? & -> & ? & ?).
  apply digits2_inv in Hs as (? & ? & -> & ? & ?).
  apply digits3_inv in Hf as (? & ? & ? & -> & ? & ? & ?).
  unfold is_time, time_classes, stamp_text. cbn -[is_digit].
  repeat match goal with E : is_digit _ = true |- _ => rewrite E; clear E end.
  reflexivity.
Qed.

Lemma digits_length (n : nat) (s : string) : digits n s = true -> length s = n.
Proof.
  unfold digits. intros H. apply andb_prop in H as [H _]. now apply Nat.eqb_eq.
Qed.

(** The timecode of a parser's time has eleven characters. *)
Lemma timecode_length (t : Stamp) :
  stamp_ok t = true ->
  exists tc, EDL.format_time_for_edl (stamp_text "." t) = Ok tc /\ length tc = 11%nat.
Proof.
  intros H. rewrite (format_time_stamp t H). eexists. split; [reflexivity|].
  apply stamp_ok_inv in H as (Hh & Hm & Hs & Hf).
  destruct (field3 _ Hf) as (_ & Hb & _).
  pose proof (frames_range _ Hb) as Hr.
  destruct (pad2 (dec (ms t) * 30 / 1000) ltac:(lia)) as [Hd _].
  apply digits_length in Hh, Hm, Hs, Hd.
  rewrite !slength_app, Hh, Hm, Hs, Hd. reflexivity.
Qed.

(** X3.  Both ends of every range either script returns have the form
    [HH:MM:SS.mmm], and [format_time_for_edl] returns on them, with a
    timecode of eleven characters: it raises on nothing the parser hands on. *)
Theorem parsed_times_format (content : string) (r : string * string) :
  In r (EDL.parse_srt_content content) \/ In r (PV.parse_srt_content content) ->
  is_time (fst r) = true /\ is_time (snd r) = true /\
  exists tc_in tc_out,
    EDL.format_time_for_edl (fst r) = Ok tc_in /\
    EDL.format_time_for_edl (snd r) = Ok tc_out /\
    length tc_in = 11%nat /\ length tc_out = 11%nat.
Proof.
  intros H.
  assert (Hc : exists c, cue_ok c = true /\ r = range_of c).
  { destruct H as [H|H]; [apply edl_parse_In in H | apply pv_parse_In in H];
      destruct H as (c & Hc & _ & ->); now exists c. }
  destruct Hc as (c & Hc & ->). apply cue_ok_inv in Hc as (Hs & _ & _ & He).
  unfold range_of. cbn [fst snd].
  split; [now apply is_time_stamp_text|]. split; [now apply is_time_stamp_text|].
  destruct (timecode_length _ Hs) as (a & Ha & La).
  destruct (timecode_length _ He) as (b & Hb & Lb).
  now exists a, b.
Qed.

(** X4.  Every range takes the 29 characters of a timestamp pair, and the
    pairs do not overlap: 29 times the number of ranges is at most the
    length of the text, in either script. *)
Theorem ranges_fit_in_text (content : string) :
  (29 * List.length (EDL.parse_srt_content content) <= length content)%nat /\
  (29 * List.length (PV.parse_srt_content content) <= length content)%nat.
Proof.
  pose proof (findall_length EDL.pattern ltac:(discriminate) content) as He.
  pose proof (findall_length PV.pattern ltac:(discriminate) content) as Hp.
  change (List.length (classes EDL.pattern)) with 29%nat in He.
  change (List.length (classes PV.pattern)) with 29%nat in Hp.
  unfold EDL.parse_srt_content, PV.parse_srt_content. rewrite !length_map.
  split.
  - destruct (findall EDL.pattern content) as [|m0 rest]; [cbn; lia|].
    destruct (forallb _ _); cbn [List.length] in *; lia.
  - destruct (findall PV.pattern content) as [|m0 rest]; [cbn; lia|].
    destruct (_ && _); cbn [List.length] in *; lia.
Qed.

(** X5.  [format_time_for_edl] needs all of [HH:MM:SS.mmm].  With fewer than
    three fields between colons it raises [IndexError]; with no dot in the
    third field -- the seconds alone, or the comma form of the subtitle file
    -- it raises [ValueError]. *)
Theorem format_time_rejects_other_forms (t : Stamp) :
  stamp_ok t = true ->
  EDL.format_time_for_edl (hh t) = Err IndexError /\
  EDL.format_time_for_edl (hh t +:+ ":" +:+ mm t) = Err IndexError /\
  EDL.format_time_for_edl (hh t +:+ ":" +:+ mm t +:+ ":" +:+ ss t) = Err ValueError /\
  EDL.format_time_for_edl (stamp_text "," t) = Err ValueError.
Proof.
  intros H. apply stamp_ok_inv in H as (Hh & Hm & Hs & Hf).
  destruct (field2 _ Hh) as (Ih & _ & _). destruct (field2 _ Hm) as (Im & _ & _).
  apply digits_all_digits in Hh, Hm, Hs, Hf.
  assert (Nh : nosep ":" (hh t) = true) by now apply nosep_digits.
  assert (Nm : nosep ":" (mm t) = true) by now apply nosep_digits.
  assert (Ns : nosep ":" (ss t) = true) by now apply nosep_digits.
  assert (Ds : nosep "." (ss t) = true) by now apply nosep_digits.
  assert (Nc : nosep ":" (ss t +:+ String "," (ms t)) = true).
  { apply nosep_app; [assumption|]. cbn [nosep]. now rewrite nosep_digits. }
  assert (Dc : nosep "." (ss t +:+ String "," (ms t)) = true).
  { apply nosep_app; [assumption|]. cbn [nosep]. now rewrite nosep_digits. }
  unfold EDL.format_time_for_edl, stamp_text. cbn [append].
  repeat split.
  - rewrite (split_nosep _ _ Nh). cbn [item nth nth_error rbind]. now rewrite Ih.
  - rewrite (split_app _ _ _ Nh), (split_nosep _ _ Nm).
    cbn [item nth nth_error rbind]. rewrite Ih. cbn [rbind]. now rewrite Im.
  - rewrite (split_app _ _ _ Nh), (split_app _ _ _ Nm), (split_nosep _ _ Ns).
    cbn [item nth nth_error rbind]. rewrite Ih. cbn [rbind]. rewrite Im. cbn [rbind].
    now rewrite (split_nosep _ _ Ds).
  - rewrite (split_app _ _ _ Nh), (split_app _ _ _ Nm), (split_nosep _ _ Nc).
    cbn [item nth nth_error rbind]. rewrite Ih. cbn [rbind]. rewrite Im. cbn [rbind].
    now rewrite (split_nosep _ _ Dc).
Qed.

Lemma field4_all : forall s, digits 4 s = true -> field4_ok s = true.
Proof. apply digits_all. vm_compute. reflexivity. Qed.

(** X6.  With a millisecond field of four digits the formatter carries
    nothing into the seconds: hours, minutes and seconds are copied, and the
    frame field is the truncated float product, written with as many digits
    as it has.  That is [floor(ms * 30 / 1000)], up to 299, except for 4100
    and 8200 milliseconds, where the product falls short of 123 and 246 and
    the frame field is 122 and 245. *)
Theorem four_digit_millis_not_carried (h m s f : string) :
  digits 2 h = true -> digits 2 m = true -> digits 2 s = true -> digits 4 f = true ->
  let v := dec f in
  let frames := if (v =? 4100) || (v =? 8200) then v * 30 / 1000 - 1
                else v * 30 / 1000 in
  EDL.format_time_for_edl (h +:+ ":" +:+ m +:+ ":" +:+ s +:+ "." +:+ f) =
  Ok (h +:+ ":" +:+ m +:+ ":" +:+ s +:+ ":" +:+ format_0 2 frames) /\
  0 <= frames <= 299 /\
  (1000 <= v -> 30 <= frames).
Proof.
  intros Hh Hm Hs Hf v frames.
  destruct (field2 _ Hh) as (Ih & Bh & Fh). destruct (field2 _ Hm) as (Im & Bm & Fm).
  destruct (field2 _ Hs) as (Is & Bs & Fs).
  pose proof (field4_all _ Hf) as H4. unfold field4_ok in H4.
  destruct (int f) as [v'|] eqn:If; [|discriminate].
  repeat (apply andb_prop in H4 as [H4 ?]).
  apply Z.eqb_eq in H4. subst v'. fold v in If.
  destruct (float_of_int (dec f)) as [fm|] eqn:Cf; [|discriminate].
  destruct (int_of_float (fmul (fdiv fm f1000) EDL.f30)) as [fr|] eqn:Tf; [|discriminate].
  assert (Efr : fr = frames) by now apply Z.eqb_eq.
  subst fr.
  destruct (float_of_int_small (dec h * 3600 + dec m * 60 + dec s)) as [whole Hw]; [lia|].
  apply digits_all_digits in Hh, Hm, Hs, Hf.
  split; [|split].
  - unfold EDL.format_time_for_edl. cbn [append].
    rewrite !split_app by (apply nosep_digits; [reflexivity | assumption]).
    rewrite split_nosep.
    2:{ apply nosep_app; [now apply nosep_digits|].
        cbn [nosep]. now rewrite nosep_digits. }
    cbn [item nth nth_error rbind]. rewrite Ih. cbn [rbind]. rewrite Im. cbn [rbind].
    rewrite (split_app "." s f) by (apply nosep_digits; [reflexivity | assumption]).
    rewrite split_nosep by (apply nosep_digits; [reflexivity | assumption]).
    cbn [rbind fst snd]. rewrite Is. cbn [rbind]. rewrite If. cbn [rbind].
    fold v. unfold v at 1. rewrite Cf. cbn [rbind]. rewrite Hw. cbn [rbind].
    rewrite Tf. cbn [rbind]. now rewrite Fh, Fm, Fs.
  - assert (0 <= v < 10000) by lia.
    assert (0 <= v * 30 / 1000) by (apply Z.div_pos; lia).
    assert (v * 30 / 1000 < 300) by (apply Z.div_lt_upper_bound; lia).
    subst frames. destruct ((v =? 4100) || (v =? 8200)) eqn:E; [|lia].
    apply orb_prop in E as [E|E]; apply Z.eqb_eq in E; rewrite E; vm_compute;
      split; discriminate.
  - intros Hv. assert (30 <= v * 30 / 1000) by (apply Z.div_le_lower_bound; lia).
    subst frames. destruct ((v =? 4100) || (v =? 8200)) eqn:E; [|lia].
    apply orb_prop in E as [E|E]; apply Z.eqb_eq in E; rewrite E; vm_compute;
      discriminate.
Qed.

End ParserExtras.

(* ================================================================== *)
(** * Ordinals and file names *)
(* ================================================================== *)

Section Ordinals.

Import Py Srt.

Lemma dec_from_uint_acc (d : Decimal.uint) :
  forall p : positive,
    dec_from (Zpos p) (NilEmpty.string_of_uint d) = Zpos (Pos.of_uint_acc d p).
Proof.
  induction d as [|d IH|d IH|d IH|d IH|d IH|d IH|d IH|d IH|d IH|d IH]; intros p;
    [reflexivity|..]; cbn [NilEmpty.string_of_uint dec_from Pos.of_uint_acc];
    rewrite <- IH; f_equal;
    match goal with
    | |- context [digit_val ?c] =>
        let v := eval vm_compute in (digit_val c) in change (digit_val c) with v
    end; lia.
Qed.

Lemma dec_from_nilempty (d : Decimal.uint) :
  dec_from 0 (NilEmpty.string_of_uint d) = Z.of_N (Pos.of_uint d).
Proof.
  induction d as [|d IH|d IH|d IH|d IH|d IH|d IH|d IH|d IH|d IH|d IH];
    [reflexivity | exact IH |..];
    cbn [NilEmpty.string_of_uint dec_from Pos.of_uint];
    exact (dec_from_uint_acc d _).
Qed.

(** Reading the decimal text of a number gives the number. *)
Lemma dec_str (z : Z) : 0 <= z -> dec (str z) = z.
Proof.
  intros H. rewrite <- (DecimalZ.of_to z) at 2. unfold dec, str.
  destruct (Z.to_int z) as [d|d] eqn:E.
  - cbn [NilZero.string_of_int Z.of_int]. unfold Z.of_uint.
    destruct d; try apply dec_from_nilempty; reflexivity.
  - destruct z; cbn in E; try discriminate. lia.
Qed.

Lemma dec_from_zeros (n : nat) (s : string) :
  dec_from 0 (repeat_char "0" n +:+ s) = dec_from 0 s.
Proof. induction n as [|n IH]; [reflexivity | exact IH]. Qed.

(** Padding with zeros keeps the number. *)
Lemma dec_format_0 (width : nat) (z : Z) : 0 <= z -> dec (format_0 width z) = z.
Proof.
  intros H. unfold format_0. destruct (Z.ltb_spec z 0) as [|_]; [lia|].
  rewrite Z.abs_eq by assumption. cbn [append]. unfold dec.
  rewrite dec_from_zeros. now apply dec_str.
Qed.

Lemma sapp_inj_l (a b c : string) : a +:+ b = a +:+ c -> b = c.
Proof. induction a as [|x a IH]; cbn; [trivial|]. intros H. injection H. exact IH. Qed.

Lemma sapp_inj_r (a b c : string) : a +:+ c = b +:+ c -> a = b.
Proof.
  intros H. assert (Hl : length a = length b).
  { apply (f_equal length) in H. rewrite !slength_app in H. lia. }
  now destruct (sapp_inv_len _ _ _ _ Hl H).
Qed.

Lemma path_join_inj (a b c : string) : path_join a b = path_join a c -> b = c.
Proof.
  unfold path_join. destruct (rev a) as [|x r]; [trivial|].
  destruct (Ascii.eqb_spec x "/") as [->|Hne].
  - apply sapp_inj_l.
  - assert (E : forall y : string,
               match x with
               | "/"%char => a +:+ y
               | _ => a +:+ "/" +:+ y
               end = a +:+ "/" +:+ y).
    { intros y. destruct x as [[] [] [] [] [] [] [] []]; try reflexivity.
      now contradiction Hne. }
    rewrite !E. intros H. apply sapp_inj_l in H. now injection H.
Qed.

(** Segments with different ordinals have different names. *)
Lemma segment_file_inj (i j : Z) :
  0 <= i -> 0 <= j ->
  "segment_" +:+ format_0 3 i +:+ ".mov" = "segment_" +:+ format_0 3 j +:+ ".mov" ->
  i = j.
Proof.
  intros Hi Hj H. apply sapp_inj_l, sapp_inj_r in H.
  rewrite <- (dec_format_0 3 i Hi), <- (dec_format_0 3 j Hj). now rewrite H.
Qed.

Lemma pv_paths_In (dir : string) (ranges : list (string * string)) :
  forall (idx : Z) (p : string),
    In p (pv_paths dir idx ranges) ->
    exists j, idx <= j /\ p = path_join dir ("segment_" +:+ format_0 3 j +:+ ".mov").
Proof.
  induction ranges as [|r rest IH]; intros idx p H; [destruct H|].
  cbn [pv_paths] in H. destruct H as [<-|H].
  - exists idx. split; [lia | reflexivity].
  - apply IH in H as (j & Hj & ->). exists j. split; [lia | reflexivity].
Qed.

Lemma pv_paths_NoDup (dir : string) (ranges : list (string * string)) :
  forall idx : Z, 0 <= idx -> NoDup (pv_paths dir idx ranges).
Proof.
  induction ranges as [|r rest IH]; intros idx Hidx; [constructor|].
  cbn [pv_paths]. constructor; [|apply IH; lia].
  intros H. apply pv_paths_In in H as (j & Hj & E).
  apply path_join_inj, segment_file_inj in E; lia.
Qed.

Lemma edl_names_paths (idx : Z) (ranges : list (string * string)) :
  map EDL.filename (edl_segments idx ranges) = pv_paths "" idx ranges.
Proof.
  revert idx; induction ranges as [|r rest IH]; intros idx; [reflexivity|].
  cbn [edl_segments pv_paths map EDL.filename]. now rewrite IH.
Qed.

Lemma trims_outputs (input dir : string) (idx : Z) (ranges : list (string * string)) :
  map output_of (trims input dir idx ranges) = pv_paths dir idx ranges.
Proof.
  revert idx; induction ranges as [|r rest IH]; intros idx; [reflexivity|].
  cbn [trims pv_paths map]. now rewrite IH.
Qed.

Lemma trims_app (input dir : string) (pre post : list (string * string)) :
  forall idx : Z,
    trims input dir idx (pre ++ post) =
    trims input dir idx pre ++ trims input dir (idx + Z.of_nat (List.length pre)) post.
Proof.
  induction pre as [|r pre IH]; intros idx.
  - cbn. now rewrite Z.add_0_r.
  - cbn [app trims List.length]. rewrite IH. do 3 f_equal. lia.
Qed.

Lemma trims_length (input dir : string) (idx : Z) (ranges : list (string * string)) :
  List.length (trims input dir idx ranges) = List.length ranges.
Proof.
  revert idx; induction ranges as [|r rest IH]; intros idx; cbn [trims List.length];
    [reflexivity | now rewrite IH].
Qed.

End Ordinals.

(* ================================================================== *)
(** * The extractor under any tool *)
(* ================================================================== *)

Section ExtractorRuns.

Import Py Srt Sys.

Variable tool : list string -> CompletedProcess.
Variables input_video segments_dir : string.

(** Either every trim succeeds or there is a first one that fails. *)
Lemma first_failure (ranges : list (string * string)) :
  forall idx : Z,
    all_succeed tool (trims input_video segments_dir idx ranges) = true \/
    exists pre r post,
      ranges = pre ++ r :: post /\
      all_succeed tool (trims input_video segments_dir idx pre) = true /\
      returncode (tool (trim_of input_video segments_dir
                          (idx + Z.of_nat (List.length pre)) r)) <> 0.
Proof.
  induction ranges as [|r rest IH]; intros idx; [now left|].
  destruct (Z.eqb_spec (returncode (tool (trim_of input_video segments_dir idx r))) 0)
    as [E|E].
  - destruct (IH (idx + 1)) as [H|(pre & r' & post & -> & Hpre & Hr)].
    + left. cbn [trims all_succeed forallb]. apply andb_true_intro. split.
      * now apply Z.eqb_eq.
      * exact H.
    + right. exists (r :: pre), r', post. split; [reflexivity|]. split.
      * cbn [trims all_succeed forallb]. apply andb_true_intro. split.
        -- now apply Z.eqb_eq.
        -- exact Hpre.
      * cbn [List.length]. replace (idx + Z.of_nat (S (List.length pre)))
          with (idx + 1 + Z.of_nat (List.length pre)) by lia. exact Hr.
  - right. exists [], r, rest. split; [reflexivity|]. split; [reflexivity|].
    cbn [List.length Z.of_nat]. now rewrite Z.add_0_r.
Qed.

Lemma edl_extract_ok (ranges : list (string * string)) (w : World) :
  all_succeed tool (trims input_video segments_dir 1 ranges) = true ->
  EDL.extract_segments tool input_video ranges segments_dir w =
  (Return (edl_segments 1 ranges),
   after_trims input_video segments_dir 1 ranges (with_dir segments_dir w)).
Proof.
  intros H.
  pose proof (edl_loop_succeeding tool input_video segments_dir ranges [] 1 []
                (with_dir segments_dir w) H) as He.
  rewrite app_nil_r in He. cbn [app EDL.extract_loop] in He.
  unfold EDL.extract_segments, bind at 1, makedirs. exact He.
Qed.

Lemma pv_extract_ok (ranges : list (string * string)) (w : World) :
  all_succeed tool (trims input_video segments_dir 1 ranges) = true ->
  PV.extract_segments tool input_video ranges segments_dir w =
  (Return (pv_paths segments_dir 1 ranges),
   after_trims input_video segments_dir 1 ranges (with_dir segments_dir w)).
Proof.
  intros H.
  pose proof (pv_loop_succeeding tool input_video segments_dir ranges [] 1 []
                (with_dir segments_dir w) H) as Hp.
  rewrite app_nil_r in Hp. cbn [app PV.extract_loop] in Hp.
  unfold PV.extract_segments, bind at 1, makedirs. exact Hp.
Qed.

End ExtractorRuns.

(* ================================================================== *)
(** * Runs of the extractor and of the first script *)
(* ================================================================== *)

Section FirstScript.

Import Py Srt Sys.

Variable tool : list string -> CompletedProcess.

Lemma firstn_snoc {A : Type} (a : list A) (b : A) (c : list A) :
  firstn (S (List.length a)) (a ++ b :: c) = a ++ [b].
Proof. induction a as [|x a IH]; cbn; [reflexivity | now rewrite <- IH]. Qed.

Lemma all_succeed_failing (input dir : string) (pre : list (string * string))
    (r : string * string) (post : list (string * string)) :
  returncode (tool (trim_of input dir (1 + Z.of_nat (List.length pre)) r)) <> 0 ->
  all_succeed tool (trims input dir 1 (pre ++ r :: post)) = false.
Proof.
  intros Hr. unfold all_succeed. rewrite trims_app, forallb_app. cbn [trims forallb].
  apply Z.eqb_neq in Hr. rewrite Hr. cbn [andb]. apply andb_false_r.
Qed.

(** X7.  Under any tool the two versions of [extract_segments] end alike and
    leave the same world: no file is changed, the output directory is made,
    and the processes started are the trims of the first k ranges, in order.
    Either every trim succeeded, k is the number of ranges and the segments
    are returned; or the k-th trim is the first that failed and the call
    ends there, in [sys.exit(1)] when the diagnostic bytes of that trim are
    UTF-8 and in [UnicodeDecodeError] when they are not.  Nothing else is
    raised. *)
Theorem extract_segments_outcome
    (input_video segments_dir : string) (ranges : list (string * string)) (w : World) :
  exists (k : nat) (w' : World),
    files w' = files w /\
    dirs w' = dirs w ++ [segments_dir] /\
    procs w' = procs w ++ firstn k (trims input_video segments_dir 1 ranges) /\
    ((all_succeed tool (trims input_video segments_dir 1 ranges) = true /\
      k = List.length ranges /\
      EDL.extract_segments tool input_video ranges segments_dir w =
        (Return (edl_segments 1 ranges), w') /\
      PV.extract_segments tool input_video ranges segments_dir w =
        (Return (pv_paths segments_dir 1 ranges), w'))
     \/
     (all_succeed tool (trims input_video segments_dir 1 ranges) = false /\
      (1 <= k <= List.length ranges)%nat /\
      all_succeed tool (firstn (k - 1) (trims input_video segments_dir 1 ranges)) = true /\
      exists failed : list string,
        nth_error (trims input_video segments_dir 1 ranges) (k - 1) = Some failed /\
        returncode (tool failed) <> 0 /\
        match stderr (tool failed) with
        | Utf8 _ =>
            EDL.extract_segments tool input_video ranges segments_dir w = (Exit 1, w') /\
            PV.extract_segments tool input_video ranges segments_dir w = (Exit 1, w')
        | Malformed =>
            EDL.extract_segments tool input_video ranges segments_dir w
            = (Raise UnicodeDecodeError, w') /\
            PV.extract_segments tool input_video ranges segments_dir w
            = (Raise UnicodeDecodeError, w')
        end)).
Proof.
  destruct (first_failure tool input_video segments_dir ranges 1)
    as [H|(pre & r & post & -> & Hpre & Hr)].
  - exists (List.length ranges),
      (after_trims input_video segments_dir 1 ranges (with_dir segments_dir w)).
    repeat split.
    + cbn. rewrite <- (trims_length input_video segments_dir 1 ranges) at 1.
      now rewrite firstn_all.
    + left. repeat split; try assumption.
      * now apply edl_extract_ok.
      * now apply pv_extract_ok.
  - exists (S (List.length pre)), (after_failed tool input_video segments_dir pre r w).
    repeat split.
    + unfold after_failed. cbn [procs]. rewrite trims_app. cbn [trims].
      replace (S (List.length pre))
        with (S (List.length (trims input_video segments_dir 1 pre)))
        by now rewrite trims_length.
      now rewrite firstn_snoc, app_assoc.
    + right. split; [now apply all_succeed_failing|]. split.
      * rewrite length_app. cbn [List.length]. lia.
      * cbn [Nat.sub]. rewrite Nat.sub_0_r, trims_app. split.
        -- replace (firstn (List.length pre))
             with (@firstn (list string)
                     (List.length (trims input_video segments_dir 1 pre)))
             by now rewrite trims_length.
           rewrite firstn_app, firstn_all, Nat.sub_diag. cbn [firstn].
           now rewrite app_nil_r.
        -- exists (trim_of input_video segments_dir (1 + Z.of_nat (List.length pre)) r).
           split; [|split; [exact Hr|]].
           ++ rewrite nth_error_app2 by (rewrite trims_length; lia).
              rewrite trims_length, Nat.sub_diag. reflexivity.
           ++ pose proof (edl_extract_fail tool input_video segments_dir
                            pre r post w Hpre Hr) as He.
              pose proof (pv_extract_fail tool input_video segments_dir
                            pre r post w Hpre Hr) as Hp.
              unfold failure_end in He, Hp.
              destruct (stderr (tool (trim_of input_video segments_dir
                                        (1 + Z.of_nat (List.length pre)) r)));
                cbn [decode] in He, Hp; split; assumption.
Qed.

(** X8.  Segments with different ordinals get different files: the trims
    write to pairwise distinct paths, so no trim overwrites the segment of
    another, and the paths and file names [extract_segments] returns are
    pairwise distinct. *)
Theorem segment_files_distinct
    (input_video segments_dir : string) (ranges : list (string * string)) (w : World) :
  NoDup (map output_of (trims input_video segments_dir 1 ranges)) /\
  (forall paths w',
     PV.extract_segments tool input_video ranges segments_dir w = (Return paths, w') ->
     NoDup paths) /\
  (forall segments w',
     EDL.extract_segments tool input_video ranges segments_dir w = (Return segments, w') ->
     NoDup (map EDL.filename segments)).
Proof.
  split; [|split].
  - rewrite trims_outputs. apply pv_paths_NoDup. lia.
  - intros paths w' H.
    destruct (first_failure tool input_video segments_dir ranges 1)
      as [Hok|(pre & r & post & -> & Hpre & Hr)].
    + rewrite (pv_extract_ok _ _ _ _ _ Hok) in H. injection H as <- _.
      apply pv_paths_NoDup. lia.
    + rewrite (pv_extract_fail _ _ _ _ _ _ _ Hpre Hr) in H. unfold failure_end in H.
      destruct (decode _); discriminate.
  - intros segments w' H.
    destruct (first_failure tool input_video segments_dir ranges 1)
      as [Hok|(pre & r & post & -> & Hpre & Hr)].
    + rewrite (edl_extract_ok _ _ _ _ _ Hok) in H. injection H as <- _.
      rewrite edl_names_paths. apply pv_paths_NoDup. lia.
    + rewrite (edl_extract_fail _ _ _ _ _ _ _ Hpre Hr) in H. unfold failure_end in H.
      destruct (decode _); discriminate.
Qed.

End FirstScript.

(* ================================================================== *)
(** * Runs of the two scripts *)
(* ================================================================== *)

Section Mains.

Import Py Srt Sys.

Variable tool : list string -> CompletedProcess.

Lemma edl_main_no_video (w : World) :
  files w "IMG_0106.mov" = None ->
  EDL.main tool w =
  (Exit 1, printed ["Input video file 'IMG_0106.mov' not found."] w).
Proof.
  intros Hv. unfold EDL.main, bind, isfile, print, sys_exit.
  cbn [files dirs stdout procs]. rewrite Hv. reflexivity.
Qed.

Lemma pv_main_no_video (w : World) :
  files w "IMG_0106.mov" = None ->
  PV.main tool w =
  (Exit 1, printed ["Input video file 'IMG_0106.mov' not found."] w).
Proof.
  intros Hv. unfold PV.main, bind, isfile, print, sys_exit.
  cbn [files dirs stdout procs]. rewrite Hv. reflexivity.
Qed.

Lemma edl_main_no_srt (w : World) (video : bytes) :
  files w "IMG_0106.mov" = Some video ->
  files w "90 days in Japan without a plan.srt" = None ->
  EDL.main tool w =
  (Exit 1, printed ["SRT file '90 days in Japan without a plan.srt' not found."] w).
Proof.
  intros Hv Hs. unfold EDL.main, bind, isfile, print, sys_exit, ret.
  cbn [files dirs stdout procs]. rewrite Hv. cbn [negb]. rewrite Hs. reflexivity.
Qed.

Lemma pv_main_no_srt (w : World) (video : bytes) :
  files w "IMG_0106.mov" = Some video ->
  files w "90 days in Japan without a plan.srt" = None ->
  PV.main tool w =
  (Exit 1, printed ["SRT file '90 days in Japan without a plan.srt' not found."] w).
Proof.
  intros Hv Hs. unfold PV.main, bind, isfile, print, sys_exit, ret.
  cbn [files dirs stdout procs]. rewrite Hv. cbn [negb]. rewrite Hs. reflexivity.
Qed.

(** A subtitle file that is not UTF-8 stops either script at the read. *)
Lemma edl_main_unreadable (w : World) (video : bytes) :
  files w "IMG_0106.mov" = Some video ->
  files w "90 days in Japan without a plan.srt" = Some Malformed ->
  EDL.main tool w = (Raise UnicodeDecodeError, printed ["Parsing SRT file..."] w).
Proof.
  intros Hv Hs.
  unfold EDL.main, EDL.parse_srt, bind, isfile, read_file, lift, print, sys_exit, ret.
  cbn [files dirs stdout procs]. rewrite Hv. cbn [negb]. rewrite Hs. cbn [negb].
  cbn [files dirs stdout procs]. rewrite Hs. reflexivity.
Qed.

Lemma pv_main_unreadable (w : World) (video : bytes) :
  files w "IMG_0106.mov" = Some video ->
  files w "90 days in Japan without a plan.srt" = Some Malformed ->
  PV.main tool w = (Raise UnicodeDecodeError, printed ["Parsing SRT file..."] w).
Proof.
  intros Hv Hs.
  unfold PV.main, PV.parse_srt, bind, isfile, read_file, lift, print, sys_exit, ret.
  cbn [files dirs stdout procs]. rewrite Hv. cbn [negb]. rewrite Hs. cbn [negb].
  cbn [files dirs stdout procs]. rewrite Hs. reflexivity.
Qed.

(** With both files there, [main] of the first script is what follows the
    parse, run on the ranges. *)
Lemma edl_main_parsed (w : World) (video : bytes) (content : string)
    (r : string * string) (rest : list (string * string)) :
  files w "IMG_0106.mov" = Some video ->
  files w "90 days in Japan without a plan.srt" = Some (Utf8 content) ->
  EDL.parse_srt_content content = r :: rest ->
  EDL.main tool w =
  (segments <- EDL.extract_segments tool "IMG_0106.mov" (r :: rest) "segments" ;;
   print ("Extracted " +:+ str (Z.of_nat (List.length segments)) +:+
          " segments successfully.") ;;;
   print "All segments are saved in the 'segments' directory." ;;;
   EDL.generate_edl segments "segments.edl" "IMG_0106.mov" ;;;
   print "All tasks completed successfully!" ;;;
   print "You can now import both the extracted segments and the original video into your editing software." ;;;
   print "Use the EDL file to map the segments to their original positions if your software supports EDL imports.")
    (printed (greeting (S (List.length rest))) w).
Proof.
  intros Hv Hs Hp.
  unfold EDL.main, EDL.parse_srt.
  unfold bind at 1, isfile at 1. rewrite Hv. cbn [negb].
  unfold bind at 1, ret at 1.
  unfold bind at 1, isfile at 1. rewrite Hs. cbn [negb].
  unfold bind at 1, ret at 1.
  unfold bind at 1, print at 1.
  unfold bind at 1. unfold bind at 1, read_file at 1. cbn [files]. rewrite Hs.
  unfold lift at 1. cbn [decode]. unfold ret at 1. rewrite Hp.
  unfold bind at 1, print at 1.
  unfold bind at 1, ret at 1.
  cbn [files dirs stdout procs List.length].
  unfold printed, greeting. cbn [List.length]. rewrite <- app_assoc. reflexivity.
Qed.

Lemma pv_main_parsed (w : World) (video : bytes) (content : string)
    (r : string * string) (rest : list (string * string)) :
  files w "IMG_0106.mov" = Some video ->
  files w "90 days in Japan without a plan.srt" = Some (Utf8 content) ->
  PV.parse_srt_content content = r :: rest ->
  PV.main tool w =
  (segments <- PV.extract_segments tool "IMG_0106.mov" (r :: rest) "segments" ;;
   print ("Extracted " +:+ str (Z.of_nat (List.length segments)) +:+ " segments.") ;;;
   PV.create_concat_list segments "concat_list.txt" ;;;
   PV.concatenate_segments tool "concat_list.txt" "final_video.mov" ;;;
   print "All tasks completed successfully!")
    (printed (greeting (S (List.length rest))) w).
Proof.
  intros Hv Hs Hp.
  unfold PV.main, PV.parse_srt.
  unfold bind at 1, isfile at 1. rewrite Hv. cbn [negb].
  unfold bind at 1, ret at 1.
  unfold bind at 1, isfile at 1. rewrite Hs. cbn [negb].
  unfold bind at 1, ret at 1.
  unfold bind at 1, print at 1.
  unfold bind at 1. unfold bind at 1, read_file at 1. cbn [files]. rewrite Hs.
  unfold lift at 1. cbn [decode]. unfold ret at 1. rewrite Hp.
  unfold bind at 1, print at 1.
  unfold bind at 1, ret at 1.
  cbn [files dirs stdout procs List.length].
  unfold printed, greeting. cbn [List.length]. rewrite <- app_assoc. reflexivity.
Qed.

Lemma edl_parse_times (content : string) :
  all_times (EDL.parse_srt_content content) = true.
Proof.
  apply forallb_forall. intros r H.
  apply edl_parse_In in H as (c & Hc & _ & ->).
  apply cue_ok_inv in Hc as (Hs & _ & _ & He). unfold range_of. cbn [fst snd].
  now rewrite !is_time_stamp_text.
Qed.

Lemma pv_parse_times (content : string) :
  all_times (PV.parse_srt_content content) = true.
Proof.
  apply forallb_forall. intros r H.
  apply pv_parse_In in H as (c & Hc & _ & ->).
  apply cue_ok_inv in Hc as (Hs & _ & _ & He). unfold range_of. cbn [fst snd].
  now rewrite !is_time_stamp_text.
Qed.

Lemma edl_segments_timed (ranges : list (string * string)) :
  forall idx : Z,
    all_times ranges = true -> forallb timed (edl_segments idx ranges) = true.
Proof.
  induction ranges as [|r rest IH]; intros idx H; [reflexivity|].
  cbn [all_times forallb] in H. apply andb_prop in H as [Hr H].
  cbn [edl_segments forallb]. unfold timed at 1. cbn [EDL.start EDL.end_].
  rewrite Hr. now apply IH.
Qed.

(** [generate_edl] on segments with parser's times. *)
Lemma generate_edl_run (segments : list EDL.Segment) (edl_path original_video : string)
    (w : World) :
  forallb timed segments = true ->
  exists w',
    EDL.generate_edl segments edl_path original_video w = (Return tt, w') /\
    files w' edl_path =
      Some (Utf8 (edl_header +:+ join (map event_line (events 1 segments)))) /\
    (forall p, p <> edl_path -> files w' p = files w p) /\
    dirs w' = dirs w /\ procs w' = procs w /\
    stdout w' = stdout w ++ ["EDL file created at " +:+ edl_path].
Proof.
  intros Ht.
  pose (w2 := set_file edl_path edl_header
                (set_file edl_path ("TITLE: Extracted Segments EDL" +:+ nl)
                   (set_file edl_path "" w))).
  destruct (edl_loop_appends edl_path segments 1 w2 edl_header ltac:(lia) Ht
              (set_file_same _ _ _)) as (w3 & Hrun & Hfile & Hf & Hd & Ho & Hp).
  exists {| files := files w3; dirs := dirs w3;
            stdout := stdout w3 ++ ["EDL file created at " +:+ edl_path];
            procs := procs w3 |}.
  split; [|split; [|split; [|split; [|split]]]].
  - unfold EDL.generate_edl, bind at 1, open_w at 1.
    unfold bind at 1, write at 1. rewrite set_file_same.
    unfold bind at 1, write at 1. rewrite set_file_same.
    unfold bind at 1.
    change (set_file edl_path _ (set_file edl_path _ (set_file edl_path "" w))) with w2.
    rewrite Hrun. reflexivity.
  - exact Hfile.
  - intros p Hne. cbn [files]. rewrite (Hf p Hne). unfold w2. cbn.
    now rewrite (proj2 (String.eqb_neq p edl_path) Hne).
  - cbn [dirs]. now rewrite Hd.
  - cbn [procs]. now rewrite Hp.
  - cbn [stdout]. now rewrite Ho.
Qed.

(** [create_concat_list] on any paths. *)
Lemma create_concat_list_run (segments : list string) (concat_list_path : string)
    (w : World) :
  exists w',
    PV.create_concat_list segments concat_list_path w = (Return tt, w') /\
    files w' concat_list_path = Some (Utf8 (join (map manifest_line segments))) /\
    (forall p, p <> concat_list_path -> files w' p = files w p) /\
    dirs w' = dirs w /\ procs w' = procs w /\
    stdout w' = stdout w ++ ["Created concatenation list at " +:+ concat_list_path].
Proof.
  destruct (concat_loop_appends concat_list_path segments
              (set_file concat_list_path "" w) "" (set_file_same _ _ _))
    as (w2 & Hrun & Hfile & Hf & Hd & Ho & Hp).
  exists {| files := files w2; dirs := dirs w2;
            stdout := stdout w2 ++ ["Created concatenation list at " +:+ concat_list_path];
            procs := procs w2 |}.
  split; [|split; [|split; [|split; [|split]]]].
  - unfold PV.create_concat_list, bind at 1, open_w at 1.
    unfold bind at 1. rewrite Hrun. reflexivity.
  - exact Hfile.
  - intros p Hne. cbn [files]. rewrite (Hf p Hne). cbn.
    now rewrite (proj2 (String.eqb_neq p concat_list_path) Hne).
  - cbn [dirs]. now rewrite Hd.
  - cbn [procs]. now rewrite Hp.
  - cbn [stdout]. now rewrite Ho.
Qed.

(** The first script when a trim fails. *)
Lemma edl_main_trim_fail (w : World) (video : bytes) (content : string)
    (pre : list (string * string)) (r : string * string) (post : list (string * string)) :
  files w "IMG_0106.mov" = Some video ->
  files w "90 days in Japan without a plan.srt" = Some (Utf8 content) ->
  EDL.parse_srt_content content = pre ++ r :: post ->
  all_succeed tool (trims "IMG_0106.mov" "segments" 1 pre) = true ->
  returncode (tool (trim_of "IMG_0106.mov" "segments" (1 + Z.of_nat (List.length pre)) r)) <> 0 ->
  EDL.main tool w =
  (failure_end
     (tool (trim_of "IMG_0106.mov" "segments" (1 + Z.of_nat (List.length pre)) r)),
   after_failed tool "IMG_0106.mov" "segments" pre r
     (printed (greeting (List.length (pre ++ r :: post))) w)).
Proof.
  intros Hv Hs Hp Hpre Hr.
  destruct (pre ++ r :: post) as [|r0 rest] eqn:E; [now destruct pre|].
  rewrite (edl_main_parsed w video content r0 rest Hv Hs Hp). rewrite <- E.
  unfold bind at 1. rewrite (edl_extract_fail tool _ _ pre r post _ Hpre Hr).
  rewrite E. unfold failure_end. now destruct (decode _).
Qed.

Lemma pv_main_trim_fail (w : World) (video : bytes) (content : string)
    (pre : list (string * string)) (r : string * string) (post : list (string * string)) :
  files w "IMG_0106.mov" = Some video ->
  files w "90 days in Japan without a plan.srt" = Some (Utf8 content) ->
  PV.parse_srt_content content = pre ++ r :: post ->
  all_succeed tool (trims "IMG_0106.mov" "segments" 1 pre) = true ->
  returncode (tool (trim_of "IMG_0106.mov" "segments" (1 + Z.of_nat (List.length pre)) r)) <> 0 ->
  PV.main tool w =
  (failure_end
     (tool (trim_of "IMG_0106.mov" "segments" (1 + Z.of_nat (List.length pre)) r)),
   after_failed tool "IMG_0106.mov" "segments" pre r
     (printed (greeting (List.length (pre ++ r :: post))) w)).
Proof.
  intros Hv Hs Hp Hpre Hr.
  destruct (pre ++ r :: post) as [|r0 rest] eqn:E; [now destruct pre|].
  rewrite (pv_main_parsed w video content r0 rest Hv Hs Hp). rewrite <- E.
  unfold bind at 1. rewrite (pv_extract_fail tool _ _ pre r post _ Hpre Hr).
  rewrite E. unfold failure_end. now destruct (decode _).
Qed.

(** The first script when every trim succeeds. *)
Lemma edl_main_ok (w : World) (video : bytes) (content : string)
    (r : string * string) (rest : list (string * string)) :
  files w "IMG_0106.mov" = Some video ->
  files w "90 days in Japan without a plan.srt" = Some (Utf8 content) ->
  EDL.parse_srt_content content = r :: rest ->
  all_succeed tool (trims "IMG_0106.mov" "segments" 1 (r :: rest)) = true ->
  exists w',
    EDL.main tool w = (Return tt, w') /\
    files w' "segments.edl" =
      Some (Utf8 (edl_header +:+
                  join (map event_line (events 1 (edl_segments 1 (r :: rest)))))) /\
    (forall p, p <> "segments.edl" -> files w' p = files w p) /\
    dirs w' = dirs w ++ ["segments"] /\
    procs w' = procs w ++ trims "IMG_0106.mov" "segments" 1 (r :: rest) /\
    stdout w' =
      stdout w ++ greeting (S (List.length rest)) ++ trim_lines 1 (r :: rest) ++
      ["Extracted " +:+ str (Z.of_nat (S (List.length rest))) +:+ " segments successfully.";
       "All segments are saved in the 'segments' directory.";
       "EDL file created at segments.edl";
       "All tasks completed successfully!";
       "You can now import both the extracted segments and the original video into your editing software.";
       "Use the EDL file to map the segments to their original positions if your software supports EDL imports."].
Proof.
  intros Hv Hs Hp Hok.
  assert (Ht : forallb timed (edl_segments 1 (r :: rest)) = true).
  { apply edl_segments_timed. rewrite <- Hp. apply edl_parse_times. }
  rewrite (edl_main_parsed w video content r rest Hv Hs Hp).
  unfold bind at 1. rewrite (edl_extract_ok tool _ _ _ _ Hok).
  unfold bind at 1, print at 1. unfold bind at 1, print at 1.
  unfold bind at 1.
  match goal with
  | |- context [EDL.generate_edl ?sg ?pa ?ov ?wo] =>
      destruct (generate_edl_run sg pa ov wo Ht)
        as (w3 & Hrun & Hfile & Hf & Hd & Hpr & Ho)
  end.
  rewrite Hrun. unfold bind, print.
  eexists. split; [reflexivity|].
  cbn [files dirs stdout procs with_dir after_trims printed] in *.
  split; [exact Hfile|]. split; [exact Hf|]. split; [exact Hd|]. split; [exact Hpr|].
  rewrite Ho, edl_segments_length. cbn [List.length].
  rewrite <- !app_assoc. reflexivity.
Qed.

(** The second script when every trim succeeds: what is left is the
    concatenation. *)
Lemma pv_main_ok (w : World) (video : bytes) (content : string)
    (r : string * string) (rest : list (string * string)) :
  files w "IMG_0106.mov" = Some video ->
  files w "90 days in Japan without a plan.srt" = Some (Utf8 content) ->
  PV.parse_srt_content content = r :: rest ->
  all_succeed tool (trims "IMG_0106.mov" "segments" 1 (r :: rest)) = true ->
  let result := tool (concat_cmd "concat_list.txt" "final_video.mov") in
  exists w',
    PV.main tool w =
      (if returncode result =? 0 then Return tt else failure_end result, w') /\
    files w' "concat_list.txt" =
      Some (Utf8 (join (map manifest_line (pv_paths "segments" 1 (r :: rest))))) /\
    (forall p, p <> "concat_list.txt" -> files w' p = files w p) /\
    dirs w' = dirs w ++ ["segments"] /\
    procs w' = procs w ++ trims "IMG_0106.mov" "segments" 1 (r :: rest) ++
               [concat_cmd "concat_list.txt" "final_video.mov"] /\
    stdout w' =
      stdout w ++ greeting (S (List.length rest)) ++ trim_lines 1 (r :: rest) ++
      ["Extracted " +:+ str (Z.of_nat (S (List.length rest))) +:+ " segments.";
       "Created concatenation list at concat_list.txt";
       "Concatenating segments into final video..."] ++
      (if returncode result =? 0
       then ["Final video created: final_video.mov"; "All tasks completed successfully!"]
       else error_lines
              (fun diagnostic => "Error concatenating segments: " +:+ diagnostic) result).
Proof.
  intros Hv Hs Hp Hok result.
  rewrite (pv_main_parsed w video content r rest Hv Hs Hp).
  unfold bind at 1. rewrite (pv_extract_ok tool _ _ _ _ Hok).
  unfold bind at 1, print at 1. unfold bind at 1.
  match goal with
  | |- context [PV.create_concat_list ?sg ?pa ?wo] =>
      destruct (create_concat_list_run sg pa wo)
        as (w3 & Hrun & Hfile & Hf & Hd & Hpr & Ho)
  end.
  rewrite Hrun. unfold bind at 1. unfold PV.concatenate_segments.
  unfold bind at 1, print at 1. unfold bind at 1, subprocess_run at 1.
  fold (concat_cmd "concat_list.txt" "final_video.mov"). fold result.
  unfold bind at 1.
  cbn [files dirs stdout procs with_dir after_trims printed] in *.
  destruct (returncode result =? 0); cbn [negb].
  - unfold ret at 1. unfold bind, print. eexists. split; [reflexivity|].
    cbn [files dirs stdout procs].
    split; [exact Hfile|]. split; [exact Hf|]. split; [exact Hd|].
    split; [rewrite Hpr; now rewrite <- !app_assoc|].
    rewrite Ho, pv_paths_length. cbn [List.length].
    rewrite <- !app_assoc. reflexivity.
  - unfold bind, lift, print, sys_exit, failure_end, error_lines.
    destruct (decode (stderr result)) as [diagnostic|e].
    + eexists. split; [reflexivity|].
      cbn [files dirs stdout procs].
      split; [exact Hfile|]. split; [exact Hf|]. split; [exact Hd|].
      split; [rewrite Hpr; now rewrite <- !app_assoc|].
      rewrite Ho, pv_paths_length. cbn [List.length].
      rewrite <- !app_assoc. reflexivity.
    + eexists. split; [reflexivity|].
      cbn [files dirs stdout procs].
      split; [exact Hfile|]. split; [exact Hf|]. split; [exact Hd|].
      split; [rewrite Hpr; now rewrite <- !app_assoc|].
      rewrite Ho, pv_paths_length. cbn [List.length].
      rewrite <- !app_assoc. reflexivity.
Qed.

(** X9.  When the source video is missing, [main] of either script says
    that the video was not found, whether or not the subtitle file is there;
    when the video is there and the subtitle file is missing, it says that
    the subtitle file was not found.  In both cases it exits with status 1:
    nothing else is printed, nothing is read, no directory is made and no
    process is started. *)
Theorem main_stops_on_missing_input (w : World) :
  (files w "IMG_0106.mov" = None ->
   EDL.main tool w =
     (Exit 1, printed ["Input video file 'IMG_0106.mov' not found."] w) /\
   PV.main tool w =
     (Exit 1, printed ["Input video file 'IMG_0106.mov' not found."] w)) /\
  (files w "IMG_0106.mov" <> None ->
   files w "90 days in Japan without a plan.srt" = None ->
   EDL.main tool w =
     (Exit 1, printed ["SRT file '90 days in Japan without a plan.srt' not found."] w) /\
   PV.main tool w =
     (Exit 1, printed ["SRT file '90 days in Japan without a plan.srt' not found."] w)) /\
  (forall line : string,
     dirs (printed [line] w) = dirs w /\ procs (printed [line] w) = procs w /\
     files (printed [line] w) = files w /\ stdout (printed [line] w) = stdout w ++ [line]).
Proof.
  split; [|split].
  - intros Hv. split; [now apply edl_main_no_video | now apply pv_main_no_video].
  - intros Hv Hs. destruct (files w "IMG_0106.mov") as [video|] eqn:E; [|congruence].
    split; [now apply (edl_main_no_srt w video) | now apply (pv_main_no_srt w video)].
  - intros line. unfold printed. cbn. repeat split.
Qed.

(** X10.  With both input files there, at least one range parsed and every
    trim succeeding, [main] of the first script returns: it has made the
    directory [segments], started the trims of the ranges in order and
    nothing else, and written [segments.edl] with the header and one event
    per range; no other file is changed. *)
Theorem edl_main_writes_the_list (w : World) (video : bytes) (content : string) :
  files w "IMG_0106.mov" = Some video ->
  files w "90 days in Japan without a plan.srt" = Some (Utf8 content) ->
  EDL.parse_srt_content content <> [] ->
  all_succeed tool
    (trims "IMG_0106.mov" "segments" 1 (EDL.parse_srt_content content)) = true ->
  let ranges := EDL.parse_srt_content content in
  exists w',
    EDL.main tool w = (Return tt, w') /\
    exit_status (fst (EDL.main tool w)) = 0 /\
    dirs w' = dirs w ++ ["segments"] /\
    procs w' = procs w ++ trims "IMG_0106.mov" "segments" 1 ranges /\
    files w' "segments.edl" =
      Some (Utf8 (edl_header +:+
                  join (map event_line (events 1 (edl_segments 1 ranges))))) /\
    List.length (events 1 (edl_segments 1 ranges)) = List.length ranges /\
    (forall p, p <> "segments.edl" -> files w' p = files w p).
Proof.
  intros Hv Hs Hne Hok ranges. subst ranges.
  destruct (EDL.parse_srt_content content) as [|r rest] eqn:Hp; [congruence|].
  destruct (edl_main_ok w video content r rest Hv Hs Hp Hok)
    as (w' & Hrun & Hfile & Hf & Hd & Hpr & _).
  exists w'. rewrite Hrun. repeat split; try assumption.
  now rewrite events_length, edl_segments_length.
Qed.

(** X11.  When the trims of the ranges before the i-th succeed and the
    i-th fails, [main] of either script stops right there with exit status
    1: the files are as they were, so neither the edit decision list nor the
    manifest is written, and the processes started are the first i trims, so
    nothing is concatenated.  When the diagnostic bytes of the failed trim
    are UTF-8 the script prints them after [Error extracting segment i: ]
    and ends in [sys.exit(1)]; when they are not, it ends in
    [UnicodeDecodeError] and the last line printed is the announcement of
    that trim. *)
Theorem main_stops_at_failed_trim (w : World) (video : bytes) (content : string)
    (pre : list (string * string)) (r : string * string) (post : list (string * string)) :
  files w "IMG_0106.mov" = Some video ->
  files w "90 days in Japan without a plan.srt" = Some (Utf8 content) ->
  all_succeed tool (trims "IMG_0106.mov" "segments" 1 pre) = true ->
  returncode (tool (trim_of "IMG_0106.mov" "segments" (1 + Z.of_nat (List.length pre)) r)) <> 0 ->
  let i := 1 + Z.of_nat (List.length pre) in
  let failed := tool (trim_of "IMG_0106.mov" "segments" i r) in
  let stopped :=
    after_failed tool "IMG_0106.mov" "segments" pre r
      (printed (greeting (List.length (pre ++ r :: post))) w) in
  let ending : outcome unit :=
    match stderr failed with
    | Utf8 _ => Exit 1
    | Malformed => Raise UnicodeDecodeError
    end in
  (EDL.parse_srt_content content = pre ++ r :: post ->
   EDL.main tool w = (ending, stopped)) /\
  (PV.parse_srt_content content = pre ++ r :: post ->
   PV.main tool w = (ending, stopped)) /\
  exit_status ending = 1 /\
  files stopped = files w /\
  procs stopped = procs w ++ trims "IMG_0106.mov" "segments" 1 pre ++
                  [trim_of "IMG_0106.mov" "segments" i r] /\
  last (stdout stopped) "" =
    match stderr failed with
    | Utf8 diagnostic => "Error extracting segment " +:+ str i +:+ ": " +:+ diagnostic
    | Malformed => "Extracting Segment " +:+ str i +:+ ": " +:+ fst r +:+ " to " +:+ snd r
    end.
Proof.
  intros Hv Hs Hpre Hr i failed stopped ending.
  assert (Hend : ending = failure_end failed).
  { unfold ending, failure_end. now destruct (stderr failed). }
  split; [|split; [|split; [|split; [|split]]]].
  - intros Hp. rewrite Hend. now apply (edl_main_trim_fail w video content).
  - intros Hp. rewrite Hend. now apply (pv_main_trim_fail w video content).
  - unfold ending. now destruct (stderr failed).
  - reflexivity.
  - unfold stopped, after_failed, printed. cbn [procs]. now rewrite <- app_assoc.
  - unfold stopped, after_failed, error_lines. cbn [stdout]. fold i. fold failed.
    destruct (stderr failed) as [diagnostic|]; cbn [decode].
    + apply last_last.
    + rewrite app_nil_r. apply last_last.
Qed.

(** X12.  With both input files there, at least one range parsed and every
    trim succeeding, [main] of the second script writes the manifest with
    one line per segment path and starts the concatenation after the trims.
    It returns when the concatenation reports status 0.  Otherwise it stops
    with exit status 1, the manifest staying behind: when the diagnostic
    bytes of the tool are UTF-8 it prints them after
    [Error concatenating segments: ] and ends in [sys.exit(1)]; when they
    are not, it ends in [UnicodeDecodeError] with nothing printed after the
    announcement of the concatenation. *)
Theorem pv_main_concatenates (w : World) (video : bytes) (content : string) :
  files w "IMG_0106.mov" = Some video ->
  files w "90 days in Japan without a plan.srt" = Some (Utf8 content) ->
  PV.parse_srt_content content <> [] ->
  all_succeed tool
    (trims "IMG_0106.mov" "segments" 1 (PV.parse_srt_content content)) = true ->
  let ranges := PV.parse_srt_content content in
  let result := tool (concat_cmd "concat_list.txt" "final_video.mov") in
  exists w',
    PV.main tool w =
      (if returncode result =? 0 then Return tt
       else match stderr result with
            | Utf8 _ => Exit 1
            | Malformed => Raise UnicodeDecodeError
            end, w') /\
    procs w' = procs w ++ trims "IMG_0106.mov" "segments" 1 ranges ++
               [concat_cmd "concat_list.txt" "final_video.mov"] /\
    files w' "concat_list.txt" =
      Some (Utf8 (join (map manifest_line (pv_paths "segments" 1 ranges)))) /\
    (forall p, p <> "concat_list.txt" -> files w' p = files w p) /\
    (returncode result = 0 ->
     last (stdout w') "" = "All tasks completed successfully!") /\
    (returncode result <> 0 ->
     exit_status (fst (PV.main tool w)) = 1 /\
     last (stdout w') "" =
       match stderr result with
       | Utf8 diagnostic => "Error concatenating segments: " +:+ diagnostic
       | Malformed => "Concatenating segments into final video..."
       end).
Proof.
  intros Hv Hs Hne Hok ranges result. subst ranges.
  destruct (PV.parse_srt_content content) as [|r rest] eqn:Hp; [congruence|].
  destruct (pv_main_ok w video content r rest Hv Hs Hp Hok)
    as (w' & Hrun & Hfile & Hf & Hd & Hpr & Ho).
  exists w'. fold result in Hrun, Ho.
  split; [|split; [exact Hpr|split; [exact Hfile|split; [exact Hf|split]]]].
  - rewrite Hrun. unfold failure_end. now destruct (stderr result).
  - intros Hrc. apply Z.eqb_eq in Hrc. rewrite Hrc in Ho. rewrite Ho.
    rewrite !app_assoc.
    change ["Final video created: final_video.mov"; "All tasks completed successfully!"]
      with (["Final video created: final_video.mov"] ++
            ["All tasks completed successfully!"]).
    rewrite app_assoc. apply last_last.
  - intros Hrc. apply Z.eqb_neq in Hrc. rewrite Hrun, Hrc in *. cbn [fst].
    unfold failure_end, error_lines in *. rewrite Ho.
    destruct (stderr result) as [diagnostic|]; cbn [decode exit_status].
    + split; [reflexivity|]. rewrite !app_assoc. apply last_last.
    + split; [reflexivity|]. rewrite app_nil_r.
      change ["Extracted " +:+ str (Z.of_nat (S (List.length rest))) +:+ " segments.";
              "Created concatenation list at concat_list.txt";
              "Concatenating segments into final video..."]
        with (["Extracted " +:+ str (Z.of_nat (S (List.length rest))) +:+ " segments.";
               "Created concatenation list at concat_list.txt"] ++
              ["Concatenating segments into final video..."]).
      rewrite !app_assoc. apply last_last.
Qed.

(** X13.  Whatever the files and whatever the tool does, [main] of either
    script returns, ends in [sys.exit(1)], or ends in [UnicodeDecodeError]:
    no other exception escapes, and the exit status is 0 or 1.  The decoding
    error needs bytes that are not UTF-8, in the subtitle file or in the
    diagnostic stream of a command that failed: without them [main] returns
    or ends in [sys.exit(1)]. *)
Theorem main_returns_or_stops_with_1 (w : World) :
  (fst (EDL.main tool w) = Return tt \/ fst (EDL.main tool w) = Exit 1 \/
   fst (EDL.main tool w) = Raise UnicodeDecodeError) /\
  (fst (PV.main tool w) = Return tt \/ fst (PV.main tool w) = Exit 1 \/
   fst (PV.main tool w) = Raise UnicodeDecodeError) /\
  (files w "90 days in Japan without a plan.srt" <> Some Malformed ->
   (forall cmd, returncode (tool cmd) <> 0 -> stderr (tool cmd) <> Malformed) ->
   (fst (EDL.main tool w) = Return tt \/ fst (EDL.main tool w) = Exit 1) /\
   (fst (PV.main tool w) = Return tt \/ fst (PV.main tool w) = Exit 1)).
Proof.
  assert (Hfail : forall (A : Type) (result : CompletedProcess),
             (@failure_end A result = Exit 1 \/
              @failure_end A result = Raise UnicodeDecodeError) /\
             (stderr result <> Malformed -> @failure_end A result = Exit 1)).
  { intros A result. unfold failure_end.
    destruct (stderr result); cbn [decode]; split; auto. congruence. }
  assert (He : (fst (EDL.main tool w) = Return tt \/ fst (EDL.main tool w) = Exit 1 \/
                fst (EDL.main tool w) = Raise UnicodeDecodeError) /\
               (files w "90 days in Japan without a plan.srt" <> Some Malformed ->
                (forall cmd, returncode (tool cmd) <> 0 -> stderr (tool cmd) <> Malformed) ->
                fst (EDL.main tool w) = Return tt \/ fst (EDL.main tool w) = Exit 1)).
  { destruct (files w "IMG_0106.mov") as [video|] eqn:Hv.
    2:{ rewrite (edl_main_no_video w Hv). cbn [fst]. auto. }
    destruct (files w "90 days in Japan without a plan.srt") as [[content|]|] eqn:Hs.
    3:{ rewrite (edl_main_no_srt w video Hv Hs). cbn [fst]. auto. }
    2:{ rewrite (edl_main_unreadable w video Hv Hs). cbn [fst]. split; [auto|].
        intros H. now contradiction H. }
    destruct (EDL.parse_srt_content content) as [|r rest] eqn:Hp.
    - rewrite (edl_main_empty tool w video content Hv Hs Hp). cbn [fst]. auto.
    - destruct (first_failure tool "IMG_0106.mov" "segments" (r :: rest) 1)
        as [Hok|(pre & r' & post & E & Hpre & Hr)].
      + destruct (edl_main_ok w video content r rest Hv Hs Hp Hok) as (w' & Hrun & _).
        rewrite Hrun. cbn [fst]. auto.
      + rewrite E in Hp.
        rewrite (edl_main_trim_fail w video content pre r' post Hv Hs Hp Hpre Hr).
        cbn [fst]. destruct (Hfail unit
          (tool (trim_of "IMG_0106.mov" "segments" (1 + Z.of_nat (List.length pre)) r')))
          as [Hany Hdec].
        split; [tauto|]. intros _ Htool. right. apply Hdec. now apply Htool. }
  assert (Hv' : (fst (PV.main tool w) = Return tt \/ fst (PV.main tool w) = Exit 1 \/
                 fst (PV.main tool w) = Raise UnicodeDecodeError) /\
                (files w "90 days in Japan without a plan.srt" <> Some Malformed ->
                 (forall cmd, returncode (tool cmd) <> 0 -> stderr (tool cmd) <> Malformed) ->
                 fst (PV.main tool w) = Return tt \/ fst (PV.main tool w) = Exit 1)).
  { destruct (files w "IMG_0106.mov") as [video|] eqn:Hv.
    2:{ rewrite (pv_main_no_video w Hv). cbn [fst]. auto. }
    destruct (files w "90 days in Japan without a plan.srt") as [[content|]|] eqn:Hs.
    3:{ rewrite (pv_main_no_srt w video Hv Hs). cbn [fst]. auto. }
    2:{ rewrite (pv_main_unreadable w video Hv Hs). cbn [fst]. split; [auto|].
        intros H. now contradiction H. }
    destruct (PV.parse_srt_content content) as [|r rest] eqn:Hp.
    - rewrite (pv_main_empty tool w video content Hv Hs Hp). cbn [fst]. auto.
    - destruct (first_failure tool "IMG_0106.mov" "segments" (r :: rest) 1)
        as [Hok|(pre & r' & post & E & Hpre & Hr)].
      + destruct (pv_main_ok w video content r rest Hv Hs Hp Hok) as (w' & Hrun & _).
        rewrite Hrun. cbn [fst].
        destruct (Z.eqb_spec
                    (returncode (tool (concat_cmd "concat_list.txt" "final_video.mov"))) 0)
          as [Hz|Hz]; [auto|].
        destruct (Hfail unit (tool (concat_cmd "concat_list.txt" "final_video.mov")))
          as [Hany Hdec].
        split; [tauto|]. intros _ Htool. right. apply Hdec. now apply Htool.
      + rewrite E in Hp.
        rewrite (pv_main_trim_fail w video content pre r' post Hv Hs Hp Hpre Hr).
        cbn [fst]. destruct (Hfail unit
          (tool (trim_of "IMG_0106.mov" "segments" (1 + Z.of_nat (List.length pre)) r')))
          as [Hany Hdec].
        split; [tauto|]. intros _ Htool. right. apply Hdec. now apply Htool. }
  destruct He as [He1 He2], Hv' as [Hp1 Hp2].
  split; [exact He1|]. split; [exact Hp1|].
  intros Hs Htool. split; [now apply He2 | now apply Hp2].
Qed.

(** X14.  A well-formed subtitle file whose only entry starts in the first
    minute leaves the first script without a range: its [main] reports that
    no valid time ranges were found and exits with status 1 before any
    process is started, while the second script extracts that entry. *)
Theorem lone_first_minute_entry_is_fatal
    (w : World) (video : bytes) (gap tail : string) (c : Cue) :
  files w "IMG_0106.mov" = Some video ->
  files w "90 days in Japan without a plan.srt" = Some (Utf8 (render [(gap, c)] tail)) ->
  well_formed [(gap, c)] tail = true ->
  first_minute c = true ->
  EDL.main tool w =
    (Exit 1,
     printed ["Parsing SRT file..."; "Found 0 segments to extract.";
              "No valid time ranges found in the SRT file."] w) /\
  PV.parse_srt_content (render [(gap, c)] tail) = [range_of c] /\
  exists o w',
    PV.main tool w = (o, w') /\
    nth_error (procs w') (List.length (procs w)) =
      Some (trim_of "IMG_0106.mov" "segments" 1 (range_of c)).
Proof.
  intros Hv Hs Hwf Hfm.
  assert (He : EDL.parse_srt_content (render [(gap, c)] tail) = []).
  { rewrite (edl_parse_render _ _ Hwf). cbn [snd]. now rewrite Hfm. }
  assert (Hp : PV.parse_srt_content (render [(gap, c)] tail) = [range_of c]).
  { now rewrite (pv_parse_render _ _ Hwf). }
  split; [exact (edl_main_empty tool w video _ Hv Hs He)|]. split; [exact Hp|].
  destruct (first_failure tool "IMG_0106.mov" "segments" [range_of c] 1)
    as [Hok|(pre & r' & post & E & Hpre & Hr)].
  - destruct (pv_main_ok w video _ _ _ Hv Hs Hp Hok) as (w' & Hrun & _ & _ & _ & Hpr & _).
    eexists _, w'. split; [exact Hrun|]. rewrite Hpr. cbn [trims app].
    rewrite nth_error_app2 by lia. now rewrite Nat.sub_diag.
  - destruct pre as [|x pre]; [|destruct pre; discriminate E].
    injection E as <- <-. rewrite <- (app_nil_l [range_of c]) in Hp.
    rewrite (pv_main_trim_fail w video _ [] (range_of c) [] Hv Hs Hp Hpre Hr).
    eexists _, _. split; [reflexivity|].
    unfold after_failed, printed. cbn [procs trims app List.length Z.of_nat].
    rewrite nth_error_app2 by (rewrite length_app; cbn; lia).
    rewrite app_nil_r, Nat.sub_diag. reflexivity.
Qed.

End Mains.

(* ================================================================== *)
(** * The shape of what is written *)
(* ================================================================== *)

Section Shapes.

Import Py Srt Sys.

Lemma replace_nosep (old : ascii) (new s : string) :
  nosep old s = true -> replace old new s = s.
Proof.
  induction s as [|c s IH]; cbn [nosep replace]; [reflexivity|]. intros H.
  apply andb_prop in H as [Hc H]. apply negb_true_iff in Hc.
  now rewrite Hc, (IH H).
Qed.

(** X15.  A path without a single quote and without a line feed goes into
    the manifest as it is: for such paths the lines of the file
    [create_concat_list] writes are [file '<path>'], one per path, in
    order, each ended by a line feed. *)
Theorem manifest_of_plain_paths
    (segments : list string) (concat_list_path : string) (w : World) :
  forallb (nosep "'") segments = true ->
  forallb (nosep LF) segments = true ->
  exists w',
    PV.create_concat_list segments concat_list_path w = (Return tt, w') /\
    files w' concat_list_path =
      Some (Utf8 (join (map (fun path => "file '" +:+ path +:+ "'" +:+ nl) segments))) /\
    split LF (join (map (fun path => "file '" +:+ path +:+ "'" +:+ nl) segments)) =
      map (fun path => "file '" +:+ path +:+ "'") segments ++ [""].
Proof.
  intros H Hlf.
  destruct (create_concat_list_run segments concat_list_path w)
    as (w' & Hrun & Hfile & _).
  assert (Hq : forall path, In path segments ->
                 "file " +:+ quoted path = "file '" +:+ path +:+ "'").
  { intros path Hin. rewrite forallb_forall in H. specialize (H path Hin).
    unfold quoted, PV.escaped_quote. now rewrite (replace_nosep _ _ _ H). }
  assert (Hm : map manifest_line segments =
               map (fun path => "file '" +:+ path +:+ "'" +:+ nl) segments).
  { apply map_ext_in. intros path Hin. unfold manifest_line.
    rewrite <- sapp_assoc, (Hq path Hin), !sapp_assoc. reflexivity. }
  exists w'. split; [exact Hrun|]. rewrite Hfile, <- Hm. split; [reflexivity|].
  rewrite (manifest_split segments Hlf). f_equal.
  apply map_ext_in. exact Hq.
Qed.

Lemma zero_pad3_length (v : Z) : 0 <= v < 1000 -> length (zero_pad3 v) = 3%nat.
Proof.
  intros H. rewrite <- format_0_zero_pad3 by lia.
  destruct (pad3 v H) as [Hd _]. now apply digits_length.
Qed.

Lemma timecode_is_11 (t : string) : is_time t = true -> length (timecode t) = 11%nat.
Proof.
  intros H. apply is_time_stamp in H as (st & Hst & ->).
  destruct (timecode_length st Hst) as (tc & Htc & Hl).
  unfold timecode. now rewrite Htc.
Qed.

Lemma event_line_length (idx : Z) (segment : EDL.Segment) :
  0 <= idx < 1000 -> timed segment = true ->
  length (event_line (event_of idx segment)) = 77%nat.
Proof.
  intros Hidx Ht. unfold timed in Ht. apply andb_prop in Ht as [Hs He].
  unfold event_line, event_of.
  cbn [record_number reel track edit source_in source_out record_in record_out].
  rewrite !slength_app, (zero_pad3_length idx Hidx),
    (timecode_is_11 _ Hs), (timecode_is_11 _ He).
  reflexivity.
Qed.

Lemma event_lines_lengths (segments : list EDL.Segment) :
  forall idx : Z,
    0 <= idx -> idx + Z.of_nat (List.length segments) <= 1000 ->
    forallb timed segments = true ->
    Forall (fun line => length line = 77%nat) (map event_line (events idx segments)).
Proof.
  induction segments as [|seg rest IH]; intros idx H0 H1 Ht; [constructor|].
  cbn [forallb] in Ht. apply andb_prop in Ht as [Hseg Ht].
  cbn [List.length] in H1. cbn [events map]. constructor.
  - apply event_line_length; [lia | assumption].
  - apply IH; [lia | lia | assumption].
Qed.

Lemma event_line_body (e : Event) : event_line e = event_body e +:+ nl.
Proof. unfold event_line, event_body. now rewrite !sapp_assoc. Qed.

Lemma timecode_no_line_feed (t : string) :
  is_time t = true -> nosep LF (timecode t) = true.
Proof.
  intros H. apply is_time_stamp in H as (st & Hst & ->).
  unfold timecode. rewrite (format_time_stamp st Hst).
  apply stamp_ok_inv in Hst as (Hh & Hm & Hs & Hf).
  destruct (field3 _ Hf) as (_ & Hb & _).
  pose proof (frames_range _ Hb) as Hr.
  destruct (pad2 (dec (ms st) * 30 / 1000) ltac:(lia)) as [Hd _].
  apply digits_all_digits in Hh, Hm, Hs, Hd.
  repeat (apply nosep_app;
          [first [now apply nosep_digits | reflexivity]|]).
  now apply nosep_digits.
Qed.

Lemma event_body_no_line_feed (idx : Z) (segment : EDL.Segment) :
  0 <= idx < 1000 -> timed segment = true ->
  nosep LF (event_body (event_of idx segment)) = true.
Proof.
  intros Hidx Ht. unfold timed in Ht. apply andb_prop in Ht as [Hs He].
  pose proof (timecode_no_line_feed _ Hs) as Ns.
  pose proof (timecode_no_line_feed _ He) as Ne.
  assert (Np : nosep LF (zero_pad3 idx) = true).
  { rewrite <- format_0_zero_pad3 by lia. destruct (pad3 idx Hidx) as [Hd _].
    apply nosep_digits; [reflexivity | now apply (digits_all_digits 3)]. }
  unfold event_body, event_of.
  cbn [record_number reel track edit source_in source_out record_in record_out].
  repeat (apply nosep_app; [first [assumption | reflexivity]|]).
  assumption.
Qed.

Lemma event_lines_shape (segments : list EDL.Segment) :
  forall idx : Z,
    0 <= idx -> idx + Z.of_nat (List.length segments) <= 1000 ->
    forallb timed segments = true ->
    Forall (fun e => length (event_line e) = 77%nat /\
                     nosep LF (event_body e) = true)
           (events idx segments).
Proof.
  induction segments as [|seg rest IH]; intros idx H0 H1 Ht; [constructor|].
  cbn [forallb] in Ht. apply andb_prop in Ht as [Hseg Ht].
  cbn [List.length] in H1. cbn [events]. constructor.
  - split; [apply event_line_length | apply event_body_no_line_feed];
      (lia || assumption).
  - apply IH; [lia | lia | assumption].
Qed.

(** X16.  The event lines of the edit decision list are of fixed width:
    for up to 999 segments with parser's times, what [generate_edl] writes
    after the header is, for each event in turn, 76 characters without a
    line feed and then a line feed, 77 characters in all; cut at its line
    feeds, that part of the file is the events' lines and nothing after
    them. *)
Theorem edl_event_lines_have_77_characters
    (segments : list EDL.Segment) (edl_path original_video : string) (w : World) :
  forallb timed segments = true ->
  (List.length segments <= 999)%nat ->
  exists w',
    EDL.generate_edl segments edl_path original_video w = (Return tt, w') /\
    files w' edl_path =
      Some (Utf8 (edl_header +:+ join (map event_line (events 1 segments)))) /\
    List.length (events 1 segments) = List.length segments /\
    Forall (fun e => event_line e = event_body e +:+ nl /\
                     length (event_line e) = 77%nat /\
                     length (event_body e) = 76%nat /\
                     nosep LF (event_body e) = true)
           (events 1 segments) /\
    split LF (join (map event_line (events 1 segments))) =
      map event_body (events 1 segments) ++ [""].
Proof.
  intros Ht Hn.
  destruct (generate_edl_run segments edl_path original_video w Ht)
    as (w' & Hrun & Hfile & _).
  pose proof (event_lines_shape segments 1 ltac:(lia) ltac:(lia) Ht) as Hshape.
  exists w'.
  split; [exact Hrun|]. split; [exact Hfile|]. split; [apply events_length|]. split.
  - eapply Forall_impl; [|exact Hshape]. intros e [Hl Hb].
    split; [apply event_line_body|]. split; [exact Hl|]. split; [|exact Hb].
    rewrite event_line_body, slength_app in Hl. cbn in Hl. lia.
  - replace (map event_line (events 1 segments))
      with (map (fun line => line +:+ nl) (map event_body (events 1 segments))).
    + apply split_lines. apply forallb_forall. intros body Hin.
      apply in_map_iff in Hin as (e & <- & Hin).
      rewrite Forall_forall in Hshape. now apply Hshape.
    + rewrite map_map. apply map_ext. intros e. now rewrite event_line_body.
Qed.

End Shapes.

(* ================================================================== *)
(** * Instances *)
(* ================================================================== *)

Lemma pv_keeps_every_entry_witness :
  Srt.well_formed Sample.scenario Sample.scenario_tail = true /\
  PV.parse_srt_content (Srt.render Sample.scenario Sample.scenario_tail) =
    [("00:00:00.000", "00:00:05.000"); ("00:00:10.000", "00:00:20.000");
     ("00:01:00.000", "00:01:15.500")].
Proof.
  assert (Hwf : Srt.well_formed Sample.scenario Sample.scenario_tail = true)
    by (vm_compute; reflexivity).
  split; [exact Hwf|].
  pose proof (proj1 (pv_keeps_every_entry _ _ Hwf)) as H.
  vm_compute in H. vm_compute. exact H.
Defined.

Lemma parsed_times_format_witness :
  Srt.is_time "00:01:00.000" = true /\ Srt.is_time "00:01:15.500" = true /\
  exists tc_in tc_out,
    EDL.format_time_for_edl "00:01:00.000" = Py.Ok tc_in /\
    EDL.format_time_for_edl "00:01:15.500" = Py.Ok tc_out /\
    length tc_in = 11%nat /\ length tc_out = 11%nat.
Proof.
  apply (parsed_times_format (Srt.render Sample.scenario Sample.scenario_tail)
           ("00:01:00.000", "00:01:15.500")).
  left. vm_compute. right. left. reflexivity.
Defined.

Lemma format_time_rejects_other_forms_witness :
  EDL.format_time_for_edl "00" = Py.Err Py.IndexError /\
  EDL.format_time_for_edl "00:01" = Py.Err Py.IndexError /\
  EDL.format_time_for_edl "00:01:02" = Py.Err Py.ValueError /\
  EDL.format_time_for_edl "00:01:02,500" = Py.Err Py.ValueError.
Proof.
  exact (format_time_rejects_other_forms (Sample.stamp "00" "01" "02" "500")
           ltac:(vm_compute; reflexivity)).
Defined.

Lemma four_digit_millis_not_carried_witness :
  EDL.format_time_for_edl "00:01:02.4100" = Py.Ok "00:01:02:122".
Proof.
  exact (proj1 (four_digit_millis_not_carried "00" "01" "02" "4100"
                  ltac:(vm_compute; reflexivity) ltac:(vm_compute; reflexivity)
                  ltac:(vm_compute; reflexivity) ltac:(vm_compute; reflexivity))).
Defined.

Lemma main_stops_on_missing_input_witness :
  Sys.files Sample.bare_world "IMG_0106.mov" = None /\
  EDL.main Sample.obliging Sample.bare_world =
    (Sys.Exit 1, Srt.printed ["Input video file 'IMG_0106.mov' not found."]
                   Sample.bare_world) /\
  Sys.files Sample.video_only_world "IMG_0106.mov" <> None /\
  Sys.files Sample.video_only_world "90 days in Japan without a plan.srt" = None /\
  PV.main Sample.obliging Sample.video_only_world =
    (Sys.Exit 1, Srt.printed ["SRT file '90 days in Japan without a plan.srt' not found."]
                   Sample.video_only_world).
Proof.
  assert (Hv : Sys.files Sample.video_only_world "IMG_0106.mov" <> None)
    by (vm_compute; discriminate).
  split; [reflexivity|]. split.
  - exact (proj1 (proj1 (main_stops_on_missing_input Sample.obliging Sample.bare_world)
                    eq_refl)).
  - split; [exact Hv|]. split; [reflexivity|].
    exact (proj2 (proj1 (proj2 (main_stops_on_missing_input Sample.obliging
                                  Sample.video_only_world))
                    Hv eq_refl)).
Defined.

Lemma edl_main_writes_the_list_witness :
  exists w',
    EDL.main Sample.obliging
      (Sample.world_with (Srt.render Sample.scenario Sample.scenario_tail))
    = (Sys.Return tt, w') /\
    List.length (Sys.procs w') = 2%nat /\
    Sys.files w' "segments.edl" =
      Some (Py.Utf8
              ("TITLE: Extracted Segments EDL" +:+ nl +:+
               "FCM: NON-DROP FRAME" +:+ nl +:+ nl +:+
               "001  AX       V     C        00:00:10:00 00:00:20:00 00:00:10:00 00:00:20:00"
               +:+ nl +:+
               "002  AX       V     C        00:01:00:00 00:01:15:15 00:01:00:00 00:01:15:15"
               +:+ nl)).
Proof.
  destruct (edl_main_writes_the_list Sample.obliging
              (Sample.world_with (Srt.render Sample.scenario Sample.scenario_tail))
              Py.Malformed (Srt.render Sample.scenario Sample.scenario_tail)
              ltac:(vm_compute; reflexivity) ltac:(vm_compute; reflexivity)
              ltac:(vm_compute; discriminate) ltac:(vm_compute; reflexivity))
    as (w' & Hrun & _ & _ & Hpr & Hfile & _).
  exists w'. split; [exact Hrun|]. split.
  - rewrite Hpr. vm_compute. reflexivity.
  - rewrite Hfile. vm_compute. reflexivity.
Defined.

Lemma main_stops_at_failed_trim_witness :
  EDL.main Sample.failing_second
    (Sample.world_with (Srt.render Sample.scenario Sample.scenario_tail))
  = (Sys.Exit 1,
     Srt.after_failed Sample.failing_second "IMG_0106.mov" "segments"
       [("00:00:10.000", "00:00:20.000")] ("00:01:00.000", "00:01:15.500")
       (Srt.printed (Srt.greeting 2)
          (Sample.world_with (Srt.render Sample.scenario Sample.scenario_tail)))).
Proof.
  exact (proj1 (main_stops_at_failed_trim Sample.failing_second
                  (Sample.world_with (Srt.render Sample.scenario Sample.scenario_tail))
                  Py.Malformed (Srt.render Sample.scenario Sample.scenario_tail)
                  [("00:00:10.000", "00:00:20.000")] ("00:01:00.000", "00:01:15.500") []
                  ltac:(vm_compute; reflexivity) ltac:(vm_compute; reflexivity)
                  ltac:(vm_compute; reflexivity) ltac:(vm_compute; discriminate))
           ltac:(vm_compute; reflexivity)).
Defined.

Lemma pv_main_concatenates_witness :
  exists w',
    PV.main Sample.failing_concat
      (Sample.world_with (Srt.render Sample.plain nl))
    = (Sys.Exit 1, w') /\
    Sys.files w' "concat_list.txt" =
      Some (Py.Utf8 ("file 'segments/segment_001.mov'" +:+ nl +:+
                     "file 'segments/segment_002.mov'" +:+ nl)) /\
    last (Sys.stdout w') "" = "Error concatenating segments: Invalid data found".
Proof.
  destruct (pv_main_concatenates Sample.failing_concat
              (Sample.world_with (Srt.render Sample.plain nl))
              Py.Malformed (Srt.render Sample.plain nl)
              ltac:(vm_compute; reflexivity) ltac:(vm_compute; reflexivity)
              ltac:(vm_compute; discriminate) ltac:(vm_compute; reflexivity))
    as (w' & Hrun & _ & Hfile & _ & _ & Hlast).
  exists w'. split; [exact Hrun|]. split.
  - rewrite Hfile. vm_compute. reflexivity.
  - apply Hlast. vm_compute. discriminate.
Defined.

Lemma main_returns_or_stops_with_1_witness :
  Sys.files (Sample.world_with (Srt.render Sample.plain nl))
    "90 days in Japan without a plan.srt" <> Some Py.Malformed /\
  (forall cmd, Sys.returncode (Sample.failing_concat cmd) <> 0 ->
               Sys.stderr (Sample.failing_concat cmd) <> Py.Malformed) /\
  (fst (PV.main Sample.failing_concat (Sample.world_with (Srt.render Sample.plain nl)))
   = Sys.Return tt \/
   fst (PV.main Sample.failing_concat (Sample.world_with (Srt.render Sample.plain nl)))
   = Sys.Exit 1).
Proof.
  assert (Hs : Sys.files (Sample.world_with (Srt.render Sample.plain nl))
                 "90 days in Japan without a plan.srt" <> Some Py.Malformed)
    by (vm_compute; discriminate).
  assert (Ht : forall cmd, Sys.returncode (Sample.failing_concat cmd) <> 0 ->
                           Sys.stderr (Sample.failing_concat cmd) <> Py.Malformed).
  { intros cmd _. unfold Sample.failing_concat.
    destruct (String.eqb (nth 3 cmd "") "concat"); discriminate. }
  split; [exact Hs|]. split; [exact Ht|].
  exact (proj2 (proj2 (proj2 (main_returns_or_stops_with_1 Sample.failing_concat
                                (Sample.world_with (Srt.render Sample.plain nl))))
                  Hs Ht)).
Defined.

Lemma lone_first_minute_entry_is_fatal_witness :
  EDL.main Sample.obliging
    (Sample.world_with (Srt.render Sample.placeholder_only nl))
  = (Sys.Exit 1,
     Srt.printed ["Parsing SRT file..."; "Found 0 segments to extract.";
                  "No valid time ranges found in the SRT file."]
       (Sample.world_with (Srt.render Sample.placeholder_only nl))).
Proof.
  exact (proj1 (lone_first_minute_entry_is_fatal Sample.obliging
                  (Sample.world_with (Srt.render Sample.placeholder_only nl))
                  Py.Malformed ("1" +:+ nl) nl
                  (Sample.cue (Sample.stamp "00" "00" "00" "000")
                              (Sample.stamp "00" "00" "05" "000"))
                  ltac:(vm_compute; reflexivity) ltac:(vm_compute; reflexivity)
                  ltac:(vm_compute; reflexivity) ltac:(vm_compute; reflexivity))).
Defined.

Lemma manifest_of_plain_paths_witness :
  exists w',
    PV.create_concat_list Sample.plain_paths "concat_list.txt" Sample.empty_world
      = (Sys.Return tt, w') /\
    Sys.files w' "concat_list.txt" =
      Some (Py.Utf8 ("file 'segments/segment_001.mov'" +:+ nl +:+
                     "file 'segments/segment_002.mov'" +:+ nl)) /\
    Py.split LF ("file 'segments/segment_001.mov'" +:+ nl +:+
                 "file 'segments/segment_002.mov'" +:+ nl) =
      ["file 'segments/segment_001.mov'"; "file 'segments/segment_002.mov'"; ""].
Proof.
  destruct (manifest_of_plain_paths Sample.plain_paths "concat_list.txt"
              Sample.empty_world ltac:(vm_compute; reflexivity)
              ltac:(vm_compute; reflexivity))
    as (w' & Hrun & Hfile & Hlines).
  exists w'. split; [exact Hrun|]. split.
  - rewrite Hfile. vm_compute. reflexivity.
  - vm_compute in Hlines. vm_compute. exact Hlines.
Defined.

Lemma edl_event_lines_have_77_characters_witness :
  exists w',
    EDL.generate_edl Sample.two_segments "segments.edl" "IMG_0106.mov" Sample.empty_world
      = (Sys.Return tt, w') /\
    Py.split LF (Srt.join (map Srt.event_line (Srt.events 1 Sample.two_segments))) =
      ["001  AX       V     C        00:00:10:00 00:00:20:00 00:00:10:00 00:00:20:00";
       "002  AX       V     C        00:01:00:00 00:01:15:15 00:01:00:00 00:01:15:15";
       ""].
Proof.
  destruct (edl_event_lines_have_77_characters Sample.two_segments "segments.edl"
              "IMG_0106.mov" Sample.empty_world
              ltac:(vm_compute; reflexivity) ltac:(vm_compute; lia))
    as (w' & Hrun & _ & _ & _ & Hlines).
  exists w'. split; [exact Hrun|]. rewrite Hlines. vm_compute. reflexivity.
Defined.
